(** * Housing Authority Assistant: the client-side voice subsystem

    A shallow embedding of the voice code of the Next.js front end:

    - [Waveform]  : ui/components/voice/VoiceWaveform.tsx (drawWaveform)
    - [Api]       : lib/api.ts, the REST client wrappers
    - [UseVoice]  : ui/lib/hooks/useVoice.ts, the capture / playback hook
    - [Microphone]: VoiceMicrophone.tsx, the handlers that drive the hook
    - [Playback]  : VoicePlayback.tsx, the transport controls
    - [Hybrid]    : HybridVoiceAgent.tsx (processVoiceMessage)
    - [ChatView]  : Chat.tsx (handleVoiceRecording)
    - [Home]      : page.tsx (handleVoiceUpload, handleSendMessage)
    - [WaveformGeometry], [TimeFormat], [Recordings], [PlaybackMore],
      [HybridCapture], [ChatAutoPlay]: the geometry of the waveform, the
      time formats, RecordingsManager.tsx, the rest of VoicePlayback.tsx,
      the capture half of HybridVoiceAgent.tsx and the auto-play effect of
      Chat.tsx

    Numbers that the source keeps as JavaScript doubles are kept as exact
    rationals ([Q]) where they are fractions and as [Z] where the source
    only ever holds integers (canvas sizes, loop counters, array lengths,
    the volume slider).  *)

From Stdlib Require Import ZArith QArith Qround Lia Lqa.
From stdpp Require Import base list gmap strings pretty.

Local Open Scope Z_scope.
Local Set Warnings "-register-all".

(* ===================================================================== *)
(** ** VoiceWaveform.tsx *)
(* ===================================================================== *)

Module Waveform.

(** [mode?: 'bars' | 'circle' | 'line' | 'orb'] *)
Inductive Mode := bars | circle | line | orb.

(** [size?: 'small' | 'medium' | 'large'] *)
Inductive Size := small | medium | large.

Record Config := { width : Z; height : Z; barCount : Z }.

Definition sizeConfig (size : Size) : Config :=
  match size with
  | small  => {| width := 60;  height := 60;  barCount := 12 |}
  | medium => {| width := 100; height := 100; barCount := 20 |}
  | large  => {| width := 150; height := 150; barCount := 32 |}
  end.

(** [const points = 64;] of the 'line' branch. *)
Definition points : Z := 64.

(** [Math.floor(i * frequencyData.length / count)].  The operands are
    integers far below 2^53, so the double product is exact and the floor
    of the correctly rounded quotient is the integer quotient. *)
Definition binIndex (i len count : Z) : Z := i * len / count.

(** [const dataIndex = frequencyData ? Math.floor(...) : i;]
    A [Uint8Array] is truthy whatever its length. *)
Definition dataIndex (frequencyData : option (list Z)) (i count : Z) : Z :=
  match frequencyData with
  | Some fd => binIndex i (Z.of_nat (length fd)) count
  | None => i
  end.

(** [frequencyData[dataIndex]]: a typed-array read, [undefined] (here
    [None]) outside of the array. *)
Definition readBin (fd : list Z) (idx : Z) : option Z :=
  if idx <? 0 then None else fd !! Z.to_nat idx.

(** What drives the amplitude of bar (or point) [i]: the ternary
    [frequencyData ? frequencyData[dataIndex] / 255 : <fallback>],
    with the fallback of each mode kept symbolic. *)
Inductive AmpSource :=
| FromBin (idx : Z) (value : option Z)  (* frequencyData[idx] / 255 *)
| FromLevel                             (* audioLevel *)
| FromRandom                            (* Math.random() * audioLevel *)
| FromSine (i : Z).                     (* Math.sin(i * 0.1) * audioLevel *)

Definition fallback (mode : Mode) (i : Z) : AmpSource :=
  match mode with
  | circle => FromLevel
  | bars => FromRandom
  | line => FromSine i
  | orb => FromLevel
  end.

Definition ampSource (mode : Mode) (frequencyData : option (list Z))
    (i count : Z) : AmpSource :=
  match frequencyData with
  | Some fd =>
      let idx := dataIndex frequencyData i count in
      FromBin idx (readBin fd idx)
  | None => fallback mode i
  end.

(** The loop bound of each mode: [config.barCount] for 'circle' and
    'bars', [points] for 'line'; the 'orb' branch has no loop. *)
Definition loopCount (mode : Mode) (config : Config) : Z :=
  match mode with
  | circle | bars => barCount config
  | line => points
  | orb => 0
  end.

(** [for (let i = 0; i < count; i++)], as the list of the values of [i]. *)
Definition loopIndices (count : Z) : list Z :=
  Z.of_nat <$> seq 0 (Z.to_nat count).

(** The amplitude sources of one frame, in drawing order. *)
Definition drawSources (mode : Mode) (size : Size)
    (frequencyData : option (list Z)) : list AmpSource :=
  let count := loopCount mode (sizeConfig size) in
  (fun i => ampSource mode frequencyData i count) <$> loopIndices count.

(** A source is well defined when it does not read outside the bins. *)
Definition inBounds (len : Z) (src : AmpSource) : Prop :=
  match src with
  | FromBin idx value => 0 <= idx < len /\ is_Some value
  | _ => True
  end.

(** *** The 'orb' branch *)

(** [const baseRadius = Math.min(width, height) * 0.15;] *)
Definition baseRadius (width height : Z) : Q :=
  (inject_Z (Z.min width height) * (15 # 100))%Q.

(** The pulse scale of [audioLevel * 20]. *)
Definition pulseScale : Q := 20%Q.

(** [const pulseRadius = baseRadius + (audioLevel * 20);] *)
Definition pulseRadius (width height : Z) (audioLevel : Q) : Q :=
  (baseRadius width height + audioLevel * pulseScale)%Q.

End Waveform.

(* ===================================================================== *)
(** ** JavaScript values and asynchronous control flow *)
(* ===================================================================== *)

Module Js.

(** The values that cross the HTTP boundary ([await res.json()]). *)
Inductive json :=
| JNull
| JBool (b : bool)
| JNum (q : Q)
| JStr (s : string)
| JArr (items : list json)
| JObj (fields : list (string * json)).

(** [undefined] is the absence of a value. *)
Definition value := option json.

(** JavaScript truthiness, as used by [if (x)], [!x], [&&] and [||]. *)
Definition truthy (j : json) : bool :=
  match j with
  | JNull => false
  | JBool b => b
  | JNum q => negb (Qeq_bool q 0)
  | JStr s => negb (String.eqb s "")
  | JArr _ | JObj _ => true
  end.

Definition truthyValue (v : value) : bool :=
  match v with Some j => truthy j | None => false end.

Fixpoint assoc (k : string) (fields : list (string * json)) : value :=
  match fields with
  | [] => None
  | (k', v) :: rest => if String.eqb k k' then Some v else assoc k rest
  end.

(** What a thrown value is, as far as the callers can tell. *)
Inductive exn :=
| NetworkError                 (* fetch rejected *)
| SyntaxError                  (* res.json() on a body that is not JSON *)
| TypeError                    (* property read on null / undefined *)
| NotAllowedError              (* getUserMedia or play() refused *)
| LoadError                    (* import() rejected *)
| Error (message : string).    (* new Error(message) *)

(** [j.k]: reading a property of [null] throws, of any other value that
    has no such property gives [undefined]. *)
Definition getProp (k : string) (j : json) : exn + value :=
  match j with
  | JNull => inl TypeError
  | JObj fields => inr (assoc k fields)
  | _ => inr None
  end.

(** A promise that has settled. *)
Inductive Promise (A : Type) :=
| Fulfilled (a : A)
| Rejected (e : exn).
Arguments Fulfilled {A} a.
Arguments Rejected {A} e.

(** Truthiness of optional strings and numbers ([if (metadata.userId)]). *)
Definition truthyStr (s : option string) : bool :=
  match s with Some s => negb (String.eqb s "") | None => false end.

Definition truthyNum (q : option Q) : bool :=
  match q with Some q => negb (Qeq_bool q 0) | None => false end.

End Js.

(** A program over a mutable world [S]: it ends by returning or by
    throwing, and the writes made before a throw stay made. *)
Module Async.
Import Js.

Inductive Completion (A : Type) :=
| Returned (a : A)
| Threw (e : exn).
Arguments Returned {A} a.
Arguments Threw {A} e.

Definition Prog (S A : Type) : Type := S -> Completion A * S.

Definition ret {S A} (a : A) : Prog S A := fun s => (Returned a, s).

Definition throw {S A} (e : exn) : Prog S A := fun s => (Threw e, s).

Definition bind {S A B} (c : Prog S A) (k : A -> Prog S B) : Prog S B :=
  fun s =>
    match c s with
    | (Returned a, s') => k a s'
    | (Threw e, s') => (Threw e, s')
    end.

(** [try { body } catch (err) { handler }] *)
Definition tryCatch {S A} (body : Prog S A) (handler : exn -> Prog S A)
    : Prog S A :=
  fun s =>
    match body s with
    | (Returned a, s') => (Returned a, s')
    | (Threw e, s') => handler e s'
    end.

Definition get {S} : Prog S S := fun s => (Returned s, s).

Definition modify {S} (f : S -> S) : Prog S unit := fun s => (Returned tt, f s).

(** [await p] *)
Definition await {S A} (p : Promise A) : Prog S A :=
  match p with
  | Fulfilled a => ret a
  | Rejected e => throw e
  end.

(** An async function whose [return] statements hand back promises: the
    promise of the call settles as the returned promise does, after the
    function body (and so any [try] around the [return]) has been left. *)
Definition asyncReturn {S A} (body : Prog S (Promise A)) : Prog S A :=
  bind body await.

(** Running a sub-program on a part of the world. *)
Definition zoom {S T A} (proj : S -> T) (inj : T -> S -> S)
    (c : Prog T A) : Prog S A :=
  fun s => let '(r, t) := c (proj s) in (r, inj t s).

Definition when {S} (b : bool) (c : Prog S unit) : Prog S unit :=
  if b then c else ret tt.

Declare Scope prog_scope.
Delimit Scope prog_scope with prog.
Notation "x <- c ;; k" := (bind c (fun x => k))
  (at level 100, c at next level, right associativity) : prog_scope.
Notation "c ;; k" := (bind c (fun _ => k))
  (at level 100, right associativity) : prog_scope.

End Async.

(* ===================================================================== *)
(** ** lib/api.ts: the REST client wrappers *)
(* ===================================================================== *)

Module Api.
Import Js Async.
Local Open Scope prog_scope.

(** Recorded audio. *)
Record Blob := { blobBytes : list Z; blobType : string }.

(** A string, or a number that the source turns into its decimal text
    with [n.toString()]. *)
Inductive Scalar :=
| SText (s : string)
| SNumber (q : Q).

Inductive FormValue :=
| FBlob (b : Blob) (filename : string)
| FScalar (v : Scalar).

Inductive Body :=
| NoBody
| JsonBody (j : json)
| FormBody (fields : list (string * FormValue)).

(** One call of [fetch]: the path, the [URLSearchParams] appended after
    ['?'] (if the URL has one), and the init object. *)
Record Request := {
  method : string;
  path : string;
  params : option (list (string * Scalar));
  body : Body
}.

(** [res.status] and what [res.json()] gives: [None] when the body is
    not JSON (an empty 204 body, an HTML error page of a proxy). *)
Record Response := { status : Z; payload : option json }.

(** [res.ok] *)
Definition ok (res : Response) : bool :=
  (200 <=? status res) && (status res <=? 299).

(** [res.json()] *)
Definition json_ (res : Response) : Promise json :=
  match payload res with
  | Some j => Fulfilled j
  | None => Rejected SyntaxError
  end.

Inductive FetchOutcome :=
| FetchRejects
| FetchResolves (res : Response).

(** The network: what the server side answers to a request, given the
    requests sent before it, and the requests sent so far. *)
Record Net := {
  respond : list Request -> Request -> FetchOutcome;
  sent : list Request
}.

(** [await fetch(...)], for a request that settles: the fetch rejects or
    resolves with a response.  The source sets no timeout, so a request
    may also stay pending and the caller then never resumes; such a run
    is not represented.  What is stated below about the result of a call,
    or about the state it leaves, is therefore about the runs in which
    the requests it awaits are answered or rejected. *)
Definition fetch (req : Request) : Prog Net Response :=
  fun net =>
    let net' := {| respond := respond net; sent := sent net ++ [req] |} in
    match respond net (sent net) req with
    | FetchRejects => (Threw NetworkError, net')
    | FetchResolves res => (Returned res, net')
    end.

(** The network refuses the next request [req]: the fetch rejects or the
    status is outside 200..299. *)
Definition refuses (n : Net) (req : Request) : Prop :=
  match respond n (sent n) req with
  | FetchRejects => True
  | FetchResolves res => ok res = false
  end.

(** The network answers the next request [req] with a 2xx response
    whose body is an object with [transcript] equal to the empty string. *)
Definition answersEmptyTranscript (n : Net) (req : Request) : Prop :=
  exists res fields,
    respond n (sent n) req = FetchResolves res /\
    ok res = true /\
    payload res = Some (JObj fields) /\
    assoc "transcript" fields = Some (JStr "").

(** The two statements every wrapper ends its [try] block with:
    [if (!res.ok) throw new Error(`... ${res.status}`); return res.json();] *)
Definition checked (label : string) (res : Response) : Prog Net (Promise json) :=
  if ok res then ret (json_ res) else throw (Error label).

(** [catch (err) { console.error(...); return <fallback>; }] *)
Definition orElse (fallback : json) (_ : exn) : Prog Net (Promise json) :=
  ret (Fulfilled fallback).

Record ChatOptions := {
  enableVoice : option bool;
  enableNavigation : option bool;
  userId : option string
}.

(** [options?.enableVoice || false] *)
Definition flag (options : option ChatOptions)
    (f : ChatOptions -> option bool) : bool :=
  match options with
  | Some o => match f o with Some b => b | None => false end
  | None => false
  end.

(** [JSON.stringify] leaves out a property whose value is [undefined]. *)
Definition optField (k : string) (v : option string) : list (string * json) :=
  match v with Some s => [(k, JStr s)] | None => [] end.

Definition callChatAPI (message conversationId : string)
    (options : option ChatOptions) : Prog Net json :=
  asyncReturn (tryCatch
    (res <- fetch {| method := "POST"; path := "/chat"; params := None;
                     body := JsonBody (JObj (
                       [("conversation_id", JStr conversationId);
                        ("message", JStr message);
                        ("enable_voice", JBool (flag options enableVoice));
                        ("enable_navigation", JBool (flag options enableNavigation))]
                       ++ optField "user_id" (options ≫= userId))) |} ;;
     checked "Chat API error" res)
    (orElse JNull)).

Definition synthesizeVoice (text : string) (agent : option string)
    (returnBase64 : option bool) : Prog Net json :=
  let agent := default "Triage Agent" agent in
  let returnBase64 := default true returnBase64 in
  asyncReturn (tryCatch
    (res <- fetch {| method := "POST"; path := "/voice/synthesize";
                     params := Some [("text", SText text); ("agent", SText agent);
                                     ("return_base64",
                                      SText (if returnBase64 then "true" else "false"))];
                     body := NoBody |} ;;
     checked "Voice API error" res)
    (orElse JNull)).

Definition getVoiceInfo : Prog Net json :=
  asyncReturn (tryCatch
    (res <- fetch {| method := "GET"; path := "/voice/info"; params := None;
                     body := NoBody |} ;;
     checked "Voice info API error" res)
    (orElse JNull)).

Definition uploadAudio (audioBlob : Blob) : Prog Net json :=
  asyncReturn (tryCatch
    (res <- fetch {| method := "POST"; path := "/speech-to-text"; params := None;
                     body := FormBody [("audio", FBlob audioBlob "recording.wav")] |} ;;
     checked "Speech-to-text API error" res)
    (orElse JNull)).

Record RecordingMetadata := {
  conversationId : option string;
  md_userId : option string;
  transcript : option string;
  agentResponse : option string;
  duration : option Q;
  confidenceScore : option Q;
  language : option string
}.

(** [if (metadata.k) formData.append(name, metadata.k);] *)
Definition appendStr (name : string) (v : option string)
    : list (string * FormValue) :=
  match v with
  | Some s => if truthyStr v then [(name, FScalar (SText s))] else []
  | None => []
  end.

Definition appendNum (name : string) (v : option Q)
    : list (string * FormValue) :=
  match v with
  | Some q => if truthyNum v then [(name, FScalar (SNumber q))] else []
  | None => []
  end.

Definition saveRecording (audioBlob : Blob) (metadata : RecordingMetadata)
    : Prog Net json :=
  asyncReturn (tryCatch
    (res <- fetch {| method := "POST"; path := "/recordings/save"; params := None;
                     body := FormBody (
                       [("audio", FBlob audioBlob "recording.webm")]
                       ++ appendStr "conversation_id" (conversationId metadata)
                       ++ appendStr "user_id" (md_userId metadata)
                       ++ appendStr "transcript" (transcript metadata)
                       ++ appendStr "agent_response" (agentResponse metadata)
                       ++ appendNum "duration" (duration metadata)
                       ++ appendNum "confidence_score" (confidenceScore metadata)
                       ++ appendStr "language" (language metadata)) |} ;;
     checked "Recording save API error" res)
    (orElse JNull)).

(** [if (k) params.append(name, k)] for the optional query parameters. *)
Definition paramStr (name : string) (v : option string)
    : list (string * Scalar) :=
  match v with
  | Some s => if truthyStr v then [(name, SText s)] else []
  | None => []
  end.

Definition paramNum (name : string) (v : option Q)
    : list (string * Scalar) :=
  match v with
  | Some q => if truthyNum v then [(name, SNumber q)] else []
  | None => []
  end.

Definition listRecordings (conversationId userId : option string)
    (limit : option Q) : Prog Net json :=
  asyncReturn (tryCatch
    (res <- fetch {| method := "GET"; path := "/recordings";
                     params := Some (
                       paramStr "conversation_id" conversationId
                       ++ paramStr "user_id" userId
                       ++ paramNum "limit" limit);
                     body := NoBody |} ;;
     checked "Recordings list API error" res)
    (orElse (JArr []))).

Definition getRecording (recordingId : string) : Prog Net json :=
  asyncReturn (tryCatch
    (res <- fetch {| method := "GET"; path := "/recordings/" +:+ recordingId;
                     params := None; body := NoBody |} ;;
     checked "Recording get API error" res)
    (orElse JNull)).

Definition deleteRecording (recordingId : string) : Prog Net json :=
  asyncReturn (tryCatch
    (res <- fetch {| method := "DELETE"; path := "/recordings/" +:+ recordingId;
                     params := None; body := NoBody |} ;;
     checked "Recording delete API error" res)
    (orElse JNull)).

Definition getElevenLabsConfig : Prog Net json :=
  asyncReturn (tryCatch
    (res <- fetch {| method := "GET"; path := "/elevenlabs/config";
                     params := None; body := NoBody |} ;;
     checked "ElevenLabs config API error" res)
    (orElse JNull)).

Definition getElevenLabsSignedUrl (agentId : string) : Prog Net json :=
  asyncReturn (tryCatch
    (res <- fetch {| method := "GET"; path := "/elevenlabs/signed-url";
                     params := Some [("agent_id", SText agentId)]; body := NoBody |} ;;
     checked "ElevenLabs signed URL API error" res)
    (orElse JNull)).

End Api.

(* ===================================================================== *)
(** ** ui/lib/hooks/useVoice.ts *)
(* ===================================================================== *)

Module UseVoice.
Import Js Async.
Local Open Scope prog_scope.

(** ['push-to-talk' | 'continuous' | 'disabled'] *)
Inductive VoiceMode := push_to_talk | continuous | disabled.

(** ['idle' | 'recording' | 'processing' | 'playing' | 'error'] *)
Inductive VoiceState :=
| st_idle | st_recording | st_processing | st_playing | st_error.

Record VoiceSettings := {
  mode : VoiceMode;
  volume : Z;
  enableVoiceActivity : bool;
  selectedVoice : string;
  autoPlayResponses : bool;
  noiseSuppressionLevel : Q;
  saveRecordings : bool;
  userId : option string;
  conversationId : option string
}.

(** The argument of [useState<VoiceSettings>]. *)
Definition initialSettings : VoiceSettings :=
  {| mode := push_to_talk;
     volume := 80;
     enableVoiceActivity := true;
     selectedVoice := "Rachel";
     autoPlayResponses := true;
     noiseSuppressionLevel := 7 # 10;
     saveRecordings := true;
     userId := None;
     conversationId := None |}.

(** [Partial<VoiceSettings>]: the keys that are present. *)
Record PartialSettings := {
  p_mode : option VoiceMode;
  p_volume : option Z;
  p_enableVoiceActivity : option bool;
  p_selectedVoice : option string;
  p_autoPlayResponses : option bool;
  p_noiseSuppressionLevel : option Q;
  p_saveRecordings : option bool;
  p_userId : option (option string);
  p_conversationId : option (option string)
}.

(** [{ ...prev, ...newSettings }] *)
Definition merge (prev : VoiceSettings) (newSettings : PartialSettings)
    : VoiceSettings :=
  {| mode := default (mode prev) (p_mode newSettings);
     volume := default (volume prev) (p_volume newSettings);
     enableVoiceActivity :=
       default (enableVoiceActivity prev) (p_enableVoiceActivity newSettings);
     selectedVoice := default (selectedVoice prev) (p_selectedVoice newSettings);
     autoPlayResponses :=
       default (autoPlayResponses prev) (p_autoPlayResponses newSettings);
     noiseSuppressionLevel :=
       default (noiseSuppressionLevel prev) (p_noiseSuppressionLevel newSettings);
     saveRecordings := default (saveRecordings prev) (p_saveRecordings newSettings);
     userId := default (userId prev) (p_userId newSettings);
     conversationId := default (conversationId prev) (p_conversationId newSettings) |}.

(** *** Platform objects *)

(** A RecordRTC instance: the stream it records (by identity), whether
    it is recording, and the audio captured so far, which [getBlob()]
    hands out. *)
Record Recorder := {
  recStream : nat;
  recRecording : bool;
  captured : option Api.Blob
}.

Record AudioContext := { closed : bool }.

(** The analyser node and the streams connected to it. *)
Record Analyser := { fftSize : Z; inputs : list nat }.

Inductive AudioSrc :=
| NoSrc
| DataUrl (base64 : string)     (* `data:audio/mp3;base64,${audioData}` *)
| BlobUrl (id : nat).           (* URL.createObjectURL(audioData) *)

(** [audioData: string | Blob] *)
Inductive AudioData :=
| Base64 (s : string)
| BlobData (b : Api.Blob).

(** [typeof audioData === 'object'] *)
Definition isObject (audioData : AudioData) : bool :=
  match audioData with Base64 _ => false | BlobData _ => true end.

(** The [HTMLAudioElement] of [audioElementRef].  [onended] holds the
    [audioData] its closure was created with, [onerror] whether the
    handler is installed. *)
Record Audio := {
  src : AudioSrc;
  a_volume : Q;
  currentTime : Q;
  paused : bool;
  onended : option AudioData;
  onerror : bool
}.

(** [new Audio()] *)
Definition newAudio : Audio :=
  {| src := NoSrc; a_volume := 1; currentTime := 0; paused := true;
     onended := None; onerror := false |}.

(** The state of the hook ([useState]), its refs ([useRef]) and the part
    of the browser it touches: the media streams handed out by
    [getUserMedia] (a stream is known by its position in [streams], each
    track by whether it is still live), the object URLs that are
    registered, the animation-frame counter and the network. *)
Record World := {
  voiceState : VoiceState;
  voiceEnabled : bool;
  audioLevel : Q;
  error : option string;
  isClient : bool;
  settings : VoiceSettings;
  mediaRecorderRef : option Recorder;
  audioContextRef : option AudioContext;
  analyzerRef : option Analyser;
  audioElementRef : option Audio;
  streamRef : option nat;
  animationFrameRef : option nat;
  recordingStartTimeRef : option Z;
  streams : list (list bool);
  objectUrls : gset nat;
  nextUrl : nat;
  nextFrame : nat;
  net : Api.Net
}.

(** Field updates. *)
Definition set_voiceState (x : VoiceState) (w : World) : World :=
  {| voiceState := x; voiceEnabled := voiceEnabled w;
     audioLevel := audioLevel w; error := error w; isClient := isClient w;
     settings := settings w; mediaRecorderRef := mediaRecorderRef w;
     audioContextRef := audioContextRef w; analyzerRef := analyzerRef w;
     audioElementRef := audioElementRef w; streamRef := streamRef w;
     animationFrameRef := animationFrameRef w;
     recordingStartTimeRef := recordingStartTimeRef w; streams := streams w;
     objectUrls := objectUrls w; nextUrl := nextUrl w;
     nextFrame := nextFrame w; net := net w |}.

Definition set_voiceEnabled (x : bool) (w : World) : World :=
  {| voiceState := voiceState w; voiceEnabled := x;
     audioLevel := audioLevel w; error := error w; isClient := isClient w;
     settings := settings w; mediaRecorderRef := mediaRecorderRef w;
     audioContextRef := audioContextRef w; analyzerRef := analyzerRef w;
     audioElementRef := audioElementRef w; streamRef := streamRef w;
     animationFrameRef := animationFrameRef w;
     recordingStartTimeRef := recordingStartTimeRef w; streams := streams w;
     objectUrls := objectUrls w; nextUrl := nextUrl w;
     nextFrame := nextFrame w; net := net w |}.

Definition set_audioLevel (x : Q) (w : World) : World :=
  {| voiceState := voiceState w; voiceEnabled := voiceEnabled w;
     audioLevel := x; error := error w; isClient := isClient w;
     settings := settings w; mediaRecorderRef := mediaRecorderRef w;
     audioContextRef := audioContextRef w; analyzerRef := analyzerRef w;
     audioElementRef := audioElementRef w; streamRef := streamRef w;
     animationFrameRef := animationFrameRef w;
     recordingStartTimeRef := recordingStartTimeRef w; streams := streams w;
     objectUrls := objectUrls w; nextUrl := nextUrl w;
     nextFrame := nextFrame w; net := net w |}.

Definition set_error (x : option string) (w : World) : World :=
  {| voiceState := voiceState w; voiceEnabled := voiceEnabled w;
     audioLevel := audioLevel w; error := x; isClient := isClient w;
     settings := settings w; mediaRecorderRef := mediaRecorderRef w;
     audioContextRef := audioContextRef w; analyzerRef := analyzerRef w;
     audioElementRef := audioElementRef w; streamRef := streamRef w;
     animationFrameRef := animationFrameRef w;
     recordingStartTimeRef := recordingStartTimeRef w; streams := streams w;
     objectUrls := objectUrls w; nextUrl := nextUrl w;
     nextFrame := nextFrame w; net := net w |}.

Definition set_isClient (x : bool) (w : World) : World :=
  {| voiceState := voiceState w; voiceEnabled := voiceEnabled w;
     audioLevel := audioLevel w; error := error w; isClient := x;
     settings := settings w; mediaRecorderRef := mediaRecorderRef w;
     audioContextRef := audioContextRef w; analyzerRef := analyzerRef w;
     audioElementRef := audioElementRef w; streamRef := streamRef w;
     animationFrameRef := animationFrameRef w;
     recordingStartTimeRef := recordingStartTimeRef w; streams := streams w;
     objectUrls := objectUrls w; nextUrl := nextUrl w;
     nextFrame := nextFrame w; net := net w |}.

Definition set_settings (x : VoiceSettings) (w : World) : World :=
  {| voiceState := voiceState w; voiceEnabled := voiceEnabled w;
     audioLevel := audioLevel w; error := error w; isClient := isClient w;
     settings := x; mediaRecorderRef := mediaRecorderRef w;
     audioContextRef := audioContextRef w; analyzerRef := analyzerRef w;
     audioElementRef := audioElementRef w; streamRef := streamRef w;
     animationFrameRef := animationFrameRef w;
     recordingStartTimeRef := recordingStartTimeRef w; streams := streams w;
     objectUrls := objectUrls w; nextUrl := nextUrl w;
     nextFrame := nextFrame w; net := net w |}.

Definition set_mediaRecorderRef (x : option Recorder) (w : World) : World :=
  {| voiceState := voiceState w; voiceEnabled := voiceEnabled w;
     audioLevel := audioLevel w; error := error w; isClient := isClient w;
     settings := settings w; mediaRecorderRef := x;
     audioContextRef := audioContextRef w; analyzerRef := analyzerRef w;
     audioElementRef := audioElementRef w; streamRef := streamRef w;
     animationFrameRef := animationFrameRef w;
     recordingStartTimeRef := recordingStartTimeRef w; streams := streams w;
     objectUrls := objectUrls w; nextUrl := nextUrl w;
     nextFrame := nextFrame w; net := net w |}.

Definition set_audioContextRef (x : option AudioContext) (w : World) : World :=
  {| voiceState := voiceState w; voiceEnabled := voiceEnabled w;
     audioLevel := audioLevel w; error := error w; isClient := isClient w;
     settings := settings w; mediaRecorderRef := mediaRecorderRef w;
     audioContextRef := x; analyzerRef := analyzerRef w;
     audioElementRef := audioElementRef w; streamRef := streamRef w;
     animationFrameRef := animationFrameRef w;
     recordingStartTimeRef := recordingStartTimeRef w; streams := streams w;
     objectUrls := objectUrls w; nextUrl := nextUrl w;
     nextFrame := nextFrame w; net := net w |}.

Definition set_analyzerRef (x : option Analyser) (w : World) : World :=
  {| voiceState := voiceState w; voiceEnabled := voiceEnabled w;
     audioLevel := audioLevel w; error := error w; isClient := isClient w;
     settings := settings w; mediaRecorderRef := mediaRecorderRef w;
     audioContextRef := audioContextRef w; analyzerRef := x;
     audioElementRef := audioElementRef w; streamRef := streamRef w;
     animationFrameRef := animationFrameRef w;
     recordingStartTimeRef := recordingStartTimeRef w; streams := streams w;
     objectUrls := objectUrls w; nextUrl := nextUrl w;
     nextFrame := nextFrame w; net := net w |}.

Definition set_audioElementRef (x : option Audio) (w : World) : World :=
  {| voiceState := voiceState w; voiceEnabled := voiceEnabled w;
     audioLevel := audioLevel w; error := error w; isClient := isClient w;
     settings := settings w; mediaRecorderRef := mediaRecorderRef w;
     audioContextRef := audioContextRef w; analyzerRef := analyzerRef w;
     audioElementRef := x; streamRef := streamRef w;
     animationFrameRef := animationFrameRef w;
     recordingStartTimeRef := recordingStartTimeRef w; streams := streams w;
     objectUrls := objectUrls w; nextUrl := nextUrl w;
     nextFrame := nextFrame w; net := net w |}.

Definition set_streamRef (x : option nat) (w : World) : World :=
  {| voiceState := voiceState w; voiceEnabled := voiceEnabled w;
     audioLevel := audioLevel w; error := error w; isClient := isClient w;
     settings := settings w; mediaRecorderRef := mediaRecorderRef w;
     audioContextRef := audioContextRef w; analyzerRef := analyzerRef w;
     audioElementRef := audioElementRef w; streamRef := x;
     animationFrameRef := animationFrameRef w;
     recordingStartTimeRef := recordingStartTimeRef w; streams := streams w;
     objectUrls := objectUrls w; nextUrl := nextUrl w;
     nextFrame := nextFrame w; net := net w |}.

Definition set_animationFrameRef (x : option nat) (w : World) : World :=
  {| voiceState := voiceState w; voiceEnabled := voiceEnabled w;
     audioLevel := audioLevel w; error := error w; isClient := isClient w;
     settings := settings w; mediaRecorderRef := mediaRecorderRef w;
     audioContextRef := audioContextRef w; analyzerRef := analyzerRef w;
     audioElementRef := audioElementRef w; streamRef := streamRef w;
     animationFrameRef := x;
     recordingStartTimeRef := recordingStartTimeRef w; streams := streams w;
     objectUrls := objectUrls w; nextUrl := nextUrl w;
     nextFrame := nextFrame w; net := net w |}.

Definition set_recordingStartTimeRef (x : option Z) (w : World) : World :=
  {| voiceState := voiceState w; voiceEnabled := voiceEnabled w;
     audioLevel := audioLevel w; error := error w; isClient := isClient w;
     settings := settings w; mediaRecorderRef := mediaRecorderRef w;
     audioContextRef := audioContextRef w; analyzerRef := analyzerRef w;
     audioElementRef := audioElementRef w; streamRef := streamRef w;
     animationFrameRef := animationFrameRef w; recordingStartTimeRef := x;
     streams := streams w; objectUrls := objectUrls w; nextUrl := nextUrl w;
     nextFrame := nextFrame w; net := net w |}.

Definition set_streams (x : list (list bool)) (w : World) : World :=
  {| voiceState := voiceState w; voiceEnabled := voiceEnabled w;
     audioLevel := audioLevel w; error := error w; isClient := isClient w;
     settings := settings w; mediaRecorderRef := mediaRecorderRef w;
     audioContextRef := audioContextRef w; analyzerRef := analyzerRef w;
     audioElementRef := audioElementRef w; streamRef := streamRef w;
     animationFrameRef := animationFrameRef w;
     recordingStartTimeRef := recordingStartTimeRef w; streams := x;
     objectUrls := objectUrls w; nextUrl := nextUrl w;
     nextFrame := nextFrame w; net := net w |}.

Definition set_objectUrls (x : gset nat) (w : World) : World :=
  {| voiceState := voiceState w; voiceEnabled := voiceEnabled w;
     audioLevel := audioLevel w; error := error w; isClient := isClient w;
     settings := settings w; mediaRecorderRef := mediaRecorderRef w;
     audioContextRef := audioContextRef w; analyzerRef := analyzerRef w;
     audioElementRef := audioElementRef w; streamRef := streamRef w;
     animationFrameRef := animationFrameRef w;
     recordingStartTimeRef := recordingStartTimeRef w; streams := streams w;
     objectUrls := x; nextUrl := nextUrl w; nextFrame := nextFrame w;
     net := net w |}.

Definition set_nextUrl (x : nat) (w : World) : World :=
  {| voiceState := voiceState w; voiceEnabled := voiceEnabled w;
     audioLevel := audioLevel w; error := error w; isClient := isClient w;
     settings := settings w; mediaRecorderRef := mediaRecorderRef w;
     audioContextRef := audioContextRef w; analyzerRef := analyzerRef w;
     audioElementRef := audioElementRef w; streamRef := streamRef w;
     animationFrameRef := animationFrameRef w;
     recordingStartTimeRef := recordingStartTimeRef w; streams := streams w;
     objectUrls := objectUrls w; nextUrl := x; nextFrame := nextFrame w;
     net := net w |}.

Definition set_nextFrame (x : nat) (w : World) : World :=
  {| voiceState := voiceState w; voiceEnabled := voiceEnabled w;
     audioLevel := audioLevel w; error := error w; isClient := isClient w;
     settings := settings w; mediaRecorderRef := mediaRecorderRef w;
     audioContextRef := audioContextRef w; analyzerRef := analyzerRef w;
     audioElementRef := audioElementRef w; streamRef := streamRef w;
     animationFrameRef := animationFrameRef w;
     recordingStartTimeRef := recordingStartTimeRef w; streams := streams w;
     objectUrls := objectUrls w; nextUrl := nextUrl w; nextFrame := x;
     net := net w |}.

Definition set_net (x : Api.Net) (w : World) : World :=
  {| voiceState := voiceState w; voiceEnabled := voiceEnabled w;
     audioLevel := audioLevel w; error := error w; isClient := isClient w;
     settings := settings w; mediaRecorderRef := mediaRecorderRef w;
     audioContextRef := audioContextRef w; analyzerRef := analyzerRef w;
     audioElementRef := audioElementRef w; streamRef := streamRef w;
     animationFrameRef := animationFrameRef w;
     recordingStartTimeRef := recordingStartTimeRef w; streams := streams w;
     objectUrls := objectUrls w; nextUrl := nextUrl w;
     nextFrame := nextFrame w; net := x |}.

(** The hook after its mount effect ([setIsClient(true)]) in a fresh page. *)
Definition mounted : World :=
  {| voiceState := st_idle; voiceEnabled := false; audioLevel := 0;
     error := None; isClient := true; settings := initialSettings;
     mediaRecorderRef := None; audioContextRef := None; analyzerRef := None;
     audioElementRef := None; streamRef := None; animationFrameRef := None;
     recordingStartTimeRef := None;
     streams := []; objectUrls := ∅; nextUrl := 0; nextFrame := 1;
     net := {| Api.respond := fun _ _ => Api.FetchRejects; Api.sent := [] |} |}.

Definition setVoiceState (v : VoiceState) : Prog World unit :=
  modify (set_voiceState v).
Definition setError (e : option string) : Prog World unit :=
  modify (set_error e).
Definition setAudioLevel (q : Q) : Prog World unit :=
  modify (set_audioLevel q).

(** The microphone-in-use indicator: some stream still has a live track. *)
Definition microphoneBusy (w : World) : bool :=
  existsb (existsb id) (streams w).

(** [stream.getTracks().forEach(track => track.stop())] *)
Definition stopTracks (stream : nat) (w : World) : World :=
  set_streams (alter (fmap (fun _ => false)) stream (streams w)) w.

(** *** What the browser answers during one call *)

Inductive ContextOutcome :=
| ContextCreated          (* new AudioContext() succeeds *)
| ContextMissing          (* neither AudioContext nor webkitAudioContext *)
| ContextThrows.

Record StartEnv := {
  mediaDevices : bool;             (* navigator.mediaDevices is there *)
  audioContext : ContextOutcome;
  userMedia : option nat;          (* granted: the number of tracks *)
  importRecordRTC : bool;          (* await import('recordrtc') resolves *)
  recorderConstructs : bool;       (* new RecordRTC(stream, ...) returns *)
  now : Z;                         (* Date.now() *)
  seenVoiceState : VoiceState;     (* voiceState in monitorAudioLevel's closure *)
  frequency : list Z               (* getByteFrequencyData *)
}.

Definition initializeAudioContext (env : StartEnv) : Prog World unit :=
  tryCatch
    (w <- get ;;
     match audioContextRef w with
     | Some _ => ret tt
     | None =>
         match audioContext env with
         | ContextCreated =>
             modify (set_audioContextRef (Some {| closed := false |})) ;;
             modify (set_analyzerRef (Some {| fftSize := 256; inputs := [] |}))
         | ContextMissing => ret tt
         | ContextThrows => throw (Error "AudioContext")
         end
     end)
    (fun _ => setError (Some "Audio not supported in this browser")).

(** [dataArray.reduce((a, b) => a + b) / dataArray.length / 255] *)
Definition averageLevel (dataArray : list Z) : Q :=
  (inject_Z (foldr Z.add 0%Z dataArray)
     / inject_Z (Z.of_nat (length dataArray)) / 255)%Q.

(** [monitorAudioLevel()]: the first run of [updateLevel]. *)
Definition monitorAudioLevel (env : StartEnv) : Prog World unit :=
  w <- get ;;
  match analyzerRef w with
  | None => ret tt
  | Some _ =>
      match seenVoiceState env with
      | st_recording =>
          setAudioLevel (averageLevel (frequency env)) ;;
          modify (fun w => set_nextFrame (S (nextFrame w))
                             (set_animationFrameRef (Some (nextFrame w)) w))
      | _ => ret tt
      end
  end.

(** [await navigator.mediaDevices.getUserMedia({ audio: ... })] *)
Definition getUserMedia (env : StartEnv) : Prog World nat :=
  match userMedia env with
  | None => throw NotAllowedError
  | Some tracks =>
      w <- get ;;
      modify (set_streams (streams w ++ [replicate tracks true])) ;;
      ret (length (streams w))
  end.

(** [audioContextRef.current.createMediaStreamSource(stream).connect(analyzerRef.current)] *)
Definition connectAnalyzer (stream : nat) : Prog World unit :=
  w <- get ;;
  match audioContextRef w, analyzerRef w with
  | Some _, Some an =>
      modify (set_analyzerRef
                (Some {| fftSize := fftSize an; inputs := inputs an ++ [stream] |}))
  | _, _ => ret tt
  end.

Definition startRecording (env : StartEnv) : Prog World unit :=
  w <- get ;;
  if negb (isClient w) || negb (mediaDevices env) then
    setError (Some "Recording not supported in this environment")
  else
    tryCatch
      (setError None ;;
       setVoiceState st_recording ;;
       initializeAudioContext env ;;
       stream <- getUserMedia env ;;
       modify (set_streamRef (Some stream)) ;;
       connectAnalyzer stream ;;
       (if importRecordRTC env then ret tt else throw LoadError) ;;
       (if recorderConstructs env then ret tt else throw (Error "RecordRTC")) ;;
       modify (set_mediaRecorderRef
                 (Some {| recStream := stream; recRecording := true;
                          captured := None |})) ;;
       modify (set_recordingStartTimeRef (Some (now env))) ;;
       monitorAudioLevel env)
      (fun _ =>
         setError (Some "Microphone access denied or not available") ;;
         setVoiceState st_error).

Record VoiceData := { audioBlob : Api.Blob }.

(** [saveRecording(...)] on the hook's network. *)
Definition onNet {A} (c : Prog Api.Net A) : Prog World A :=
  zoom net set_net c.

(** [stopRecording] is created once ([useCallback(..., [])]), so the
    [settings] it reads are those of the first render. *)
Definition stopRecording (endTime : Z) : Prog World (option VoiceData) :=
  w <- get ;;
  match mediaRecorderRef w with
  | None => ret None
  | Some recorder =>
      setVoiceState st_processing ;;
      modify (set_mediaRecorderRef
                (Some {| recStream := recStream recorder; recRecording := false;
                         captured := captured recorder |})) ;;
      let blob := captured recorder in
      let duration :=
        match recordingStartTimeRef w with
        | Some t => if t =? 0 then None
                    else Some (inject_Z (endTime - t) / 1000)%Q
        | None => None
        end in
      (* Cleanup *)
      match streamRef w with
      | Some stream => modify (stopTracks stream) ;; modify (set_streamRef None)
      | None => ret tt
      end ;;
      match animationFrameRef w with
      | Some frame =>
          if (frame =? 0)%nat then ret tt else modify (set_animationFrameRef None)
      | None => ret tt
      end ;;
      modify (set_recordingStartTimeRef None) ;;
      setAudioLevel 0 ;;
      setVoiceState st_idle ;;
      match blob with
      | Some blob =>
          (if saveRecordings initialSettings then
             tryCatch
               (onNet (Api.saveRecording blob
                  {| Api.conversationId := conversationId initialSettings;
                     Api.md_userId := userId initialSettings;
                     Api.transcript := None;
                     Api.agentResponse := None;
                     Api.duration := duration;
                     Api.confidenceScore := None;
                     Api.language := Some "en-US" |}) ;; ret tt)
               (fun _ => ret tt)
           else ret tt) ;;
          ret (Some {| audioBlob := blob |})
      | None => ret None
      end
  end.

(** While a recorder records, the library appends to its buffer. *)
Definition capture (bytes : list Z) (w : World) : World :=
  match mediaRecorderRef w with
  | Some recorder =>
      if recRecording recorder then
        set_mediaRecorderRef
          (Some {| recStream := recStream recorder; recRecording := true;
                   captured :=
                     Some {| Api.blobBytes :=
                               match captured recorder with
                               | Some b => Api.blobBytes b ++ bytes
                               | None => bytes
                               end;
                             Api.blobType := "audio/webm" |} |}) w
      else w
  | None => w
  end.

(** *** Playback *)

Definition withAudio (f : Audio -> Audio) : Prog World unit :=
  modify (fun w => set_audioElementRef (f <$> audioElementRef w) w).

(** [audio.src = ...]: loading a new source resets the element. *)
Definition setSrc (s : AudioSrc) (a : Audio) : Audio :=
  {| src := s; a_volume := a_volume a; currentTime := 0; paused := true;
     onended := onended a; onerror := onerror a |}.

(** [URL.createObjectURL(audioData)] *)
Definition createObjectURL : Prog World nat :=
  w <- get ;;
  modify (fun w => set_nextUrl (S (nextUrl w))
                     (set_objectUrls ({[nextUrl w]} ∪ objectUrls w) w)) ;;
  ret (nextUrl w).

(** [URL.revokeObjectURL(audio.src)]: nothing happens for a URL that is
    not a registered object URL. *)
Definition revokeObjectURL (s : AudioSrc) : Prog World unit :=
  match s with
  | BlobUrl id => modify (fun w => set_objectUrls (objectUrls w ∖ {[id]}) w)
  | _ => ret tt
  end.

(** [audio.volume = v]: the setter throws outside of [0, 1]. *)
Definition setVolume (v : Q) : Prog World unit :=
  if Qle_bool 0 v && Qle_bool v 1 then
    withAudio (fun a =>
      {| src := src a; a_volume := v; currentTime := currentTime a;
         paused := paused a; onended := onended a; onerror := onerror a |})
  else throw (Error "IndexSizeError").

(** [await audio.play()] *)
Definition play (playResolves : bool) : Prog World unit :=
  if playResolves then
    withAudio (fun a =>
      {| src := src a; a_volume := a_volume a; currentTime := currentTime a;
         paused := false; onended := onended a; onerror := onerror a |})
  else throw NotAllowedError.

Definition playAudio (audioData : AudioData) (playResolves : bool)
    : Prog World unit :=
  w <- get ;;
  if negb (isClient w) then ret tt
  else
    tryCatch
      (setVoiceState st_playing ;;
       setError None ;;
       match audioElementRef w with
       | None => modify (set_audioElementRef (Some newAudio))
       | Some _ => ret tt
       end ;;
       match audioData with
       | Base64 s => withAudio (setSrc (DataUrl s))
       | BlobData _ => url <- createObjectURL ;; withAudio (setSrc (BlobUrl url))
       end ;;
       setVolume (inject_Z (volume (settings w)) / 100)%Q ;;
       withAudio (fun a =>
         {| src := src a; a_volume := a_volume a; currentTime := currentTime a;
            paused := paused a; onended := Some audioData; onerror := true |}) ;;
       play playResolves)
      (fun _ =>
         setError (Some "Audio playback failed") ;;
         setVoiceState st_error).

(** The element, while playing, reaches the end of its source: it pauses
    and runs [audio.onended]. *)
Definition ended : Prog World unit :=
  w <- get ;;
  match audioElementRef w with
  | None => ret tt
  | Some audio =>
      if paused audio then ret tt
      else
        withAudio (fun a =>
          {| src := src a; a_volume := a_volume a; currentTime := currentTime a;
             paused := true; onended := onended a; onerror := onerror a |}) ;;
        match onended audio with
        | None => ret tt
        | Some audioData =>
            setVoiceState st_idle ;;
            if isObject audioData then revokeObjectURL (src audio) else ret tt
        end
  end.

(** [audio.onerror] *)
Definition errored : Prog World unit :=
  w <- get ;;
  match audioElementRef w with
  | Some audio =>
      if onerror audio then
        setError (Some "Failed to play audio") ;; setVoiceState st_error
      else ret tt
  | None => ret tt
  end.

(** Playback advances by [dt] seconds while the element is not paused. *)
Definition advance (dt : Q) (w : World) : World :=
  set_audioElementRef
    ((fun a =>
        if paused a then a
        else {| src := src a; a_volume := a_volume a;
                currentTime := (currentTime a + dt)%Q;
                paused := false; onended := onended a; onerror := onerror a |})
       <$> audioElementRef w) w.

Definition stopPlayback : Prog World unit :=
  w <- get ;;
  match audioElementRef w with
  | Some _ =>
      withAudio (fun a =>
        {| src := src a; a_volume := a_volume a; currentTime := 0;
           paused := true; onended := onended a; onerror := onerror a |}) ;;
      setVoiceState st_idle
  | None => ret tt
  end.

Definition updateSettings (newSettings : PartialSettings) : Prog World unit :=
  modify (fun w => set_settings (merge (settings w) newSettings) w).

(** [toggleVoice]; speech recognition ([stopListening]) is outside of
    this model. *)
Definition toggleVoice (endTime : Z) : Prog World unit :=
  w <- get ;;
  modify (set_voiceEnabled (negb (voiceEnabled w))) ;;
  if voiceEnabled w then stopRecording endTime ;; stopPlayback
  else ret tt.

(** [isRecording: voiceState === 'recording'] *)
Definition isRecording (w : World) : bool :=
  match voiceState w with st_recording => true | _ => false end.

(** [isPlaying: voiceState === 'playing'] *)
Definition isPlaying (w : World) : bool :=
  match voiceState w with st_playing => true | _ => false end.

(** The final world and the result of a run. *)
Definition exec {A} (c : Prog World A) (w : World) : World := snd (c w).
Definition result {A} (c : Prog World A) (w : World) : Completion A := fst (c w).

End UseVoice.

(* ===================================================================== *)
(** ** VoiceMicrophone.tsx: the handlers that drive the hook *)
(* ===================================================================== *)

Module Microphone.
Import Js Async UseVoice.
Local Open Scope prog_scope.

(** The handlers read [isRecording], [voiceEnabled] and [settings] of the
    render they were created in; a handler runs here on the render of
    the current state.  Each handler returns the blobs it passed to
    [onAudioRecorded]. *)
Record Props := { disabled : bool; onAudioRecorded : bool }.

(** [if (voiceData && onAudioRecorded) onAudioRecorded(voiceData.audioBlob)] *)
Definition handOver (props : Props) (voiceData : option VoiceData)
    : list Api.Blob :=
  match voiceData with
  | Some d => if onAudioRecorded props then [audioBlob d] else []
  | None => []
  end.

Definition isPushToTalk (w : World) : bool :=
  match mode (settings w) with push_to_talk => true | _ => false end.

Definition handleMicrophoneClick (props : Props) (env : StartEnv)
    : Prog World (list Api.Blob) :=
  w <- get ;;
  if disabled props || negb (voiceEnabled w) then
    (if negb (voiceEnabled w) then toggleVoice (now env) else ret tt) ;;
    ret []
  else if isRecording w then
    voiceData <- stopRecording (now env) ;;
    ret (handOver props voiceData)
  else
    startRecording env ;; ret [].

Definition handleMouseDown (props : Props) (env : StartEnv)
    : Prog World (list Api.Blob) :=
  w <- get ;;
  if isPushToTalk w && negb (isRecording w) && voiceEnabled w
     && negb (disabled props)
  then startRecording env ;; ret []
  else ret [].

Definition handleMouseUp (props : Props) (env : StartEnv)
    : Prog World (list Api.Blob) :=
  w <- get ;;
  if isPushToTalk w && isRecording w then
    voiceData <- stopRecording (now env) ;;
    ret (handOver props voiceData)
  else ret [].

End Microphone.

(* ===================================================================== *)
(** ** VoicePlayback.tsx: the transport controls *)
(* ===================================================================== *)

Module Playback.
Import Js Async.
Local Open Scope prog_scope.

(** The [HTMLAudioElement] of [audioRef]. *)
Record Element := {
  blobSrc : option nat;       (* the object URL when src is a blob: URL *)
  el_paused : bool;
  el_currentTime : Q;
  el_volume : Q;
  el_muted : bool;
  el_playbackRate : Q
}.

Record State := {
  audioRef : option Element;
  internalPlaying : bool;
  duration : Q;
  currentTime : Q;
  volume : Z;
  isMuted : bool;
  isLoading : bool;
  error : option string;
  playbackRate : Q;
  objectUrls : gset nat;
  nextUrl : nat
}.

(** The optional props [onPlay], [onPause], [onStop]: whether given. *)
Record Props := { onPlay : bool; onPause : bool; onStop : bool }.

Inductive Notice := notifyPlay | notifyPause | notifyStop.

(** [cb?.()] *)
Definition notify (given : bool) (n : Notice) : list Notice :=
  if given then [n] else [].

Definition set_audioRef (x : option Element) (s : State) : State :=
  {| audioRef := x; internalPlaying := internalPlaying s;
     duration := duration s; currentTime := currentTime s; volume := volume s;
     isMuted := isMuted s; isLoading := isLoading s; error := error s;
     playbackRate := playbackRate s; objectUrls := objectUrls s;
     nextUrl := nextUrl s |}.

Definition setInternalPlaying (x : bool) (s : State) : State :=
  {| audioRef := audioRef s; internalPlaying := x;
     duration := duration s; currentTime := currentTime s; volume := volume s;
     isMuted := isMuted s; isLoading := isLoading s; error := error s;
     playbackRate := playbackRate s; objectUrls := objectUrls s;
     nextUrl := nextUrl s |}.

Definition setCurrentTime (x : Q) (s : State) : State :=
  {| audioRef := audioRef s; internalPlaying := internalPlaying s;
     duration := duration s; currentTime := x; volume := volume s;
     isMuted := isMuted s; isLoading := isLoading s; error := error s;
     playbackRate := playbackRate s; objectUrls := objectUrls s;
     nextUrl := nextUrl s |}.

Definition setVolume (x : Z) (s : State) : State :=
  {| audioRef := audioRef s; internalPlaying := internalPlaying s;
     duration := duration s; currentTime := currentTime s; volume := x;
     isMuted := isMuted s; isLoading := isLoading s; error := error s;
     playbackRate := playbackRate s; objectUrls := objectUrls s;
     nextUrl := nextUrl s |}.

Definition set_objectUrls (x : gset nat) (s : State) : State :=
  {| audioRef := audioRef s; internalPlaying := internalPlaying s;
     duration := duration s; currentTime := currentTime s; volume := volume s;
     isMuted := isMuted s; isLoading := isLoading s; error := error s;
     playbackRate := playbackRate s; objectUrls := x;
     nextUrl := nextUrl s |}.

(** [audio.pause()] as the platform defines it: on an element that is
    playing it sets [paused] and fires 'pause', whose listener here is
    [setInternalPlaying(false)]; on a paused element it does nothing. *)
Definition pause : Prog State unit :=
  s <- get ;;
  match audioRef s with
  | Some a =>
      if el_paused a then ret tt
      else
        modify (set_audioRef (Some
          {| blobSrc := blobSrc a; el_paused := true;
             el_currentTime := el_currentTime a; el_volume := el_volume a;
             el_muted := el_muted a; el_playbackRate := el_playbackRate a |})) ;;
        modify (setInternalPlaying false)
  | None => ret tt
  end.

(** [audio.play().catch(console.error)]: on success 'play' fires, whose
    listener is [setInternalPlaying(true)] (and the lazy audio graph). *)
Definition play (playResolves : bool) : Prog State unit :=
  s <- get ;;
  match audioRef s with
  | Some a =>
      if playResolves then
        modify (set_audioRef (Some
          {| blobSrc := blobSrc a; el_paused := false;
             el_currentTime := el_currentTime a; el_volume := el_volume a;
             el_muted := el_muted a; el_playbackRate := el_playbackRate a |})) ;;
        modify (setInternalPlaying true)
      else ret tt
  | None => ret tt
  end.

Definition handlePlay (props : Props) (playResolves : bool)
    : Prog State (list Notice) :=
  s <- get ;;
  match audioRef s with
  | None => ret []
  | Some _ => play playResolves ;; ret (notify (onPlay props) notifyPlay)
  end.

Definition handlePause (props : Props) : Prog State (list Notice) :=
  s <- get ;;
  match audioRef s with
  | None => ret []
  | Some _ => pause ;; ret (notify (onPause props) notifyPause)
  end.

Definition handleStop (props : Props) : Prog State (list Notice) :=
  s <- get ;;
  match audioRef s with
  | None => ret []
  | Some _ =>
      pause ;;
      modify (fun s => set_audioRef
        ((fun a => {| blobSrc := blobSrc a; el_paused := el_paused a;
                      el_currentTime := 0; el_volume := el_volume a;
                      el_muted := el_muted a;
                      el_playbackRate := el_playbackRate a |})
           <$> audioRef s) s) ;;
      modify (setCurrentTime 0) ;;
      ret (notify (onStop props) notifyStop)
  end.

(** [handleVolumeChange]: the element's volume follows at once. *)
Definition handleVolumeChange (newVolume : Z) : Prog State unit :=
  modify (setVolume newVolume) ;;
  s <- get ;;
  match audioRef s with
  | Some a =>
      let v := (inject_Z newVolume / 100)%Q in
      if Qle_bool 0 v && Qle_bool v 1 then
        modify (set_audioRef (Some
          {| blobSrc := blobSrc a; el_paused := el_paused a;
             el_currentTime := el_currentTime a; el_volume := v;
             el_muted := el_muted a; el_playbackRate := el_playbackRate a |}))
      else throw (Error "IndexSizeError")
  | None => ret tt
  end.

(** The cleanup of the effect that loads [audioData], run when the
    payload is replaced and on unmount. *)
Definition cleanup : Prog State unit :=
  s <- get ;;
  match audioRef s with
  | Some a =>
      match blobSrc a with
      | Some url => modify (set_objectUrls (objectUrls s ∖ {[url]}))
      | None => ret tt
      end ;;
      modify (set_audioRef None)
  | None => ret tt
  end.

(** Playback is paused: no element, or an element whose [paused] is set. *)
Definition enginePaused (s : State) : bool :=
  match audioRef s with
  | Some a => el_paused a
  | None => true
  end.

End Playback.

(* ===================================================================== *)
(** ** HybridVoiceAgent.tsx *)
(* ===================================================================== *)

Module Hybrid.
Import Js Async.
Local Open Scope prog_scope.

(** [interface VoiceState]; [currentAgent] and [conversationId] are
    assigned from the agent's JSON without a check, so they hold
    whatever value arrived. *)
Record VoiceState := {
  isRecording : bool;
  isProcessing : bool;
  isPlaying : bool;
  currentAgent : value;
  volume : Z;
  error : option string;
  conversationId : value
}.

(** The audio element of [audioElementRef]. *)
Record Audio := { src : json; a_volume : Q; a_paused : bool }.

(** The prop callbacks [onMessage?.], [onAgentChange?.], [onError?.],
    recorded when invoked. *)
Inductive Notice :=
| onMessage (agentData : json)
| onAgentChange (agent : value)
| onError (e : exn).

Record World := {
  state : VoiceState;
  audioElementRef : option Audio;
  net : Api.Net;
  notices : list Notice
}.

Definition setState (f : VoiceState -> VoiceState) : Prog World unit :=
  modify (fun w => {| state := f (state w); audioElementRef := audioElementRef w;
                      net := net w; notices := notices w |}).

Definition setAudio (a : option Audio) : Prog World unit :=
  modify (fun w => {| state := state w; audioElementRef := a;
                      net := net w; notices := notices w |}).

Definition emit (n : Notice) : Prog World unit :=
  modify (fun w => {| state := state w; audioElementRef := audioElementRef w;
                      net := net w; notices := notices w ++ [n] |}).

Definition onNet {A} (c : Prog Api.Net A) : Prog World A :=
  zoom net (fun n w => {| state := state w; audioElementRef := audioElementRef w;
                          net := n; notices := notices w |}) c.

(** [obj.k], throwing on [null]. *)
Definition prop {S} (k : string) (j : json) : Prog S value :=
  match getProp k j with
  | inl e => throw e
  | inr v => ret v
  end.

(** [a !== b]; two parsed objects are never the same object. *)
Definition strictNe (a b : value) : bool :=
  match a, b with
  | None, None => false
  | Some JNull, Some JNull => false
  | Some (JBool x), Some (JBool y) => negb (Bool.eqb x y)
  | Some (JNum x), Some (JNum y) => negb (Qeq_bool x y)
  | Some (JStr x), Some (JStr y) => negb (String.eqb x y)
  | _, _ => true
  end.

Definition optProp (k : string) (v : value) : list (string * json) :=
  match v with Some j => [(k, j)] | None => [] end.

(** [playAudioResponse]; no code assigns [state.volume] after the initial
    state, so the volume its closure saw is the one the state holds. *)
Definition playAudioResponse (audioBase64 : json) (playResolves : bool)
    : Prog World unit :=
  w <- get ;;
  tryCatch
    (setState (fun prev =>
       {| isRecording := isRecording prev; isProcessing := isProcessing prev;
          isPlaying := true; currentAgent := currentAgent prev;
          volume := volume prev; error := error prev;
          conversationId := conversationId prev |}) ;;
     let v := (inject_Z (volume (state w)) / 100)%Q in
     setAudio (Some {| src := audioBase64;
                       a_volume := match audioElementRef w with
                                   | Some a => a_volume a
                                   | None => 1
                                   end;
                       a_paused := true |}) ;;
     (if Qle_bool 0 v && Qle_bool v 1 then
        setAudio (Some {| src := audioBase64; a_volume := v; a_paused := true |})
      else throw (Error "IndexSizeError")) ;;
     (if playResolves then
        setAudio (Some {| src := audioBase64; a_volume := v; a_paused := false |})
      else throw NotAllowedError))
    (fun _ =>
       setState (fun prev =>
         {| isRecording := isRecording prev; isProcessing := isProcessing prev;
            isPlaying := false; currentAgent := currentAgent prev;
            volume := volume prev; error := Some "Audio playback failed";
            conversationId := conversationId prev |})).

Definition transcriptionRequest (audioBlob : Api.Blob) : Api.Request :=
  {| Api.method := "POST"; Api.path := "/speech-to-text"; Api.params := None;
     Api.body := Api.FormBody [("audio", Api.FBlob audioBlob "recording.wav")] |}.

Definition agentRequest (transcript : json) (conversationId : value)
    : Api.Request :=
  {| Api.method := "POST"; Api.path := "/voice/agent-chat"; Api.params := None;
     Api.body := Api.JsonBody (JObj (
       [("message", transcript)]
       ++ optProp "conversation_id" conversationId
       ++ [("user_id", JStr "voice_user");
           ("enable_voice", JBool true);
           ("enable_navigation", JBool true)])) |}.

(** [processVoiceMessage] is a closure: [state.conversationId] and
    [state.currentAgent] are the values of the render it was created in
    ([seenConversationId], [seenAgent]), while the updates it makes
    ([setState(prev => ...)]) apply to the state as it is.  The component
    only calls it from [mediaRecorder.onstop], which [startRecording]
    (deps [hasPermissions, requestMicrophonePermission]) captured. *)
Definition processVoiceMessage (seenConversationId seenAgent : value)
    (audioBlob : Api.Blob) (playResolves : bool) : Prog World unit :=
  tryCatch
    (transcriptionResponse <- onNet (Api.fetch (transcriptionRequest audioBlob)) ;;
     (if Api.ok transcriptionResponse then ret tt
      else throw (Error ("Transcription request failed: "
                         ++ pretty (Api.status transcriptionResponse)))) ;;
     transcriptionData <- await (Api.json_ transcriptionResponse) ;;
     transcript <- prop "transcript" transcriptionData ;;
     match transcript with
     | Some transcript =>
         if truthy transcript then
           agentResponse <-
             onNet (Api.fetch (agentRequest transcript seenConversationId)) ;;
           agentData <- await (Api.json_ agentResponse) ;;
           success <- prop "success" agentData ;;
           if truthyValue success then
             current_agent <- prop "current_agent" agentData ;;
             conversation_id <- prop "conversation_id" agentData ;;
             setState (fun prev =>
               {| isRecording := isRecording prev; isProcessing := false;
                  isPlaying := isPlaying prev; currentAgent := current_agent;
                  volume := volume prev; error := error prev;
                  conversationId := conversation_id |}) ;;
             emit (onMessage agentData) ;;
             when (strictNe current_agent seenAgent)
                  (emit (onAgentChange current_agent)) ;;
             audio_base64 <- prop "audio_base64" agentData ;;
             match audio_base64 with
             | Some a => when (truthy a) (playAudioResponse a playResolves)
             | None => ret tt
             end
           else
             message <- prop "message" agentData ;;
             throw (Error (match message with
                           | Some (JStr m) =>
                               if truthy (JStr m) then m
                               else "Failed to get agent response"
                           | _ => "Failed to get agent response"
                           end))
         else throw (Error "Failed to transcribe audio")
     | None => throw (Error "Failed to transcribe audio")
     end)
    (fun e =>
       setState (fun prev =>
         {| isRecording := isRecording prev; isProcessing := false;
            isPlaying := isPlaying prev; currentAgent := currentAgent prev;
            volume := volume prev; error := Some "Failed to process voice message";
            conversationId := conversationId prev |}) ;;
       emit (onError e)).

(** The requests sent to the agent endpoint. *)
Definition agentCalls (w : World) : list Api.Request :=
  filter (fun r => Api.path r = "/voice/agent-chat") (Api.sent (net w)).

End Hybrid.

(* ===================================================================== *)
(** ** Chat.tsx and page.tsx: the voice turn of the chat view *)
(* ===================================================================== *)

Module ChatView.
Import Js Async.
Local Open Scope prog_scope.

(** What the component calls on its parent. *)
Inductive Call :=
| onVoiceMessage (audioBlob : Api.Blob)
| onSendMessage (message : json) (enableVoice enableNavigation : bool).

Record World := { net : Api.Net; calls : list Call }.

Definition call (c : Call) : Prog World unit :=
  modify (fun w => {| net := net w; calls := calls w ++ [c] |}).

Definition onNet {A} (c : Prog Api.Net A) : Prog World A :=
  zoom net (fun n w => {| net := n; calls := calls w |}) c.

(** [response && response.transcript]: the transcript when both are
    truthy. *)
Definition usableTranscript (response : json) : option json :=
  if truthy response then
    match getProp "transcript" response with
    | inr (Some t) => if truthy t then Some t else None
    | _ => None
    end
  else None.

(** [hasOnVoiceMessage]: the optional prop is given;
    [voiceHookEnabled]: [voiceEnabled] of the component's hook. *)
Definition handleVoiceRecording (hasOnVoiceMessage voiceHookEnabled : bool)
    (audioBlob : Api.Blob) : Prog World unit :=
  if hasOnVoiceMessage then call (onVoiceMessage audioBlob)
  else
    tryCatch
      (response <- onNet (Api.uploadAudio audioBlob) ;;
       match usableTranscript response with
       | Some transcript => call (onSendMessage transcript voiceHookEnabled true)
       | None => ret tt
       end)
      (fun _ => ret tt).

End ChatView.

Module Home.
Import Js Async.
Local Open Scope prog_scope.

(** [handleSendMessage(content, options)], which appends the user
    message and posts it to /chat through [callChatAPI], is recorded as
    a call. *)
Inductive Call :=
| handleSendMessage (content : json) (enableVoice enableNavigation : bool).

Record World := { net : Api.Net; calls : list Call }.

Definition call (c : Call) : Prog World unit :=
  modify (fun w => {| net := net w; calls := calls w ++ [c] |}).

Definition onNet {A} (c : Prog Api.Net A) : Prog World A :=
  zoom net (fun n w => {| net := n; calls := calls w |}) c.

Definition handleVoiceUpload (audioBlob : Api.Blob) : Prog World unit :=
  tryCatch
    (speechResponse <- onNet (Api.uploadAudio audioBlob) ;;
     match ChatView.usableTranscript speechResponse with
     | Some transcript => call (handleSendMessage transcript true true)
     | None => ret tt        (* console.error('Failed to transcribe audio') *)
     end)
    (fun _ => ret tt).

End Home.

(* ===================================================================== *)
(** ** Concrete worlds used by the examples below *)
(* ===================================================================== *)

Module Scenario.
Import Js Async.

(** A server (or the rewrite proxy in front of it) that answers every
    request with status 200 and a body that is not JSON. *)
Definition unparsable : Api.Net :=
  {| Api.respond := fun _ _ =>
       Api.FetchResolves {| Api.status := 200; Api.payload := None |};
     Api.sent := [] |}.

(** A server that answers every request with [{ transcript: "" }]. *)
Definition silent : Api.Net :=
  {| Api.respond := fun _ _ =>
       Api.FetchResolves {| Api.status := 200;
                            Api.payload := Some (JObj [("transcript", JStr "")]) |};
     Api.sent := [] |}.

Definition clip : Api.Blob :=
  {| Api.blobBytes := [82; 73; 70; 70]; Api.blobType := "audio/webm" |}.

Definition reply : Api.Blob :=
  {| Api.blobBytes := [73; 68; 51]; Api.blobType := "audio/mpeg" |}.

Definition noMetadata : Api.RecordingMetadata :=
  {| Api.conversationId := None; Api.md_userId := None; Api.transcript := None;
     Api.agentResponse := None; Api.duration := None;
     Api.confidenceScore := None; Api.language := None |}.

Import UseVoice.

(** The microphone is granted (one audio track) and everything loads. *)
Definition granted : StartEnv :=
  {| mediaDevices := true; audioContext := ContextCreated;
     userMedia := Some 1%nat; importRecordRTC := true; recorderConstructs := true;
     now := 1700000000000; seenVoiceState := st_idle;
     frequency := [0; 255] |}.

(** The microphone is granted, then [import('recordrtc')] rejects. *)
Definition importFails : StartEnv :=
  {| mediaDevices := true; audioContext := ContextCreated;
     userMedia := Some 1%nat; importRecordRTC := false; recorderConstructs := true;
     now := 1700000000000; seenVoiceState := st_idle;
     frequency := [0; 255] |}.

(** A recording in progress with some audio captured. *)
Definition recordingWorld : World :=
  capture [1; 2; 3] (exec (startRecording granted) mounted).

Definition volumeTo (v : Z) : PartialSettings :=
  {| p_mode := None; p_volume := Some v; p_enableVoiceActivity := None;
     p_selectedVoice := None; p_autoPlayResponses := None;
     p_noiseSuppressionLevel := None; p_saveRecordings := None;
     p_userId := None; p_conversationId := None |}.

(** A synthesized response, played at the initial volume (80) for a
    second and a half. *)
Definition playingWorld : World :=
  advance (3 # 2) (exec (playAudio (Base64 "SUQz") true) mounted).

(** A captured clip is played, a second one replaces it, and the second
    one plays to its end. *)
Definition firstClip : World := exec (playAudio (BlobData clip) true) mounted.
Definition replaced : World := exec (playAudio (BlobData reply) true) firstClip.
Definition replacedEnded : World := exec ended replaced.

(** The microphone was granted and the recorder then failed to load. *)
Definition failedStart : World := exec (startRecording importFails) mounted.

(** A loaded response, paused half a second in. *)
Definition pausedPlayback : Playback.State :=
  {| Playback.audioRef :=
       Some {| Playback.blobSrc := None; Playback.el_paused := true;
               Playback.el_currentTime := 1 # 2; Playback.el_volume := 8 # 10;
               Playback.el_muted := false; Playback.el_playbackRate := 1 |};
     Playback.internalPlaying := false;
     Playback.duration := 3; Playback.currentTime := 1 # 2;
     Playback.volume := 80; Playback.isMuted := false;
     Playback.isLoading := false; Playback.error := None;
     Playback.playbackRate := 1;
     Playback.objectUrls := ∅; Playback.nextUrl := 0 |}.

Definition allProps : Playback.Props :=
  {| Playback.onPlay := true; Playback.onPause := true; Playback.onStop := true |}.

(** The hybrid agent after a recording was stopped: [stopRecording] has
    set [isProcessing]. *)
Definition hybridProcessing : Hybrid.World :=
  {| Hybrid.state :=
       {| Hybrid.isRecording := false; Hybrid.isProcessing := true;
          Hybrid.isPlaying := false;
          Hybrid.currentAgent := Some (JStr "Triage Agent");
          Hybrid.volume := 80; Hybrid.error := None;
          Hybrid.conversationId := Some JNull |};
     Hybrid.audioElementRef := None;
     Hybrid.net := silent;
     Hybrid.notices := [] |}.

Definition chatSilent : ChatView.World :=
  {| ChatView.net := silent; ChatView.calls := [] |}.

Definition homeSilent : Home.World :=
  {| Home.net := silent; Home.calls := [] |}.

End Scenario.

(* ===================================================================== *)
(** ** VoiceWaveform.tsx: the geometry of a frame *)
(* ===================================================================== *)

Module WaveformGeometry.
Import Waveform.

(** [frequencyData[dataIndex] / 255] *)
Definition binAmplitude (value : Z) : Q := (inject_Z value / 255)%Q.

(** The amplitude of bar [i] when frequency data is given; [None] is the
    NaN that [undefined / 255] gives. *)
Definition amplitudeAt (fd : list Z) (i count : Z) : option Q :=
  binAmplitude <$> readBin fd (dataIndex (Some fd) i count).

(** 'circle': [const barHeight = (amplitude * 30) + 5;] *)
Definition circleBarHeight (amplitude : Q) : Q := (amplitude * 30 + 5)%Q.

(** 'bars': [const barWidth = width / barCount - 2;] *)
Definition barWidth (width barCount : Z) : Q :=
  (inject_Z width / inject_Z barCount - 2)%Q.

(** [const barHeight = amplitude * height * 0.8;] *)
Definition barHeight (amplitude : Q) (height : Z) : Q :=
  (amplitude * inject_Z height * (8 # 10))%Q.

(** [const x = i * (barWidth + 2);] *)
Definition barX (i width barCount : Z) : Q :=
  (inject_Z i * (barWidth width barCount + 2))%Q.

(** [const y = height - barHeight;] *)
Definition barY (amplitude : Q) (height : Z) : Q :=
  (inject_Z height - barHeight amplitude height)%Q.

(** 'line': [const centerY = height / 2;] *)
Definition centerY (height : Z) : Q := (inject_Z height / 2)%Q.

(** [const y = centerY + (amplitude - 0.5) * height * 0.6;] *)
Definition lineY (amplitude : Q) (height : Z) : Q :=
  (centerY height + (amplitude - (1 # 2)) * inject_Z height * (6 # 10))%Q.

(** [const step = width / points; const x = i * step;] *)
Definition lineX (i width : Z) : Q :=
  (inject_Z i * (inject_Z width / inject_Z points))%Q.

End WaveformGeometry.

(* ===================================================================== *)
(** ** formatTime (VoicePlayback.tsx) and formatDuration
       (RecordingsManager.tsx) *)
(* ===================================================================== *)

Module TimeFormat.

(** Rounding toward zero, as in the definition of [%]. *)
Definition trunc (q : Q) : Z :=
  if Qle_bool 0 q then Qfloor q else Qceiling q.

(** [a % b] on numbers: the remainder has the sign of [a]. *)
Definition rem (a b : Q) : Q := (a - b * inject_Z (trunc (a / b)))%Q.

(** [Math.floor(time / 60)] *)
Definition minutesOf (time : Q) : Z := Qfloor (time / 60).

(** [Math.floor(time % 60)] *)
Definition secondsOf (time : Q) : Z := Qfloor (rem time 60).

(** [s.padStart(2, '0')] *)
Definition padStart2 (s : string) : string :=
  match String.length s with
  | 0%nat => "00"
  | 1%nat => "0" +:+ s
  | _ => s
  end.

(** [`${minutes}:${seconds.toString().padStart(2, '0')}`] *)
Definition formatTime (time : Q) : string :=
  pretty (minutesOf time) +:+ ":" +:+ padStart2 (pretty (secondsOf time)).

(** [formatDuration(seconds?: number)]: [if (!seconds) return '--:--';] *)
Definition formatDuration (seconds : option Q) : string :=
  match seconds with
  | Some q => if Qeq_bool q 0 then "--:--" else formatTime q
  | None => "--:--"
  end.

End TimeFormat.

(* ===================================================================== *)
(** ** RecordingsManager.tsx *)
(* ===================================================================== *)

Module Recordings.
Import Js Async.
Local Open Scope prog_scope.

Definition recordingsPerPage : Z := 10.

(** [Array.prototype.slice(start, end)], with its treatment of negative
    and of too large indices. *)
Definition slice {A} (l : list A) (start end_ : Z) : list A :=
  let len := Z.of_nat (length l) in
  let k := if start <? 0 then Z.max (len + start) 0 else Z.min start len in
  let final := if end_ <? 0 then Z.max (len + end_) 0 else Z.min end_ len in
  take (Z.to_nat (final - k)) (drop (Z.to_nat k) l).

(** [filteredRecordings.slice((currentPage - 1) * recordingsPerPage,
                              currentPage * recordingsPerPage)] *)
Definition paginatedRecordings {A} (filteredRecordings : list A)
    (currentPage : Z) : list A :=
  slice filteredRecordings ((currentPage - 1) * recordingsPerPage)
                           (currentPage * recordingsPerPage).

(** [Math.ceil(data.length / recordingsPerPage)] *)
Definition pagesFor (length : Z) : Z :=
  Qceiling (inject_Z length / inject_Z recordingsPerPage).

(** The page buttons: [setCurrentPage(Math.max(1, currentPage - 1))] and
    [setCurrentPage(Math.min(totalPages, currentPage + 1))]. *)
Definition previousPage (currentPage : Z) : Z := Z.max 1 (currentPage - 1).
Definition nextPage (totalPages currentPage : Z) : Z :=
  Z.min totalPages (currentPage + 1).

(** The state of the component that [loadRecordings] touches, and the
    network. *)
Record World := {
  recordings : list json;
  loading : bool;
  error : option string;
  currentPage : Z;
  totalPages : Z;
  net : Api.Net
}.

Definition setRecordings (x : list json) (w : World) : World :=
  {| recordings := x; loading := loading w; error := error w;
     currentPage := currentPage w; totalPages := totalPages w; net := net w |}.

Definition setLoading (x : bool) (w : World) : World :=
  {| recordings := recordings w; loading := x; error := error w;
     currentPage := currentPage w; totalPages := totalPages w; net := net w |}.

Definition setError (x : option string) (w : World) : World :=
  {| recordings := recordings w; loading := loading w; error := x;
     currentPage := currentPage w; totalPages := totalPages w; net := net w |}.

Definition setTotalPages (x : Z) (w : World) : World :=
  {| recordings := recordings w; loading := loading w; error := error w;
     currentPage := currentPage w; totalPages := x; net := net w |}.

Definition set_net (x : Api.Net) (w : World) : World :=
  {| recordings := recordings w; loading := loading w; error := error w;
     currentPage := currentPage w; totalPages := totalPages w; net := x |}.

Definition onNet {A} (c : Prog Api.Net A) : Prog World A :=
  zoom net set_net c.

(** [loadRecordings]; the [finally] block runs after the [try] and after
    the [catch], neither of which leaves the function another way. *)
Definition loadRecordings (isOpen : bool) (conversationId userId : option string)
    : Prog World unit :=
  if negb isOpen then ret tt
  else
    modify (setLoading true) ;;
    modify (setError None) ;;
    tryCatch
      (data <- onNet (Api.listRecordings conversationId userId (Some 100%Q)) ;;
       match data with
       | JArr items =>
           modify (setRecordings items) ;;
           modify (setTotalPages (pagesFor (Z.of_nat (length items))))
       | _ => modify (setRecordings [])
       end)
      (fun _ => modify (setError (Some "Failed to load recordings"))) ;;
    modify (setLoading false).

End Recordings.

(* ===================================================================== *)
(** ** VoicePlayback.tsx: loading a payload and the remaining controls *)
(* ===================================================================== *)

Module PlaybackMore.
Import Js Async Playback.
Local Open Scope prog_scope.

Definition setIsLoading (x : bool) (s : State) : State :=
  {| audioRef := audioRef s; internalPlaying := internalPlaying s;
     duration := duration s; currentTime := currentTime s;
     volume := volume s; isMuted := isMuted s; isLoading := x;
     error := error s; playbackRate := playbackRate s;
     objectUrls := objectUrls s; nextUrl := nextUrl s |}.

Definition setError (x : option string) (s : State) : State :=
  {| audioRef := audioRef s; internalPlaying := internalPlaying s;
     duration := duration s; currentTime := currentTime s;
     volume := volume s; isMuted := isMuted s; isLoading := isLoading s;
     error := x; playbackRate := playbackRate s; objectUrls := objectUrls s;
     nextUrl := nextUrl s |}.

Definition setDuration (x : Q) (s : State) : State :=
  {| audioRef := audioRef s; internalPlaying := internalPlaying s;
     duration := x; currentTime := currentTime s; volume := volume s;
     isMuted := isMuted s; isLoading := isLoading s; error := error s;
     playbackRate := playbackRate s; objectUrls := objectUrls s;
     nextUrl := nextUrl s |}.

Definition setIsMuted (x : bool) (s : State) : State :=
  {| audioRef := audioRef s; internalPlaying := internalPlaying s;
     duration := duration s; currentTime := currentTime s;
     volume := volume s; isMuted := x; isLoading := isLoading s;
     error := error s; playbackRate := playbackRate s;
     objectUrls := objectUrls s; nextUrl := nextUrl s |}.

Definition setPlaybackRate (x : Q) (s : State) : State :=
  {| audioRef := audioRef s; internalPlaying := internalPlaying s;
     duration := duration s; currentTime := currentTime s;
     volume := volume s; isMuted := isMuted s; isLoading := isLoading s;
     error := error s; playbackRate := x; objectUrls := objectUrls s;
     nextUrl := nextUrl s |}.

Definition set_nextUrl (x : nat) (s : State) : State :=
  {| audioRef := audioRef s; internalPlaying := internalPlaying s;
     duration := duration s; currentTime := currentTime s;
     volume := volume s; isMuted := isMuted s; isLoading := isLoading s;
     error := error s; playbackRate := playbackRate s;
     objectUrls := objectUrls s; nextUrl := x |}.

(** [new Audio()] *)
Definition newElement : Element :=
  {| blobSrc := None; el_paused := true; el_currentTime := 0; el_volume := 1;
     el_muted := false; el_playbackRate := 1 |}.

Definition withElement (f : Element -> Element) : Prog State unit :=
  modify (fun s => set_audioRef (f <$> audioRef s) s).

(** [URL.createObjectURL(audioData)] *)
Definition createObjectURL : Prog State nat :=
  s <- get ;;
  modify (fun s => set_nextUrl (S (nextUrl s))
                     (set_objectUrls ({[nextUrl s]} ∪ objectUrls s) s)) ;;
  ret (nextUrl s).

(** [!audioData]: no payload, or the empty string. *)
Definition noPayload (audioData : option UseVoice.AudioData) : bool :=
  match audioData with
  | None => true
  | Some (UseVoice.Base64 b) => String.eqb b ""
  | Some (UseVoice.BlobData _) => false
  end.

(** The effect that runs when [audioData] (or [autoPlay]) changes; the
    volume, rate and mute flag are those of the render it runs in. *)
Definition load (audioData : option UseVoice.AudioData)
    (autoPlay playResolves : bool) : Prog State unit :=
  if noPayload audioData then ret tt
  else
    modify (setIsLoading true) ;;
    modify (setError None) ;;
    s <- get ;;
    modify (set_audioRef (Some newElement)) ;;
    match audioData with
    | Some (UseVoice.BlobData _) =>
        url <- createObjectURL ;;
        withElement (fun a =>
          {| blobSrc := Some url; el_paused := el_paused a;
             el_currentTime := el_currentTime a; el_volume := el_volume a;
             el_muted := el_muted a; el_playbackRate := el_playbackRate a |})
    | _ => ret tt
    end ;;
    (let v := (inject_Z (volume s) / 100)%Q in
     if Qle_bool 0 v && Qle_bool v 1 then
       withElement (fun a =>
         {| blobSrc := blobSrc a; el_paused := el_paused a;
            el_currentTime := el_currentTime a; el_volume := v;
            el_muted := el_muted a; el_playbackRate := el_playbackRate a |})
     else throw (Error "IndexSizeError")) ;;
    withElement (fun a =>
      {| blobSrc := blobSrc a; el_paused := el_paused a;
         el_currentTime := el_currentTime a; el_volume := el_volume a;
         el_muted := isMuted s; el_playbackRate := playbackRate s |}) ;;
    if autoPlay then play playResolves else ret tt.

(** The 'loadedmetadata' listener. *)
Definition loadedmetadata (audioDuration : Q) : Prog State unit :=
  modify (setDuration audioDuration) ;; modify (setIsLoading false).

(** The 'timeupdate' listener. *)
Definition timeupdate : Prog State unit :=
  s <- get ;;
  match audioRef s with
  | Some a => modify (setCurrentTime (el_currentTime a))
  | None => ret tt
  end.

(** The element, while playing, reaches its end: it pauses, and the
    'ended' listener resets the component. *)
Definition ended (props : Props) : Prog State (list Notice) :=
  s <- get ;;
  match audioRef s with
  | Some a =>
      if el_paused a then ret []
      else
        pause ;;
        modify (setInternalPlaying false) ;;
        modify (setCurrentTime 0) ;;
        ret (notify (onStop props) notifyStop)
  | None => ret []
  end.

(** [toggleMute] *)
Definition toggleMute : Prog State unit :=
  s <- get ;;
  modify (setIsMuted (negb (isMuted s))) ;;
  withElement (fun a =>
    {| blobSrc := blobSrc a; el_paused := el_paused a;
       el_currentTime := el_currentTime a; el_volume := el_volume a;
       el_muted := negb (isMuted s); el_playbackRate := el_playbackRate a |}).

(** [handlePlaybackRateChange] *)
Definition handlePlaybackRateChange (rate : Q) : Prog State unit :=
  modify (setPlaybackRate rate) ;;
  withElement (fun a =>
    {| blobSrc := blobSrc a; el_paused := el_paused a;
       el_currentTime := el_currentTime a; el_volume := el_volume a;
       el_muted := el_muted a; el_playbackRate := rate |}).

(** [handleDownload]: for a blob an object URL is made for the link and
    revoked after the click. *)
Definition handleDownload (audioData : UseVoice.AudioData) : Prog State unit :=
  match audioData with
  | UseVoice.Base64 _ => ret tt
  | UseVoice.BlobData _ =>
      url <- createObjectURL ;;
      modify (fun s => set_objectUrls (objectUrls s ∖ {[url]}) s)
  end.

(** The element mirrors the volume, mute flag and rate of the component. *)
Definition mirrors (s : State) : Prop :=
  match audioRef s with
  | Some a =>
      el_volume a = (inject_Z (volume s) / 100)%Q /\
      el_muted a = isMuted s /\
      el_playbackRate a = playbackRate s
  | None => True
  end.

End PlaybackMore.

(* ===================================================================== *)
(** ** HybridVoiceAgent.tsx: capture *)
(* ===================================================================== *)

Module HybridCapture.
Import Js Async.
Local Open Scope prog_scope.

(** The [MediaRecorder]: the stream it records (by position in
    [streams]), the [mimeType] it reports and whether it is recording. *)
Record MediaRecorder := {
  mr_stream : nat;
  mimeType : string;
  active : bool
}.

Record World := {
  voice : Hybrid.World;
  hasPermissions : bool;
  streams : list (list bool);
  mediaRecorderRef : option MediaRecorder;
  audioChunksRef : list Api.Blob
}.

Definition set_voice (x : Hybrid.World) (w : World) : World :=
  {| voice := x; hasPermissions := hasPermissions w; streams := streams w;
     mediaRecorderRef := mediaRecorderRef w;
     audioChunksRef := audioChunksRef w |}.

Definition setHasPermissions (x : bool) (w : World) : World :=
  {| voice := voice w; hasPermissions := x; streams := streams w;
     mediaRecorderRef := mediaRecorderRef w;
     audioChunksRef := audioChunksRef w |}.

Definition set_streams (x : list (list bool)) (w : World) : World :=
  {| voice := voice w; hasPermissions := hasPermissions w; streams := x;
     mediaRecorderRef := mediaRecorderRef w;
     audioChunksRef := audioChunksRef w |}.

Definition set_mediaRecorderRef (x : option MediaRecorder) (w : World) : World :=
  {| voice := voice w; hasPermissions := hasPermissions w;
     streams := streams w; mediaRecorderRef := x;
     audioChunksRef := audioChunksRef w |}.

Definition set_audioChunksRef (x : list Api.Blob) (w : World) : World :=
  {| voice := voice w; hasPermissions := hasPermissions w;
     streams := streams w; mediaRecorderRef := mediaRecorderRef w;
     audioChunksRef := x |}.

Definition setState (f : Hybrid.VoiceState -> Hybrid.VoiceState)
    : Prog World unit :=
  zoom voice set_voice (Hybrid.setState f).

Definition microphoneBusy (w : World) : bool :=
  existsb (existsb id) (streams w).

(** [await navigator.mediaDevices.getUserMedia({ audio: true })]:
    [Some n] grants a stream of [n] tracks. *)
Definition getUserMedia (answer : option nat) : Prog World nat :=
  match answer with
  | None => throw NotAllowedError
  | Some tracks =>
      w <- get ;;
      modify (set_streams (streams w ++ [replicate tracks true])) ;;
      ret (length (streams w))
  end.

(** [requestMicrophonePermission]; the stream it is granted is dropped. *)
Definition requestMicrophonePermission (answer : option nat) : Prog World bool :=
  tryCatch
    (getUserMedia answer ;;
     modify (setHasPermissions true) ;;
     setState (fun prev =>
       {| Hybrid.isRecording := Hybrid.isRecording prev;
          Hybrid.isProcessing := Hybrid.isProcessing prev;
          Hybrid.isPlaying := Hybrid.isPlaying prev;
          Hybrid.currentAgent := Hybrid.currentAgent prev;
          Hybrid.volume := Hybrid.volume prev; Hybrid.error := None;
          Hybrid.conversationId := Hybrid.conversationId prev |}) ;;
     ret true)
    (fun _ =>
       setState (fun prev =>
         {| Hybrid.isRecording := Hybrid.isRecording prev;
            Hybrid.isProcessing := Hybrid.isProcessing prev;
            Hybrid.isPlaying := Hybrid.isPlaying prev;
            Hybrid.currentAgent := Hybrid.currentAgent prev;
            Hybrid.volume := Hybrid.volume prev;
            Hybrid.error := Some "Microphone access required for voice conversation";
            Hybrid.conversationId := Hybrid.conversationId prev |}) ;;
       modify (setHasPermissions false) ;;
       ret false).

(** What the browser answers during [startRecording]. *)
Record StartEnv := {
  probe : option nat;          (* getUserMedia of requestMicrophonePermission *)
  userMedia : option nat;      (* getUserMedia of the recording *)
  supportsWebm : bool;         (* MediaRecorder.isTypeSupported('audio/webm') *)
  supportsMp4 : bool;          (* MediaRecorder.isTypeSupported('audio/mp4') *)
  recorderConstructs : bool;   (* new MediaRecorder(stream, ...) returns *)
  defaultMime : string         (* mediaRecorder.mimeType without an option *)
}.

(** The [mimeType] that [startRecording] settles on. *)
Definition chosenMime (env : StartEnv) : string :=
  if supportsWebm env then "audio/webm"
  else if supportsMp4 env then "audio/mp4"
  else "".

Definition startRecording (env : StartEnv) : Prog World unit :=
  w <- get ;;
  granted <- (if hasPermissions w then ret true
              else requestMicrophonePermission (probe env)) ;;
  if negb granted then ret tt
  else
    tryCatch
      (setState (fun prev =>
         {| Hybrid.isRecording := true;
            Hybrid.isProcessing := Hybrid.isProcessing prev;
            Hybrid.isPlaying := Hybrid.isPlaying prev;
            Hybrid.currentAgent := Hybrid.currentAgent prev;
            Hybrid.volume := Hybrid.volume prev; Hybrid.error := None;
            Hybrid.conversationId := Hybrid.conversationId prev |}) ;;
       stream <- getUserMedia (userMedia env) ;;
       (if recorderConstructs env then ret tt
        else throw (Error "NotSupportedError")) ;;
       modify (set_mediaRecorderRef
                 (Some {| mr_stream := stream;
                          mimeType := if String.eqb (chosenMime env) ""
                                      then defaultMime env else chosenMime env;
                          active := false |})) ;;
       modify (set_audioChunksRef []) ;;
       (* mediaRecorder.start() *)
       modify (fun w => set_mediaRecorderRef
                 ((fun mr => {| mr_stream := mr_stream mr; mimeType := mimeType mr;
                                active := true |}) <$> mediaRecorderRef w) w))
      (fun _ =>
         setState (fun prev =>
           {| Hybrid.isRecording := false;
              Hybrid.isProcessing := Hybrid.isProcessing prev;
              Hybrid.isPlaying := Hybrid.isPlaying prev;
              Hybrid.currentAgent := Hybrid.currentAgent prev;
              Hybrid.volume := Hybrid.volume prev;
              Hybrid.error := Some "Failed to start recording";
              Hybrid.conversationId := Hybrid.conversationId prev |})).

(** [new Blob(audioChunksRef.current, { type })] *)
Definition joinChunks (chunks : list Api.Blob) (type : string) : Api.Blob :=
  {| Api.blobBytes := concat (Api.blobBytes <$> chunks); Api.blobType := type |}.

(** What happens while [stopRecording] runs: the data the recorder hands
    to 'dataavailable', whether [play()] resolves, and the state that the
    [processVoiceMessage] closure of [onstop] saw. *)
Record StopEnv := {
  recorded : Api.Blob;
  playResolves : bool;
  seenConversationId : value;
  seenAgent : value
}.

(** [mediaRecorder.ondataavailable] *)
Definition ondataavailable (data : Api.Blob) : Prog World unit :=
  match Api.blobBytes data with
  | [] => ret tt
  | _ => modify (fun w => set_audioChunksRef (audioChunksRef w ++ [data]) w)
  end.

(** [mediaRecorder.onstop] *)
Definition onstop (recorder : MediaRecorder) (env : StopEnv) : Prog World unit :=
  w <- get ;;
  let audioBlob :=
    joinChunks (audioChunksRef w)
      (if String.eqb (mimeType recorder) "" then "audio/webm"
       else mimeType recorder) in
  zoom voice set_voice
    (Hybrid.processVoiceMessage (seenConversationId env) (seenAgent env)
       audioBlob (playResolves env)) ;;
  modify (fun w => set_streams
            (alter (fmap (fun _ => false)) (mr_stream recorder) (streams w)) w).

(** [stopRecording]; [mediaRecorder.stop()] on a recorder that records
    delivers the data and then fires 'stop', on an inactive one it throws. *)
Definition stopRecording (env : StopEnv) : Prog World unit :=
  w <- get ;;
  match mediaRecorderRef w with
  | Some recorder =>
      if Hybrid.isRecording (Hybrid.state (voice w)) then
        setState (fun prev =>
          {| Hybrid.isRecording := false; Hybrid.isProcessing := true;
             Hybrid.isPlaying := Hybrid.isPlaying prev;
             Hybrid.currentAgent := Hybrid.currentAgent prev;
             Hybrid.volume := Hybrid.volume prev;
             Hybrid.error := Hybrid.error prev;
             Hybrid.conversationId := Hybrid.conversationId prev |}) ;;
        if active recorder then
          modify (set_mediaRecorderRef
                    (Some {| mr_stream := mr_stream recorder;
                             mimeType := mimeType recorder; active := false |})) ;;
          ondataavailable (recorded env) ;;
          onstop recorder env
        else throw (Error "InvalidStateError")
      else ret tt
  | None => ret tt
  end.

(** The component after mount, before the permission probe of its mount
    effect has run. *)
Definition mounted (n : Api.Net) : World :=
  {| voice :=
       {| Hybrid.state :=
            {| Hybrid.isRecording := false; Hybrid.isProcessing := false;
               Hybrid.isPlaying := false;
               Hybrid.currentAgent := Some (JStr "Triage Agent");
               Hybrid.volume := 80; Hybrid.error := None;
               Hybrid.conversationId := Some JNull |};
          Hybrid.audioElementRef := None;
          Hybrid.net := n;
          Hybrid.notices := [] |};
     hasPermissions := false;
     streams := [];
     mediaRecorderRef := None;
     audioChunksRef := [] |}.

End HybridCapture.

(* ===================================================================== *)
(** ** Chat.tsx: the auto-play effect *)
(* ===================================================================== *)

Module ChatAutoPlay.
Import Js Async UseVoice.
Local Open Scope prog_scope.

(** The fields of [Message] that the effect reads:
    [role: "user" | "assistant"] and [audioData?: string | null]. *)
Inductive Role := user | assistant.

Record Message := { role : Role; audioData : option string }.

(** The body of the effect 'Auto-play voice responses';
    [latestMessage] is [messages[messages.length - 1]], tested for
    truthiness first, and [playAudio] is called without [await]. *)
Definition autoPlayEffect (messages : list Message) (playResolves : bool)
    : Prog World unit :=
  w <- get ;;
  match last messages with
  | Some latestMessage =>
      match role latestMessage, audioData latestMessage with
      | assistant, Some data =>
          if truthyStr (Some data) && autoPlayResponses (settings w)
             && voiceEnabled w
          then playAudio (Base64 data) playResolves
          else ret tt
      | _, _ => ret tt
      end
  | None => ret tt
  end.

(** [onSettingsChange={updateSettings}] and the render that follows.
    The effect runs again when one of its dependencies
    [[messages, settings.autoPlayResponses, voiceHookEnabled, playAudio]]
    has changed; of these [updateSettings] can change
    [settings.autoPlayResponses] and [playAudio], which (deps
    [[isClient, settings.volume]]) is a new function exactly when the
    volume setting is a new number. *)
Definition onSettingsChange (newSettings : PartialSettings)
    (messages : list Message) (playResolves : bool) : Prog World unit :=
  w <- get ;;
  updateSettings newSettings ;;
  w' <- get ;;
  if (volume (settings w') =? volume (settings w))
     && Bool.eqb (autoPlayResponses (settings w'))
                 (autoPlayResponses (settings w))
  then ret tt
  else autoPlayEffect messages playResolves.

End ChatAutoPlay.

(* ===================================================================== *)
(** ** Further concrete worlds and notions used in the statements *)
(* ===================================================================== *)

Module Cases.
Import Js Async.

(** No server: every fetch rejects. *)
Definition offline : Api.Net :=
  {| Api.respond := fun _ _ => Api.FetchRejects; Api.sent := [] |}.

(** A server that answers every request with status 200 and [j]. *)
Definition answering (j : json) : Api.Net :=
  {| Api.respond := fun _ _ =>
       Api.FetchResolves {| Api.status := 200; Api.payload := Some j |};
     Api.sent := [] |}.

(** The network answers the next request, whatever it is, with [res]. *)
Definition answersNext (n : Api.Net) (res : Api.Response) : Prop :=
  forall req, Api.respond n (Api.sent n) req = Api.FetchResolves res.

(** An optional string or number as the [if (x)] tests see it: a falsy
    value counts as absent. *)
Definition presentStr (v : option string) : option string :=
  if truthyStr v then v else None.

Definition presentNum (v : option Q) : option Q :=
  if truthyNum v then v else None.

Definition presentMetadata (m : Api.RecordingMetadata) : Api.RecordingMetadata :=
  {| Api.conversationId := presentStr (Api.conversationId m);
     Api.md_userId := presentStr (Api.md_userId m);
     Api.transcript := presentStr (Api.transcript m);
     Api.agentResponse := presentStr (Api.agentResponse m);
     Api.duration := presentNum (Api.duration m);
     Api.confidenceScore := presentNum (Api.confidenceScore m);
     Api.language := presentStr (Api.language m) |}.

(** A recording of zero seconds with an empty transcript. *)
Definition blankMetadata : Api.RecordingMetadata :=
  {| Api.conversationId := Some "c1"; Api.md_userId := None;
     Api.transcript := Some ""; Api.agentResponse := None;
     Api.duration := Some 0%Q; Api.confidenceScore := None;
     Api.language := Some "en-US" |}.

(** A back end whose transcription gives a sentence and whose agent
    endpoint answers, with status 500, a successful hand-off. *)
Definition turnReply : list (string * json) :=
  [("success", JBool true); ("current_agent", JStr "Inspection Agent");
   ("conversation_id", JStr "c42")].

Definition turnNet : Api.Net :=
  {| Api.respond := fun _ req =>
       if String.eqb (Api.path req) "/speech-to-text" then
         Api.FetchResolves
           {| Api.status := 200;
              Api.payload := Some (JObj [("transcript",
                                          JStr "I need to schedule an inspection")]) |}
       else
         Api.FetchResolves {| Api.status := 500;
                              Api.payload := Some (JObj turnReply) |};
     Api.sent := [] |}.

(** The chat view with voice turned on and one spoken response, which
    the auto-play effect has been playing for a second and a half. *)
Definition responses : list ChatAutoPlay.Message :=
  [{| ChatAutoPlay.role := ChatAutoPlay.assistant;
      ChatAutoPlay.audioData := Some "SUQz" |}].

Definition chatPlaying : UseVoice.World :=
  UseVoice.advance (3 # 2)
    (UseVoice.exec (ChatAutoPlay.autoPlayEffect responses true)
       (UseVoice.set_voiceEnabled true UseVoice.mounted)).

(** The hybrid agent after a first turn on [turnNet], processed by the
    closure of the mount render: the state holds the conversation id and
    the agent of the reply. *)
Definition afterFirstTurn : Hybrid.World :=
  snd (Hybrid.processVoiceMessage (Some JNull) (Some (JStr "Triage Agent"))
         Scenario.clip true (HybridCapture.voice (HybridCapture.mounted turnNet))).

(** The hybrid agent with permission already granted. *)
Definition permitted (n : Api.Net) : HybridCapture.World :=
  HybridCapture.setHasPermissions true (HybridCapture.mounted n).

(** One audio track is granted, 'audio/webm' is supported. *)
Definition micGranted : HybridCapture.StartEnv :=
  {| HybridCapture.probe := Some 1%nat; HybridCapture.userMedia := Some 1%nat;
     HybridCapture.supportsWebm := true; HybridCapture.supportsMp4 := false;
     HybridCapture.recorderConstructs := true;
     HybridCapture.defaultMime := "audio/ogg" |}.

Definition micRefused : HybridCapture.StartEnv :=
  {| HybridCapture.probe := None; HybridCapture.userMedia := None;
     HybridCapture.supportsWebm := true; HybridCapture.supportsMp4 := false;
     HybridCapture.recorderConstructs := true;
     HybridCapture.defaultMime := "audio/ogg" |}.

Definition spoken : HybridCapture.StopEnv :=
  {| HybridCapture.recorded := Scenario.clip; HybridCapture.playResolves := true;
     HybridCapture.seenConversationId := Some JNull;
     HybridCapture.seenAgent := Some (JStr "Triage Agent") |}.

(** A player with a synthesized response loaded. *)
Definition loadedPlayback : Playback.State :=
  snd (PlaybackMore.load (Some (UseVoice.Base64 "SUQz")) false false
         Scenario.pausedPlayback).

End Cases.

(* ===================================================================== *)
(** * Properties *)
(* ===================================================================== *)

Section WaveformFacts.
Import Waveform.

Lemma binIndex_bounds (i len count : Z) :
  1 <= len -> 1 <= count -> 0 <= i < count ->
  0 <= binIndex i len count < len.
Proof.
  intros Hlen Hcount Hi. unfold binIndex. split.
  - apply Z.div_pos; nia.
  - apply Z.div_lt_upper_bound; nia.
Qed.

Lemma readBin_is_Some (fd : list Z) (idx : Z) :
  0 <= idx < Z.of_nat (length fd) -> is_Some (readBin fd idx).
Proof.
  intros [Hlo Hhi]. unfold readBin.
  destruct (Z.ltb_spec idx 0) as [?|_]; [lia|].
  apply lookup_lt_is_Some. lia.
Qed.

Lemma elem_of_loopIndices (count i : Z) :
  i ∈ loopIndices count -> 0 <= i < count.
Proof.
  unfold loopIndices. intros Hin.
  apply list_elem_of_fmap in Hin as (n & -> & Hn).
  apply elem_of_seq in Hn. lia.
Qed.

Lemma loopCount_pos (mode : Mode) (size : Size) :
  mode <> orb -> 1 <= loopCount mode (sizeConfig size).
Proof. destruct mode, size; simpl; unfold points; intros; try lia; congruence. Qed.

(** C3: for bins of length B >= 1 and a target count N >= 1 the mapping
    floor(i*B/N) of every i in [0,N) lies in [0,B), so the bin read is
    inside the array; and in each of the four rendering modes and each
    size class every bin read of a frame is inside the array. *)
Theorem C3_bin_index_in_bounds
    (fd : list Z) (N i : Z) (mode : Mode) (size : Size) :
  1 <= Z.of_nat (length fd) -> 1 <= N -> 0 <= i < N ->
  0 <= dataIndex (Some fd) i N < Z.of_nat (length fd) /\
  is_Some (readBin fd (dataIndex (Some fd) i N)) /\
  Forall (inBounds (Z.of_nat (length fd))) (drawSources mode size (Some fd)).
Proof.
  intros HB HN Hi.
  pose proof (binIndex_bounds i _ N HB HN Hi) as Hb.
  split; [exact Hb |]. split; [by apply readBin_is_Some |].
  unfold drawSources.
  apply Forall_fmap, Forall_forall. intros k Hin.
  apply elem_of_loopIndices in Hin.
  assert (mode <> orb) as Hmode
    by (intros ->; simpl in Hin; lia).
  pose proof (loopCount_pos mode size Hmode) as Hcount.
  pose proof (binIndex_bounds k _ _ HB Hcount Hin) as Hk.
  simpl. split; [exact Hk | by apply readBin_is_Some].
Qed.

Lemma C3_bin_index_in_bounds_witness :
  (1 <= Z.of_nat (length [7; 9; 200]) /\ 1 <= 12 /\ 0 <= 11 < 12) /\
  0 <= dataIndex (Some [7; 9; 200]) 11 12 < 3 /\
  is_Some (readBin [7; 9; 200] (dataIndex (Some [7; 9; 200]) 11 12)) /\
  Forall (inBounds 3) (drawSources line large (Some [7; 9; 200])).
Proof.
  split; [simpl; lia |].
  apply (C3_bin_index_in_bounds [7; 9; 200] 12 11 line large); simpl; lia.
Defined.

(** C7: for amplitudes in [0,1] the orb radius
    [baseRadius + audioLevel * 20] is non-decreasing in the amplitude and
    never below the base radius. *)
Theorem C7_orb_radius_monotone (width height : Z) (a1 a2 : Q) :
  (0 <= a1)%Q -> (a1 <= a2)%Q -> (a2 <= 1)%Q ->
  (pulseRadius width height a1 <= pulseRadius width height a2)%Q /\
  (baseRadius width height <= pulseRadius width height a1)%Q /\
  (0 <= pulseScale)%Q.
Proof.
  intros H0 H12 H1. unfold pulseRadius, pulseScale.
  repeat split; [lra | lra | discriminate].
Qed.

Lemma C7_orb_radius_monotone_witness :
  ((0 <= 1 # 4)%Q /\ (1 # 4 <= 3 # 4)%Q /\ (3 # 4 <= 1)%Q) /\
  (pulseRadius 100 100 (1 # 4) <= pulseRadius 100 100 (3 # 4))%Q /\
  (baseRadius 100 100 <= pulseRadius 100 100 (1 # 4))%Q /\
  (0 <= pulseScale)%Q.
Proof.
  split; [repeat split; discriminate |].
  apply (C7_orb_radius_monotone 100 100 (1 # 4) (3 # 4)); discriminate.
Defined.

End WaveformFacts.

Section ApiFacts.
Import Js Async Api.
Local Open Scope prog_scope.

(** Every wrapper is [asyncReturn (tryCatch (fetch; checked) (orElse fb))];
    this is what such a call does. *)
Lemma wrapper_run (label : string) (fallback : json) (req : Request) (n : Net) :
  asyncReturn (tryCatch (res <- fetch req ;; checked label res) (orElse fallback)) n =
  let n' := {| respond := respond n; sent := sent n ++ [req] |} in
  match respond n (sent n) req with
  | FetchRejects => (Returned fallback, n')
  | FetchResolves res =>
      if ok res then
        (match payload res with
         | Some j => Returned j
         | None => Threw SyntaxError
         end, n')
      else (Returned fallback, n')
  end.
Proof.
  unfold asyncReturn, tryCatch, bind, fetch, checked, orElse, json_.
  destruct (respond n (sent n) req) as [|res]; [reflexivity|].
  destruct (ok res); [|reflexivity].
  destruct (payload res); reflexivity.
Qed.

Lemma wrapper_fallback (label : string) (fallback : json) (req : Request) (n : Net) :
  refuses n req ->
  fst (asyncReturn (tryCatch (res <- fetch req ;; checked label res)
                             (orElse fallback)) n) = Returned fallback.
Proof.
  unfold refuses. rewrite wrapper_run.
  destruct (respond n (sent n) req) as [|res]; [reflexivity|].
  intros ->. reflexivity.
Qed.

(** On a rejected fetch and on a non-2xx status the wrappers resolve to
    [null], [listRecordings] to the empty array. *)
Lemma callChatAPI_fallback message conversationId options n :
  (forall req, refuses n req) ->
  fst (callChatAPI message conversationId options n) = Returned JNull.
Proof. intros H. apply wrapper_fallback, H. Qed.

Lemma uploadAudio_fallback audioBlob n :
  (forall req, refuses n req) ->
  fst (uploadAudio audioBlob n) = Returned JNull.
Proof. intros H. apply wrapper_fallback, H. Qed.

Lemma saveRecording_fallback audioBlob metadata n :
  (forall req, refuses n req) ->
  fst (saveRecording audioBlob metadata n) = Returned JNull.
Proof. intros H. apply wrapper_fallback, H. Qed.

Lemma listRecordings_fallback conversationId userId limit n :
  (forall req, refuses n req) ->
  fst (listRecordings conversationId userId limit n) = Returned (JArr []).
Proof. intros H. apply wrapper_fallback, H. Qed.

Lemma other_wrappers_fallback text agent returnBase64 recordingId agentId n :
  (forall req, refuses n req) ->
  fst (synthesizeVoice text agent returnBase64 n) = Returned JNull /\
  fst (getVoiceInfo n) = Returned JNull /\
  fst (getRecording recordingId n) = Returned JNull /\
  fst (deleteRecording recordingId n) = Returned JNull /\
  fst (getElevenLabsConfig n) = Returned JNull /\
  fst (getElevenLabsSignedUrl agentId n) = Returned JNull.
Proof. intros H. repeat split; apply wrapper_fallback, H. Qed.

(** C10: the wrappers are meant never to throw to their caller.  On a
    2xx response whose body is not JSON the promise of [res.json()],
    returned from inside the [try] without [await], rejects after the
    [try] has been left: each of the ten wrappers rejects with the
    SyntaxError instead of resolving to its fallback. *)
Theorem C10_unparsable_body_rejects :
  fst (callChatAPI "hello" "c1" None Scenario.unparsable) = Threw SyntaxError /\
  fst (synthesizeVoice "hello" None None Scenario.unparsable) = Threw SyntaxError /\
  fst (getVoiceInfo Scenario.unparsable) = Threw SyntaxError /\
  fst (uploadAudio Scenario.clip Scenario.unparsable) = Threw SyntaxError /\
  fst (saveRecording Scenario.clip Scenario.noMetadata Scenario.unparsable)
    = Threw SyntaxError /\
  fst (listRecordings None None None Scenario.unparsable) = Threw SyntaxError /\
  fst (getRecording "r1" Scenario.unparsable) = Threw SyntaxError /\
  fst (deleteRecording "r1" Scenario.unparsable) = Threw SyntaxError /\
  fst (getElevenLabsConfig Scenario.unparsable) = Threw SyntaxError /\
  fst (getElevenLabsSignedUrl "a1" Scenario.unparsable) = Threw SyntaxError.
Proof. repeat split; reflexivity. Qed.

End ApiFacts.

Section UseVoiceFacts.
Import Js Async UseVoice Microphone.
Local Open Scope prog_scope.

Lemma stopTracks_streams_length (stream : nat) (w : World) :
  length (streams (stopTracks stream w)) = length (streams w).
Proof. unfold stopTracks. simpl. apply length_alter. Qed.

(** What [stopRecording] leaves of the recorder and of the streams. *)
Lemma stopRecording_keeps_session (endTime : Z) (w : World) (r : Recorder) :
  mediaRecorderRef w = Some r ->
  let w' := exec (stopRecording endTime) w in
  length (streams w') = length (streams w) /\
  exists r', mediaRecorderRef w' = Some r' /\
             recStream r' = recStream r /\ captured r' = captured r.
Proof.
  intros Hr. unfold exec, stopRecording, bind, get. rewrite Hr.
  destruct (streamRef w) as [stream|], (animationFrameRef w) as [frame|],
    (captured r) as [blob|] eqn:Hcap;
    try destruct (frame =? 0)%nat;
    cbn; unfold tryCatch, bind, onNet, zoom; cbn;
    repeat match goal with
           | |- context [Api.saveRecording ?b ?m ?n] =>
               destruct (Api.saveRecording b m n) as [[?|?] ?]
           end;
    cbn; rewrite ?length_alter; (split; [reflexivity|]);
    eexists; (split; [reflexivity|]); cbn; auto.
Qed.

(** C1, as stated, fails: a second [startRecording] while a recording
    is in progress is not rejected; it acquires a second stream and puts
    a fresh recorder, with nothing captured, in place of the one that was
    recording. *)
Lemma C1_second_start_replaces_recorder :
  let w := Scenario.recordingWorld in
  let w' := exec (startRecording Scenario.granted) w in
  isRecording w = true /\
  mediaRecorderRef w =
    Some {| recStream := 0; recRecording := true;
            captured := Some {| Api.blobBytes := [1; 2; 3];
                                Api.blobType := "audio/webm" |} |} /\
  result (startRecording Scenario.granted) w = Returned tt /\
  error w' = None /\
  mediaRecorderRef w' =
    Some {| recStream := 1; recRecording := true; captured := None |} /\
  mediaRecorderRef w' <> mediaRecorderRef w.
Proof. cbv zeta. repeat split; try reflexivity. vm_compute. discriminate. Qed.

(** C1, amended: the guard against a second capture is in the handlers
    of the microphone button.  While [isRecording] holds, [handleMouseDown]
    does nothing at all, and [handleMicrophoneClick] starts no capture: no
    stream is acquired and the recorder keeps its stream and what it has
    captured. *)
Theorem C1_handlers_start_no_second_capture
    (props : Props) (env : StartEnv) (w : World) (r : Recorder) :
  isRecording w = true ->
  mediaRecorderRef w = Some r ->
  handleMouseDown props env w = (Returned [], w) /\
  let w' := exec (handleMicrophoneClick props env) w in
  length (streams w') = length (streams w) /\
  exists r', mediaRecorderRef w' = Some r' /\
             recStream r' = recStream r /\ captured r' = captured r.
Proof.
  intros Hrec Hr. split.
  - unfold handleMouseDown, bind, get. rewrite Hrec.
    rewrite andb_false_r. reflexivity.
  - unfold exec, handleMicrophoneClick, bind, get. rewrite Hrec.
    destruct (disabled props), (voiceEnabled w) eqn:Hen; cbn [orb negb].
    + cbn. split; [reflexivity | eauto].
    + unfold toggleVoice, bind, get, modify. rewrite Hen. cbn.
      split; [reflexivity | eauto].
    + pose proof (stopRecording_keeps_session (now env) w r Hr) as H.
      unfold exec in H. cbv zeta in H.
      destruct (stopRecording (now env) w) as [[voiceData|e] w1]; exact H.
    + unfold toggleVoice, bind, get, modify. rewrite Hen. cbn.
      split; [reflexivity | eauto].
Qed.

Lemma C1_handlers_start_no_second_capture_witness :
  let props := {| disabled := false; onAudioRecorded := true |} in
  let w := set_voiceEnabled true Scenario.recordingWorld in
  isRecording w = true /\
  mediaRecorderRef w =
    Some {| recStream := 0; recRecording := true;
            captured := Some {| Api.blobBytes := [1; 2; 3];
                                Api.blobType := "audio/webm" |} |} /\
  handleMouseDown props Scenario.granted w = (Returned [], w) /\
  length (streams (exec (handleMicrophoneClick props Scenario.granted) w))
    = length (streams w).
Proof.
  cbv zeta.
  pose proof (C1_handlers_start_no_second_capture
                {| disabled := false; onAudioRecorded := true |}
                Scenario.granted
                (set_voiceEnabled true Scenario.recordingWorld)
                {| recStream := 0; recRecording := true;
                   captured := Some {| Api.blobBytes := [1; 2; 3];
                                       Api.blobType := "audio/webm" |} |}
                eq_refl eq_refl) as [Hdown [Hlen _]].
  split; [reflexivity | split; [reflexivity | split; [exact Hdown | exact Hlen]]].
Defined.

(** The part of C4 that holds: a blob payload that plays to its end has
    its object URL revoked by [onended]. *)
Lemma ended_revokes_current_blob :
  objectUrls Scenario.firstClip = {[0%nat]} /\
  objectUrls (exec ended Scenario.firstClip) = ∅.
Proof. split; reflexivity. Qed.

(** C4: a discarded blob payload must have its object URL revoked.  When
    a second payload replaces a captured clip, [playAudio] overwrites
    [audio.src] and the URL of the first clip (0) stays registered: after
    the second clip has ended the hook is idle, the element points at
    URL 1, which was revoked, and URL 0 is still live with nothing left
    that could revoke it.  [stopPlayback] does not revoke either. *)
Theorem C4_replaced_payload_url_dangles :
  objectUrls Scenario.firstClip = {[0%nat]} /\
  objectUrls Scenario.replaced = {[1%nat]} ∪ {[0%nat]} /\
  voiceState Scenario.replacedEnded = st_idle /\
  (src <$> audioElementRef Scenario.replacedEnded) = Some (BlobUrl 1) /\
  objectUrls Scenario.replacedEnded = {[0%nat]} /\
  objectUrls (exec stopPlayback Scenario.firstClip) = {[0%nat]}.
Proof. repeat split; reflexivity. Qed.

(** C5: the error path of [startRecording] must release the microphone.
    When the stream has been acquired and the recorder then fails to
    load, the [catch] block only sets the error: the hook is in the error
    state, the track of stream 0 is still live, and as no recorder was
    stored [stopRecording] returns null without touching the stream. *)
Theorem C5_failed_start_keeps_microphone :
  let w := Scenario.failedStart in
  voiceState w = st_error /\
  error w = Some "Microphone access denied or not available" /\
  streamRef w = Some 0%nat /\
  streams w = [[true]] /\
  microphoneBusy w = true /\
  mediaRecorderRef w = None /\
  stopRecording 1700000001000 w = (Returned None, w).
Proof. cbv zeta. repeat split; reflexivity. Qed.

(** What a change of the volume setting does in the chat view while the
    latest response is playing: the render gives the auto-play effect a
    new [playAudio], the effect runs again and plays the response from
    the start, at the new volume. *)
Lemma chat_volume_change_replays_response
    (w : World) (v : Z) (data : string) (messages : list ChatAutoPlay.Message)
    (playResolves : bool) :
  isClient w = true -> voiceEnabled w = true ->
  autoPlayResponses (settings w) = true ->
  last messages = Some {| ChatAutoPlay.role := ChatAutoPlay.assistant;
                          ChatAutoPlay.audioData := Some data |} ->
  data <> "" ->
  v <> volume (settings w) -> 0 <= v <= 100 ->
  let w' := exec (ChatAutoPlay.onSettingsChange (Scenario.volumeTo v)
                    messages playResolves) w in
  (src <$> audioElementRef w') = Some (DataUrl data) /\
  (currentTime <$> audioElementRef w') = Some 0%Q /\
  (a_volume <$> audioElementRef w') = Some (inject_Z v / 100)%Q /\
  (paused <$> audioElementRef w') = Some (negb playResolves).
Proof.
  intros Hclient Hvoice Hauto Hlast Hdata Hv Hrange. cbv zeta.
  assert (Qle_bool 0 (inject_Z v / 100) && Qle_bool (inject_Z v / 100) 1 = true)
    as Hr.
  { apply andb_true_intro. split; apply Qle_bool_iff;
      unfold Qle, Qdiv, Qmult, inject_Z, Qinv; simpl; lia. }
  destruct data as [|c data]; [congruence |].
  unfold exec, ChatAutoPlay.onSettingsChange, ChatAutoPlay.autoPlayEffect,
    updateSettings, bind, get, modify. cbn.
  destruct (Z.eqb_spec v (volume (settings w))) as [E | _]; [congruence |].
  cbn. rewrite Hlast. cbn. rewrite Hauto, Hvoice. cbn.
  unfold playAudio, bind, get. cbn. rewrite Hclient. cbn.
  destruct (audioElementRef w) as [a|] eqn:Ha;
    cbn; unfold tryCatch, bind, setVolume, get, modify; cbn;
    rewrite Hr; unfold withAudio, play, modify, bind, get; cbn;
    rewrite ?Ha; destruct playResolves; cbn; repeat split.
Qed.

(** C6: a change of the volume setting must reach the playback that is
    running, without restarting it.  No code does that.  [updateSettings]
    only stores the setting and never touches the audio element: with a
    response playing at volume 80, setting the volume to 30 leaves the
    element at 0.8.  The setting is written to the element by [playAudio]
    alone, which assigns [audio.src] again; in the chat view, whose
    auto-play effect depends on [playAudio], the change of volume runs the
    effect again, so the response that was a second and a half in is
    played from position 0 at volume 0.3. *)
Theorem C6_volume_change_misses_active_playback :
  (forall (w : World) (v : Z),
     audioElementRef (exec (updateSettings (Scenario.volumeTo v)) w)
       = audioElementRef w) /\
  (let w := Scenario.playingWorld in
   let w' := exec (updateSettings (Scenario.volumeTo 30)) w in
   isPlaying w = true /\
   volume (settings w') = 30 /\
   (a_volume <$> audioElementRef w') = Some (80 # 100)%Q /\
   ~ (80 # 100 == inject_Z 30 / 100)%Q) /\
  (let w := Cases.chatPlaying in
   let w' := exec (ChatAutoPlay.onSettingsChange (Scenario.volumeTo 30)
                     Cases.responses true) w in
   isPlaying w = true /\
   (currentTime <$> audioElementRef w) = Some (3 # 2)%Q /\
   (a_volume <$> audioElementRef w') = Some (30 # 100)%Q /\
   (currentTime <$> audioElementRef w') = Some 0%Q /\
   (paused <$> audioElementRef w') = Some false).
Proof.
  cbv zeta. split; [intros w v; reflexivity |].
  split; repeat split; try reflexivity. discriminate.
Qed.

(** C8: [stopRecording] with no recorder resolves to null and changes
    nothing: the voice state, the audio level, every ref and the rest of
    the world are as before. *)
Theorem C8_stop_without_recorder (endTime : Z) (w : World) :
  mediaRecorderRef w = None ->
  stopRecording endTime w = (Returned None, w).
Proof.
  intros Hnone. unfold stopRecording, bind, get. rewrite Hnone. reflexivity.
Qed.

Lemma C8_stop_without_recorder_witness :
  mediaRecorderRef mounted = None /\
  stopRecording 1700000000000 mounted = (Returned None, mounted).
Proof.
  split; [reflexivity |].
  apply (C8_stop_without_recorder 1700000000000 mounted). reflexivity.
Defined.

End UseVoiceFacts.

Section PlaybackFacts.
Import Js Async Playback.
Local Open Scope prog_scope.

(** Pausing twice is the same as pausing once, from any state. *)
Lemma handlePause_twice (props : Props) (s : State) :
  snd (handlePause props (snd (handlePause props s))) = snd (handlePause props s).
Proof.
  unfold handlePause, pause, bind, get, modify.
  destruct (audioRef s) as [a|] eqn:Ha; cbn; [|rewrite Ha; reflexivity].
  rewrite Ha. destruct (el_paused a) eqn:Hp; cbn.
  - rewrite Ha. cbn. rewrite Ha, Hp. reflexivity.
  - reflexivity.
Qed.

(** C9: on a playback engine that is already paused, [handlePause]
    changes nothing (position, playing flag, element, every other field
    of the state) and completes without an error; all it does is call
    the [onPause] prop when one is given. *)
Theorem C9_pause_idempotent (props : Props) (s : State) :
  enginePaused s = true ->
  snd (handlePause props s) = s /\
  exists notices, fst (handlePause props s) = Returned notices.
Proof.
  unfold enginePaused, handlePause, pause, bind, get.
  destruct (audioRef s) as [a|] eqn:Ha; cbn.
  - intros Hp. rewrite Ha, Hp. cbn. eauto.
  - intros _. eauto.
Qed.

Lemma C9_pause_idempotent_witness :
  enginePaused Scenario.pausedPlayback = true /\
  snd (handlePause Scenario.allProps Scenario.pausedPlayback)
    = Scenario.pausedPlayback.
Proof.
  split; [reflexivity |].
  apply (C9_pause_idempotent Scenario.allProps Scenario.pausedPlayback).
  reflexivity.
Defined.

End PlaybackFacts.

Section VoiceTurnFacts.
Import Js Async.
Local Open Scope prog_scope.

Lemma usableTranscript_empty (fields : list (string * json)) :
  assoc "transcript" fields = Some (JStr "") ->
  ChatView.usableTranscript (JObj fields) = None.
Proof. intros H. unfold ChatView.usableTranscript. cbn. rewrite H. reflexivity. Qed.

Lemma uploadAudio_request (audioBlob : Api.Blob) (n : Api.Net) :
  Api.uploadAudio audioBlob n =
  let req := Hybrid.transcriptionRequest audioBlob in
  let n' := {| Api.respond := Api.respond n; Api.sent := Api.sent n ++ [req] |} in
  match Api.respond n (Api.sent n) req with
  | Api.FetchRejects => (Returned JNull, n')
  | Api.FetchResolves res =>
      if Api.ok res then
        (match Api.payload res with
         | Some j => Returned j
         | None => Threw SyntaxError
         end, n')
      else (Returned JNull, n')
  end.
Proof. unfold Api.uploadAudio. apply wrapper_run. Qed.

(** C2, as stated, fails for the hybrid agent: on [{ transcript: "" }]
    [processVoiceMessage] throws 'Failed to transcribe audio' into its own
    [catch], which puts the component in its error state and calls
    [onError]. *)
Lemma C2_hybrid_empty_transcript_sets_error :
  let w' := snd (Hybrid.processVoiceMessage (Some JNull)
                   (Some (JStr "Triage Agent")) Scenario.clip true
                   Scenario.hybridProcessing) in
  Hybrid.error (Hybrid.state Scenario.hybridProcessing) = None /\
  Hybrid.error (Hybrid.state w') = Some "Failed to process voice message" /\
  Hybrid.notices w' = [Hybrid.onError (Error "Failed to transcribe audio")].
Proof. cbv zeta. repeat split; reflexivity. Qed.

(** C2, amended: when transcription succeeds with an empty transcript,
    no path calls the chat / agent endpoint.  The chat view
    ([handleVoiceRecording] without an [onVoiceMessage] prop, and
    [handleVoiceUpload] of the page) sends only the transcription request,
    calls nothing and reports no error.  The hybrid agent
    ([processVoiceMessage]) sends only the transcription request and leaves
    the processing state (recording and playing flags untouched), but it
    does report an error: it sets 'Failed to process voice message' and
    calls [onError]. *)
Theorem C2_empty_transcript_skips_chat
    (seenConversationId seenAgent : value)
    (audioBlob : Api.Blob) (playResolves voiceHookEnabled : bool)
    (hw : Hybrid.World) (cw : ChatView.World) (pw : Home.World) :
  Api.answersEmptyTranscript (Hybrid.net hw) (Hybrid.transcriptionRequest audioBlob) ->
  Api.answersEmptyTranscript (ChatView.net cw) (Hybrid.transcriptionRequest audioBlob) ->
  Api.answersEmptyTranscript (Home.net pw) (Hybrid.transcriptionRequest audioBlob) ->
  (let '(r, hw') := Hybrid.processVoiceMessage seenConversationId seenAgent
                      audioBlob playResolves hw in
   r = Returned tt /\
   Api.sent (Hybrid.net hw')
     = Api.sent (Hybrid.net hw) ++ [Hybrid.transcriptionRequest audioBlob] /\
   Hybrid.agentCalls hw' = Hybrid.agentCalls hw /\
   Hybrid.isProcessing (Hybrid.state hw') = false /\
   Hybrid.isRecording (Hybrid.state hw') = Hybrid.isRecording (Hybrid.state hw) /\
   Hybrid.isPlaying (Hybrid.state hw') = Hybrid.isPlaying (Hybrid.state hw) /\
   Hybrid.error (Hybrid.state hw') = Some "Failed to process voice message" /\
   Hybrid.notices hw' =
     Hybrid.notices hw ++ [Hybrid.onError (Error "Failed to transcribe audio")]) /\
  (let '(r, cw') := ChatView.handleVoiceRecording false voiceHookEnabled audioBlob cw in
   r = Returned tt /\
   Api.sent (ChatView.net cw')
     = Api.sent (ChatView.net cw) ++ [Hybrid.transcriptionRequest audioBlob] /\
   ChatView.calls cw' = ChatView.calls cw) /\
  (let '(r, pw') := Home.handleVoiceUpload audioBlob pw in
   r = Returned tt /\
   Api.sent (Home.net pw')
     = Api.sent (Home.net pw) ++ [Hybrid.transcriptionRequest audioBlob] /\
   Home.calls pw' = Home.calls pw).
Proof.
  intros (hres & hfields & Hh & Hhok & Hhpay & Hht)
         (cres & cfields & Hc & Hcok & Hcpay & Hct)
         (pres & pfields & Hp & Hpok & Hppay & Hpt).
  repeat apply conj.
  - unfold Hybrid.processVoiceMessage, bind, get, tryCatch, Hybrid.onNet, zoom,
      Api.fetch.
    rewrite Hh. cbn. rewrite Hhok. cbn.
    unfold Api.json_. rewrite Hhpay. cbn. rewrite Hht. cbn.
    repeat split.
    unfold Hybrid.agentCalls. cbn. rewrite filter_app. cbn.
    rewrite decide_False by discriminate. apply app_nil_r.
  - unfold ChatView.handleVoiceRecording, tryCatch, bind, ChatView.onNet, zoom.
    rewrite uploadAudio_request. cbv zeta. rewrite Hc, Hcok, Hcpay.
    rewrite (usableTranscript_empty _ Hct). cbn. repeat split.
  - unfold Home.handleVoiceUpload, tryCatch, bind, Home.onNet, zoom.
    rewrite uploadAudio_request. cbv zeta. rewrite Hp, Hpok, Hppay.
    rewrite (usableTranscript_empty _ Hpt). cbn. repeat split.
Qed.

Lemma silent_answersEmptyTranscript (req : Api.Request) :
  Api.answersEmptyTranscript Scenario.silent req.
Proof.
  exists {| Api.status := 200;
            Api.payload := Some (JObj [("transcript", JStr "")]) |},
         [("transcript", JStr "")].
  repeat split.
Defined.

Lemma C2_empty_transcript_skips_chat_witness :
  Api.answersEmptyTranscript Scenario.silent
    (Hybrid.transcriptionRequest Scenario.clip) /\
  Hybrid.agentCalls
    (snd (Hybrid.processVoiceMessage (Some JNull) (Some (JStr "Triage Agent"))
            Scenario.clip true Scenario.hybridProcessing))
    = [] /\
  ChatView.calls
    (snd (ChatView.handleVoiceRecording false true Scenario.clip Scenario.chatSilent))
    = [] /\
  Home.calls (snd (Home.handleVoiceUpload Scenario.clip Scenario.homeSilent)) = [].
Proof.
  split; [apply silent_answersEmptyTranscript |].
  pose proof (C2_empty_transcript_skips_chat (Some JNull)
                (Some (JStr "Triage Agent")) Scenario.clip true true
                Scenario.hybridProcessing Scenario.chatSilent Scenario.homeSilent
                (silent_answersEmptyTranscript _)
                (silent_answersEmptyTranscript _)
                (silent_answersEmptyTranscript _)) as (Hh & Hc & Hp).
  destruct (Hybrid.processVoiceMessage (Some JNull) (Some (JStr "Triage Agent"))
              Scenario.clip true Scenario.hybridProcessing)
    as [rh hw'].
  destruct (ChatView.handleVoiceRecording false true Scenario.clip Scenario.chatSilent)
    as [rc cw'].
  destruct (Home.handleVoiceUpload Scenario.clip Scenario.homeSilent) as [rp pw'].
  destruct Hh as (_ & _ & Hh & _), Hc as (_ & _ & Hc), Hp as (_ & _ & Hp).
  cbn. rewrite Hh, Hc, Hp. repeat split.
Defined.

End VoiceTurnFacts.

(* ===================================================================== *)
(** * Further properties of the code *)
(* ===================================================================== *)

Section WaveformMoreFacts.
Import Waveform WaveformGeometry.

(** X1: the bar-to-bin mapping keeps the order of the bars, starts at bin
    0, and is the identity when there are as many bins as bars. *)
Theorem binIndex_order_preserving (len count i j : Z) :
  0 <= len -> 1 <= count -> 0 <= i <= j ->
  binIndex i len count <= binIndex j len count /\
  binIndex 0 len count = 0 /\
  binIndex i count count = i.
Proof.
  intros Hlen Hcount Hij. unfold binIndex. split; [| split].
  - apply Z.div_le_mono; nia.
  - reflexivity.
  - apply Z.div_mul. lia.
Qed.

Lemma binIndex_order_preserving_witness :
  (0 <= 128 /\ 1 <= 64 /\ 0 <= 3 <= 5) /\
  binIndex 3 128 64 <= binIndex 5 128 64 /\
  binIndex 0 128 64 = 0 /\
  binIndex 3 64 64 = 3.
Proof.
  split; [lia |].
  apply (binIndex_order_preserving 128 64 3 5); lia.
Defined.

(** X2: when there are at least as many bars as bins, every bin drives
    some bar: no bin is skipped. *)
Theorem binIndex_reaches_every_bin (len count b : Z) :
  1 <= len <= count -> 0 <= b < len ->
  exists i, 0 <= i < count /\ binIndex i len count = b.
Proof.
  intros Hlen Hb. unfold binIndex.
  exists ((b * count + len - 1) / len).
  set (i := (b * count + len - 1) / len).
  assert (len * i <= b * count + len - 1) as Hup
    by (apply Z.mul_div_le; lia).
  assert (b * count + len - 1 < len * (i + 1)) as Hlo.
  { pose proof (Z.mul_succ_div_gt (b * count + len - 1) len ltac:(lia)).
    fold i in H. lia. }
  assert (0 <= i) as Hi0 by (apply Z.div_pos; nia).
  split.
  - split; [exact Hi0 | nia].
  - symmetry. apply Z.div_unique with (r := i * len - b * count); nia.
Qed.

Lemma binIndex_reaches_every_bin_witness :
  (1 <= 8 <= 12 /\ 0 <= 7 < 8) /\
  exists i, 0 <= i < 12 /\ binIndex i 8 12 = 7.
Proof.
  split; [lia |].
  apply (binIndex_reaches_every_bin 8 12 7); lia.
Defined.

(** The edge cases of the frequency data.  An empty array makes every
    bar of every looping mode read index 0 outside of the array
    (an undefined amplitude); without an array no bin is read at all; and
    a frame always has [barCount] bars ('circle', 'bars'), 64 points
    ('line') or none ('orb'). *)
Theorem drawSources_edge_cases (mode : Mode) (size : Size) (fd : option (list Z)) :
  Forall (fun src => src = FromBin 0 None) (drawSources mode size (Some [])) /\
  Forall (fun src => src = fallback mode 0 \/ exists i, src = FromSine i)
         (drawSources mode size None) /\
  length (drawSources mode size fd) = Z.to_nat (loopCount mode (sizeConfig size)).
Proof.
  repeat split.
  - unfold drawSources. apply Forall_fmap, Forall_forall. intros i _.
    unfold ampSource, dataIndex, binIndex, readBin. simpl.
    rewrite Z.mul_0_r, Zdiv_0_l. reflexivity.
  - unfold drawSources. apply Forall_fmap, Forall_forall. intros i _.
    destruct mode; simpl; eauto.
  - unfold drawSources, loopIndices. rewrite !length_fmap. apply length_seq.
Qed.

Lemma amplitude_of_byte (v : Z) :
  0 <= v <= 255 -> (0 <= binAmplitude v <= 1)%Q.
Proof.
  intros Hv. unfold binAmplitude, Qle, Qdiv, Qmult, Qinv, inject_Z. simpl. lia.
Qed.

Lemma scaled_by_amplitude (a h : Q) :
  (0 <= a <= 1)%Q -> (0 <= h)%Q -> (0 <= a * h <= h)%Q.
Proof.
  intros [Ha0 Ha1] Hh. split.
  - apply Qmult_le_0_compat; assumption.
  - assert (a * h <= 1 * h)%Q as H
      by (apply Qmult_le_compat_r; assumption).
    rewrite Qmult_1_l in H. exact H.
Qed.

(** X3: with frequency data (bytes, 0..255) every bar has an amplitude in
    [0,1]; the radial bars are between 5 and 35 long, a linear bar stands
    on the bottom edge and is at most 0.8 of the height, and a point of the
    waveform line lies between 0.2 and 0.8 of the height. *)
Theorem bars_stay_in_range (fd : list Z) (i count height : Z) :
  Forall (fun v => 0 <= v <= 255) fd ->
  1 <= Z.of_nat (length fd) -> 1 <= count -> 0 <= i < count -> 0 <= height ->
  exists a, amplitudeAt fd i count = Some a /\
    (0 <= a <= 1)%Q /\
    (5 <= circleBarHeight a <= 35)%Q /\
    (0 <= barHeight a height <= (8 # 10) * inject_Z height)%Q /\
    (barY a height + barHeight a height == inject_Z height)%Q /\
    (0 <= barY a height)%Q /\
    ((2 # 10) * inject_Z height <= lineY a height <= (8 # 10) * inject_Z height)%Q.
Proof.
  intros Hbytes HB HN Hi Hh.
  pose proof (binIndex_bounds i _ count HB HN Hi) as Hidx.
  destruct (readBin_is_Some fd _ Hidx) as [v Hv].
  unfold amplitudeAt. simpl. rewrite Hv. simpl.
  exists (binAmplitude v). split; [reflexivity |].
  assert (0 <= v <= 255) as Hbyte.
  { unfold readBin in Hv.
    destruct (binIndex i (Z.of_nat (length fd)) count <? 0); [discriminate |].
    rewrite Forall_forall in Hbytes. apply Hbytes.
    eapply list_elem_of_lookup_2. exact Hv. }
  pose proof (amplitude_of_byte v Hbyte) as Ha.
  assert (0 <= inject_Z height)%Q as HhQ
    by (unfold Qle, inject_Z; simpl; lia).
  pose proof (scaled_by_amplitude _ _ Ha HhQ) as Hah.
  set (a := binAmplitude v) in *. set (h := inject_Z height) in *.
  unfold circleBarHeight, barHeight, barY, barHeight, lineY, centerY.
  fold h. destruct Ha as [Ha0 Ha1], Hah as [Hah0 Hah1].
  assert (a * h * (8 # 10) == (8 # 10) * (a * h))%Q as Ebar by ring.
  assert ((a - (1 # 2)) * h * (6 # 10) == (6 # 10) * (a * h) - (3 # 10) * h)%Q
    as Eline by ring.
  rewrite Ebar, Eline.
  assert (h / 2 == (1 # 2) * h)%Q as Ehalf by field.
  rewrite Ehalf.
  clear Ebar Eline Ehalf. set (p := (a * h)%Q) in *. clearbody p a h.
  repeat split; lra.
Qed.

Lemma bars_stay_in_range_witness :
  (Forall (fun v => 0 <= v <= 255) [0; 128; 255] /\
   1 <= Z.of_nat (length [0; 128; 255]) /\ 1 <= 12 /\ 0 <= 11 < 12 /\ 0 <= 60) /\
  exists a, amplitudeAt [0; 128; 255] 11 12 = Some a /\ (0 <= a <= 1)%Q.
Proof.
  assert (Forall (fun v => 0 <= v <= 255) [0; 128; 255]) as Hbytes
    by (repeat constructor; lia).
  split; [split; [exact Hbytes | simpl; lia] |].
  destruct (bars_stay_in_range [0; 128; 255] 11 12 60 Hbytes)
    as (a & Ha & Hrange & _); [simpl; lia | lia | lia | lia |].
  exists a. split; assumption.
Defined.

(** X4: in 'bars' mode, on a canvas at least twice as wide in pixels as
    it has bars (true of the three size classes), the bars have a
    non-negative width, start at or after the left edge, end two pixels
    before the right edge at the latest, and are two pixels apart. *)
Theorem bars_fit_across (width barCount i : Z) :
  1 <= barCount -> 2 * barCount <= width -> 0 <= i < barCount ->
  (0 <= barWidth width barCount)%Q /\
  (0 <= barX i width barCount)%Q /\
  (barX i width barCount + barWidth width barCount <= inject_Z width - 2)%Q /\
  (barX (i + 1) width barCount
     - (barX i width barCount + barWidth width barCount) == 2)%Q.
Proof.
  intros Hcount Hwide Hi. unfold barX, barWidth.
  set (W := (inject_Z width / inject_Z barCount)%Q).
  assert (0 < inject_Z barCount)%Q as Hc
    by (unfold Qlt, inject_Z; simpl; lia).
  assert (2 <= W)%Q as HW.
  { apply Qle_shift_div_l; [exact Hc |].
    unfold Qle, Qmult, inject_Z; simpl. lia. }
  assert (W * inject_Z barCount == inject_Z width)%Q as Hfull.
  { unfold W. field. intros H0. rewrite H0 in Hc. discriminate. }
  assert (0 <= inject_Z i)%Q as Hi0
    by (unfold Qle, inject_Z; simpl; lia).
  assert (inject_Z (i + 1) == inject_Z i + 1)%Q as Hsucc
    by (rewrite inject_Z_plus; reflexivity).
  assert (inject_Z i * W + W <= inject_Z width)%Q as Hlast.
  { rewrite <- Hfull.
    assert (inject_Z i * W + W == W * (inject_Z i + 1))%Q as Efac by ring.
    rewrite Efac, <- Hsucc.
    rewrite (Qmult_comm W (inject_Z (i + 1))), (Qmult_comm W (inject_Z barCount)).
    apply Qmult_le_compat_r; [| lra].
    unfold Qle, inject_Z; simpl. lia. }
  assert (0 <= inject_Z i * W)%Q as Hleft
    by (apply Qmult_le_0_compat; lra).
  rewrite Hsucc.
  assert (inject_Z i * (W - 2 + 2) == inject_Z i * W)%Q as Ex by ring.
  assert ((inject_Z i + 1) * (W - 2 + 2) == inject_Z i * W + W)%Q as Ex1 by ring.
  rewrite Ex, Ex1.
  set (x := (inject_Z i * W)%Q) in *. clearbody x W.
  repeat split; lra.
Qed.

Lemma bars_fit_across_witness :
  (1 <= 32 /\ 2 * 32 <= 150 /\ 0 <= 31 < 32) /\
  (barX 31 150 32 + barWidth 150 32 <= inject_Z 150 - 2)%Q.
Proof.
  split; [lia |].
  destruct (bars_fit_across 150 32 31) as (_ & _ & H & _); [lia | lia | lia |].
  exact H.
Defined.

End WaveformMoreFacts.

Section ApiMoreFacts.
Import Js Async Api.
Local Open Scope prog_scope.

Lemma offline_refuses (req : Request) : refuses Cases.offline req.
Proof. exact I. Defined.

(** X5: when the fetch rejects or the status is not 2xx, every wrapper
    resolves to [null], and [listRecordings] to the empty array. *)
Theorem wrappers_fall_back (n : Net)
    (message conversationId text recordingId agentId : string)
    (options : option ChatOptions) (agent : option string)
    (returnBase64 : option bool) (audioBlob : Blob)
    (metadata : RecordingMetadata) (cid uid : option string) (limit : option Q) :
  (forall req, refuses n req) ->
  fst (callChatAPI message conversationId options n) = Returned JNull /\
  fst (synthesizeVoice text agent returnBase64 n) = Returned JNull /\
  fst (getVoiceInfo n) = Returned JNull /\
  fst (uploadAudio audioBlob n) = Returned JNull /\
  fst (saveRecording audioBlob metadata n) = Returned JNull /\
  fst (listRecordings cid uid limit n) = Returned (JArr []) /\
  fst (getRecording recordingId n) = Returned JNull /\
  fst (deleteRecording recordingId n) = Returned JNull /\
  fst (getElevenLabsConfig n) = Returned JNull /\
  fst (getElevenLabsSignedUrl agentId n) = Returned JNull.
Proof. intros H. repeat split; apply wrapper_fallback, H. Qed.

Lemma wrappers_fall_back_witness :
  (forall req, refuses Cases.offline req) /\
  fst (callChatAPI "hello" "c1" None Cases.offline) = Returned JNull /\
  fst (listRecordings None None (Some 100%Q) Cases.offline) = Returned (JArr []).
Proof.
  split; [exact offline_refuses |].
  destruct (wrappers_fall_back Cases.offline "hello" "c1" "" "" "" None None None
              Scenario.clip Scenario.noMetadata None None (Some 100%Q)
              offline_refuses) as (Hchat & _ & _ & _ & _ & Hlist & _).
  split; [exact Hchat | exact Hlist].
Defined.

Lemma wrapper_sends_once (label : string) (fallback : json) (req : Request) (n : Net) :
  sent (snd (asyncReturn (tryCatch (res <- fetch req ;; checked label res)
                                   (orElse fallback)) n)) = sent n ++ [req].
Proof.
  rewrite wrapper_run. cbv zeta.
  destruct (respond n (sent n) req) as [|res]; [reflexivity |].
  destruct (ok res); reflexivity.
Qed.

Lemma wrapper_passes_json (label : string) (fallback : json) (req : Request)
    (n : Net) (res : Response) (j : json) :
  respond n (sent n) req = FetchResolves res -> ok res = true ->
  payload res = Some j ->
  fst (asyncReturn (tryCatch (res <- fetch req ;; checked label res)
                             (orElse fallback)) n) = Returned j.
Proof.
  intros Hres Hok Hj. rewrite wrapper_run. cbv zeta.
  rewrite Hres, Hok, Hj. reflexivity.
Qed.

(** X6: on a 2xx response with a JSON body every wrapper resolves to that
    body, unchanged. *)
Theorem wrappers_pass_json_through (n : Net) (res : Response) (j : json)
    (message conversationId text recordingId agentId : string)
    (options : option ChatOptions) (agent : option string)
    (returnBase64 : option bool) (audioBlob : Blob)
    (metadata : RecordingMetadata) (cid uid : option string) (limit : option Q) :
  Cases.answersNext n res -> ok res = true -> payload res = Some j ->
  fst (callChatAPI message conversationId options n) = Returned j /\
  fst (synthesizeVoice text agent returnBase64 n) = Returned j /\
  fst (getVoiceInfo n) = Returned j /\
  fst (uploadAudio audioBlob n) = Returned j /\
  fst (saveRecording audioBlob metadata n) = Returned j /\
  fst (listRecordings cid uid limit n) = Returned j /\
  fst (getRecording recordingId n) = Returned j /\
  fst (deleteRecording recordingId n) = Returned j /\
  fst (getElevenLabsConfig n) = Returned j /\
  fst (getElevenLabsSignedUrl agentId n) = Returned j.
Proof.
  intros H Hok Hj.
  repeat split; eapply wrapper_passes_json; eauto; apply H.
Qed.

Lemma answering_answersNext (j : json) :
  Cases.answersNext (Cases.answering j)
    {| status := 200; payload := Some j |}.
Proof. intros req. reflexivity. Defined.

Lemma wrappers_pass_json_through_witness :
  Cases.answersNext (Cases.answering (JStr "ok"))
    {| status := 200; payload := Some (JStr "ok") |} /\
  fst (getVoiceInfo (Cases.answering (JStr "ok"))) = Returned (JStr "ok").
Proof.
  split; [apply answering_answersNext |].
  destruct (wrappers_pass_json_through (Cases.answering (JStr "ok"))
              {| status := 200; payload := Some (JStr "ok") |} (JStr "ok")
              "" "" "" "" "" None None None Scenario.clip Scenario.noMetadata
              None None None (answering_answersNext _) eq_refl eq_refl)
    as (_ & _ & H & _).
  exact H.
Defined.

(** X7: whatever the server answers, every wrapper sends exactly one
    request. *)
Theorem wrappers_send_one_request (n : Net)
    (message conversationId text recordingId agentId : string)
    (options : option ChatOptions) (agent : option string)
    (returnBase64 : option bool) (audioBlob : Blob)
    (metadata : RecordingMetadata) (cid uid : option string) (limit : option Q) :
  Forall (fun n' => length (sent n') = S (length (sent n)))
    [ snd (callChatAPI message conversationId options n);
      snd (synthesizeVoice text agent returnBase64 n);
      snd (getVoiceInfo n);
      snd (uploadAudio audioBlob n);
      snd (saveRecording audioBlob metadata n);
      snd (listRecordings cid uid limit n);
      snd (getRecording recordingId n);
      snd (deleteRecording recordingId n);
      snd (getElevenLabsConfig n);
      snd (getElevenLabsSignedUrl agentId n) ].
Proof.
  repeat constructor;
    (unfold callChatAPI, synthesizeVoice, getVoiceInfo, uploadAudio,
       saveRecording, listRecordings, getRecording, deleteRecording,
       getElevenLabsConfig, getElevenLabsSignedUrl;
     rewrite wrapper_sends_once, length_app; simpl; lia).
Qed.

Lemma appendStr_present (name : string) (v : option string) :
  appendStr name (Cases.presentStr v) = appendStr name v.
Proof.
  unfold Cases.presentStr, appendStr.
  destruct v as [x|]; [| reflexivity].
  destruct (truthyStr (Some x)) eqn:Ht; [rewrite Ht |]; reflexivity.
Qed.

Lemma appendNum_present (name : string) (v : option Q) :
  appendNum name (Cases.presentNum v) = appendNum name v.
Proof.
  unfold Cases.presentNum, appendNum.
  destruct v as [x|]; [| reflexivity].
  destruct (truthyNum (Some x)) eqn:Ht; [rewrite Ht |]; reflexivity.
Qed.

Lemma paramStr_present (name : string) (v : option string) :
  paramStr name (Cases.presentStr v) = paramStr name v.
Proof.
  unfold Cases.presentStr, paramStr.
  destruct v as [x|]; [| reflexivity].
  destruct (truthyStr (Some x)) eqn:Ht; [rewrite Ht |]; reflexivity.
Qed.

Lemma paramNum_present (name : string) (v : option Q) :
  paramNum name (Cases.presentNum v) = paramNum name v.
Proof.
  unfold Cases.presentNum, paramNum.
  destruct v as [x|]; [| reflexivity].
  destruct (truthyNum (Some x)) eqn:Ht; [rewrite Ht |]; reflexivity.
Qed.

(** X8: [saveRecording] and [listRecordings] treat a falsy optional
    value as absent: an empty string, a zero duration, a zero confidence
    score or a zero limit is left out of the request, so the call is the
    same as without it. *)
Theorem falsy_fields_are_left_out (audioBlob : Blob) (metadata : RecordingMetadata)
    (cid uid : option string) (limit : option Q) (n : Net) :
  saveRecording audioBlob metadata n
    = saveRecording audioBlob (Cases.presentMetadata metadata) n /\
  listRecordings cid uid limit n
    = listRecordings (Cases.presentStr cid) (Cases.presentStr uid)
                     (Cases.presentNum limit) n /\
  saveRecording audioBlob Cases.blankMetadata n
    = saveRecording audioBlob
        {| conversationId := Some "c1"; md_userId := None; transcript := None;
           agentResponse := None; duration := None; confidenceScore := None;
           language := Some "en-US" |} n.
Proof.
  split; [| split].
  - unfold saveRecording, Cases.presentMetadata. cbn [conversationId md_userId
      transcript agentResponse duration confidenceScore language].
    rewrite !appendStr_present, !appendNum_present. reflexivity.
  - unfold listRecordings.
    rewrite !paramStr_present, paramNum_present. reflexivity.
  - reflexivity.
Qed.

End ApiMoreFacts.

Section UseVoiceMoreFacts.
Import Js Async UseVoice Microphone.
Local Open Scope prog_scope.

Lemma no_live_track_after_stop (tracks : list bool) :
  existsb id ((fun _ : bool => false) <$> tracks) = false.
Proof. induction tracks as [|t tracks IH]; [reflexivity | exact IH]. Qed.

Lemma startRecording_returns (env : StartEnv) (w : World) :
  result (startRecording env) w = Returned tt.
Proof.
  unfold result, startRecording, bind, get.
  destruct (negb (isClient w) || negb (mediaDevices env)); [reflexivity |].
  unfold tryCatch.
  match goal with
  | |- context [match ?body with _ => _ end] => destruct body as [[[]|e] w1]
  end; reflexivity.
Qed.

(** X9: [startRecording] never throws, and where recording is not
    supported (before the client mount effect, or without
    [navigator.mediaDevices]) all it does is set the error message: the
    voice state stays what it was and no stream is asked for. *)
Theorem startRecording_unsupported (env : StartEnv) (w : World) :
  result (startRecording env) w = Returned tt /\
  (isClient w = false \/ mediaDevices env = false ->
   exec (startRecording env) w
     = set_error (Some "Recording not supported in this environment") w).
Proof.
  split; [apply startRecording_returns |].
  intros Hno. unfold exec, startRecording, bind, get.
  assert (negb (isClient w) || negb (mediaDevices env) = true) as ->
    by (destruct Hno as [-> | ->]; [reflexivity | apply orb_true_r]).
  reflexivity.
Qed.

Lemma startRecording_unsupported_witness :
  let w := UseVoice.set_isClient false UseVoice.mounted in
  UseVoice.isClient w = false /\
  UseVoice.exec (UseVoice.startRecording Scenario.granted) w
    = UseVoice.set_error (Some "Recording not supported in this environment") w.
Proof.
  cbv zeta. split; [reflexivity |].
  exact (proj2 (startRecording_unsupported Scenario.granted
                  (UseVoice.set_isClient false UseVoice.mounted))
               (or_introl eq_refl)).
Defined.

(** X10: when the microphone is refused, the hook goes to the error state
    with its message, and nothing was acquired: the streams, the stream ref
    and the recorder are as before. *)
Theorem startRecording_denied (env : StartEnv) (w : World) :
  isClient w = true -> mediaDevices env = true -> userMedia env = None ->
  let w' := exec (startRecording env) w in
  voiceState w' = st_error /\
  error w' = Some "Microphone access denied or not available" /\
  streams w' = streams w /\
  streamRef w' = streamRef w /\
  mediaRecorderRef w' = mediaRecorderRef w /\
  microphoneBusy w' = microphoneBusy w.
Proof.
  intros Hclient Hmedia Hdenied. cbv zeta.
  unfold exec, startRecording, bind, get. rewrite Hclient, Hmedia. cbn [negb orb].
  unfold tryCatch, bind, initializeAudioContext, tryCatch, bind, get, getUserMedia.
  rewrite Hdenied.
  destruct (audioContextRef w) as [ctx|] eqn:Hctx; cbn; rewrite ?Hctx; cbn;
    [| destruct (audioContext env); cbn ];
    repeat split.
Qed.

Lemma startRecording_denied_witness :
  (isClient mounted = true /\ mediaDevices Scenario.granted = true) /\
  voiceState (exec (startRecording
                      {| mediaDevices := true; audioContext := ContextCreated;
                         userMedia := None; importRecordRTC := true;
                         recorderConstructs := true; now := 0;
                         seenVoiceState := st_idle; frequency := [] |}) mounted)
    = st_error.
Proof.
  split; [split; reflexivity |].
  destruct (startRecording_denied
              {| mediaDevices := true; audioContext := ContextCreated;
                 userMedia := None; importRecordRTC := true;
                 recorderConstructs := true; now := 0;
                 seenVoiceState := st_idle; frequency := [] |} mounted
              eq_refl eq_refl eq_refl) as (H & _).
  exact H.
Defined.

(** The environment lets a recording start. *)
Lemma startRecording_granted_shape (env : StartEnv) (w : World) (tracks : nat) :
  isClient w = true -> mediaDevices env = true -> userMedia env = Some tracks ->
  importRecordRTC env = true -> recorderConstructs env = true ->
  let w' := exec (startRecording env) w in
  voiceState w' = st_recording /\
  streams w' = streams w ++ [replicate tracks true] /\
  streamRef w' = Some (length (streams w)) /\
  mediaRecorderRef w' =
    Some {| recStream := length (streams w); recRecording := true;
            captured := None |} /\
  recordingStartTimeRef w' = Some (now env) /\
  settings w' = settings w /\
  audioElementRef w' = audioElementRef w /\
  objectUrls w' = objectUrls w /\
  net w' = net w.
Proof.
  intros Hclient Hmedia Hgranted Himport Hrec. cbv zeta.
  unfold exec, startRecording, bind, get. rewrite Hclient, Hmedia. cbn [negb orb].
  unfold tryCatch, bind, initializeAudioContext, tryCatch, bind, get, getUserMedia,
    connectAnalyzer, monitorAudioLevel, bind, get.
  rewrite Hgranted, Himport, Hrec.
  destruct (audioContextRef w) as [ctx|] eqn:Hctx;
    destruct (audioContext env) eqn:Hac;
    destruct (analyzerRef w) as [an|] eqn:Han;
    destruct (seenVoiceState env) eqn:Hseen;
    repeat (progress (cbn; rewrite ?Hctx, ?Han));
    repeat split.
Qed.

(** X11: a start that succeeds puts the hook in the recording state with
    a recorder on the newly acquired stream, whose tracks are live, and the
    start time taken from the clock; settings, playback and network are
    untouched. *)
Theorem startRecording_granted (env : StartEnv) (w : World) (tracks : nat) :
  isClient w = true -> mediaDevices env = true -> userMedia env = Some tracks ->
  importRecordRTC env = true -> recorderConstructs env = true ->
  let w' := exec (startRecording env) w in
  voiceState w' = st_recording /\
  streams w' = streams w ++ [replicate tracks true] /\
  streamRef w' = Some (length (streams w)) /\
  mediaRecorderRef w' =
    Some {| recStream := length (streams w); recRecording := true;
            captured := None |} /\
  recordingStartTimeRef w' = Some (now env) /\
  (tracks <> 0%nat -> microphoneBusy w' = true) /\
  settings w' = settings w /\
  audioElementRef w' = audioElementRef w /\
  net w' = net w.
Proof.
  intros Hclient Hmedia Hgranted Himport Hrec.
  destruct (startRecording_granted_shape env w tracks Hclient Hmedia Hgranted
              Himport Hrec) as (Hv & Hs & Hsr & Hmr & Ht & Hset & Ha & _ & Hn).
  cbv zeta. repeat split; try assumption.
  intros Htracks. unfold microphoneBusy. rewrite Hs, existsb_app.
  destruct tracks as [|k]; [congruence |]. cbn. apply orb_true_r.
Qed.

Lemma startRecording_granted_witness :
  (isClient mounted = true /\ mediaDevices Scenario.granted = true /\
   userMedia Scenario.granted = Some 1%nat) /\
  voiceState (exec (startRecording Scenario.granted) mounted) = st_recording /\
  streams (exec (startRecording Scenario.granted) mounted) = [[true]].
Proof.
  split; [repeat split |].
  destruct (startRecording_granted Scenario.granted mounted 1
              eq_refl eq_refl eq_refl eq_refl eq_refl) as (Hv & Hs & _).
  split; [exact Hv | exact Hs].
Defined.

(** What [stopRecording] does to the hook when a recorder is stored. *)
Lemma stopRecording_cleanup (endTime : Z) (w : World) (r : Recorder) :
  mediaRecorderRef w = Some r ->
  let w' := exec (stopRecording endTime) w in
  voiceState w' = st_idle /\
  audioLevel w' = 0%Q /\
  streamRef w' = None /\
  recordingStartTimeRef w' = None /\
  streams w' = match streamRef w with
               | Some stream => alter (fmap (fun _ => false)) stream (streams w)
               | None => streams w
               end /\
  voiceEnabled w' = voiceEnabled w /\
  settings w' = settings w /\
  audioElementRef w' = audioElementRef w /\
  objectUrls w' = objectUrls w.
Proof.
  intros Hr. unfold exec, stopRecording, bind, get. rewrite Hr.
  destruct (streamRef w) as [stream|] eqn:Hsr, (animationFrameRef w) as [frame|],
    (captured r) as [blob|];
    try destruct (frame =? 0)%nat;
    cbn; unfold tryCatch, bind, onNet, zoom; cbn;
    repeat match goal with
           | |- context [Api.saveRecording ?b ?m ?n] =>
               destruct (Api.saveRecording b m n) as [[?|?] ?]
           end;
    cbn; rewrite ?Hsr; repeat split.
Qed.

(** X12: a recording that was started and is then stopped leaves the
    microphone as it found it: the tracks of the stream it acquired are
    stopped, the stream ref is cleared, the level is reset and the hook is
    idle again. *)
Theorem start_then_stop_releases_microphone
    (env : StartEnv) (endTime : Z) (w : World) (tracks : nat) :
  isClient w = true -> mediaDevices env = true -> userMedia env = Some tracks ->
  importRecordRTC env = true -> recorderConstructs env = true ->
  let w' := exec (stopRecording endTime) (exec (startRecording env) w) in
  streams w' = streams w ++ [replicate tracks false] /\
  microphoneBusy w' = microphoneBusy w /\
  streamRef w' = None /\
  voiceState w' = st_idle /\
  audioLevel w' = 0%Q.
Proof.
  intros Hclient Hmedia Hgranted Himport Hrec.
  destruct (startRecording_granted_shape env w tracks Hclient Hmedia Hgranted
              Himport Hrec) as (_ & Hs & Hsr & Hmr & _).
  destruct (stopRecording_cleanup endTime _ _ Hmr)
    as (Hv & Hl & Hsr' & _ & Hs' & _).
  cbv zeta in *.
  assert (streams (exec (stopRecording endTime) (exec (startRecording env) w))
          = streams w ++ [replicate tracks false]) as Hfinal.
  { rewrite Hs', Hsr, Hs.
    replace (length (streams w)) with (length (streams w) + 0)%nat by lia.
    rewrite alter_app_r. cbn. f_equal. f_equal.
    clear. induction tracks as [|k IH]; [reflexivity | cbn; f_equal; exact IH]. }
  repeat split; try assumption.
  unfold microphoneBusy. rewrite Hfinal, existsb_app. cbn.
  replace (existsb id (replicate tracks false)) with false
    by (clear; induction tracks; [reflexivity | assumption]).
  rewrite !orb_false_r. reflexivity.
Qed.

Lemma start_then_stop_releases_microphone_witness :
  (isClient mounted = true /\ userMedia Scenario.granted = Some 1%nat) /\
  microphoneBusy (exec (stopRecording 1700000002000)
                    (exec (startRecording Scenario.granted) mounted)) = false.
Proof.
  split; [split; reflexivity |].
  destruct (start_then_stop_releases_microphone Scenario.granted 1700000002000
              mounted 1 eq_refl eq_refl eq_refl eq_refl eq_refl) as (_ & H & _).
  exact H.
Defined.

Lemma saveRecording_sent (blob : Api.Blob) (m : Api.RecordingMetadata) (n : Api.Net) :
  exists req,
    Api.sent (snd (Api.saveRecording blob m n)) = Api.sent n ++ [req] /\
    Api.method req = "POST" /\ Api.path req = "/recordings/save".
Proof.
  unfold Api.saveRecording. eexists. split; [apply wrapper_sends_once |].
  split; reflexivity.
Qed.

(** X13: with a recorder that has captured audio, [stopRecording]
    always uploads, and a failed upload does not cost the audio.  The
    callback is created once and reads the settings of the first render,
    so the current [saveRecordings] setting has no effect: exactly one
    request, the POST to /recordings/save, is sent.  For each way that
    request can be answered or rejected (an unparsable answer included)
    the call resolves to the captured audio.  A request that is never
    answered is not a run of this embedding. *)
Theorem stopRecording_returns_blob_and_uploads
    (endTime : Z) (w : World) (r : Recorder) (blob : Api.Blob) :
  mediaRecorderRef w = Some r -> captured r = Some blob ->
  result (stopRecording endTime) w = Returned (Some {| audioBlob := blob |}) /\
  exists req,
    Api.sent (net (exec (stopRecording endTime) w)) = Api.sent (net w) ++ [req] /\
    Api.method req = "POST" /\ Api.path req = "/recordings/save".
Proof.
  intros Hr Hcap. unfold result, exec, stopRecording, bind, get. rewrite Hr, Hcap.
  destruct (streamRef w) as [stream|], (animationFrameRef w) as [frame|];
    try destruct (frame =? 0)%nat;
    cbn; unfold tryCatch, bind, onNet, zoom; cbn;
    match goal with
    | |- context [Api.saveRecording ?b ?m ?n] =>
        destruct (saveRecording_sent b m n) as (req & Hone & Hpost & Hpath);
        destruct (Api.saveRecording b m n) as [[?|?] ?]
    end;
    cbn in *; (split; [reflexivity |]);
    exists req; (split; [exact Hone |]); split; assumption.
Qed.

Lemma stopRecording_returns_blob_and_uploads_witness :
  let w := exec (updateSettings
                   {| p_mode := None; p_volume := None;
                      p_enableVoiceActivity := None; p_selectedVoice := None;
                      p_autoPlayResponses := None; p_noiseSuppressionLevel := None;
                      p_saveRecordings := Some false;
                      p_userId := None; p_conversationId := None |})
                Scenario.recordingWorld in
  saveRecordings (settings w) = false /\
  length (Api.sent (net (exec (stopRecording 1700000002000) w))) = 1%nat.
Proof.
  cbv zeta. split; [reflexivity |].
  destruct (stopRecording_returns_blob_and_uploads 1700000002000
              (exec (updateSettings
                       {| p_mode := None; p_volume := None;
                          p_enableVoiceActivity := None; p_selectedVoice := None;
                          p_autoPlayResponses := None;
                          p_noiseSuppressionLevel := None;
                          p_saveRecordings := Some false;
                          p_userId := None; p_conversationId := None |})
                    Scenario.recordingWorld)
              {| recStream := 0; recRecording := true;
                 captured := Some {| Api.blobBytes := [1; 2; 3];
                                     Api.blobType := "audio/webm" |} |}
              {| Api.blobBytes := [1; 2; 3]; Api.blobType := "audio/webm" |}
              eq_refl eq_refl) as (_ & req & Hsent & _).
  rewrite Hsent. reflexivity.
Defined.

Lemma startRecording_level (env : StartEnv) (w : World) :
  seenVoiceState env <> st_recording ->
  audioLevel (exec (startRecording env) w) = audioLevel w /\
  animationFrameRef (exec (startRecording env) w) = animationFrameRef w.
Proof.
  intros Hseen.
  unfold exec, startRecording, initializeAudioContext, getUserMedia,
    connectAnalyzer, monitorAudioLevel, tryCatch, bind, get.
  destruct (isClient w), (mediaDevices env); cbn; try (split; reflexivity).
  destruct (audioContextRef w) as [ctx|] eqn:Hctx;
    destruct (audioContext env) eqn:Hac;
    destruct (userMedia env) as [tracks|];
    destruct (analyzerRef w) as [an|] eqn:Han;
    destruct (importRecordRTC env), (recorderConstructs env);
    destruct (seenVoiceState env) eqn:Hs; try congruence;
    repeat (progress (cbn; rewrite ?Hctx, ?Han));
    split; reflexivity.
Qed.

(** X14: the level meter does not start from the microphone button.
    [startRecording] calls the [monitorAudioLevel] of the render it was
    created in, whose [voiceState] is the one the handler saw; the
    handlers call [startRecording] only when that is not 'recording', and
    then [updateLevel] does nothing.  So after a click or a press the audio
    level is what it was, or 0 when the click stopped a recording. *)
Theorem handlers_never_measure_level (props : Props) (env : StartEnv) (w : World) :
  seenVoiceState env = voiceState w ->
  audioLevel (exec (handleMouseDown props env) w) = audioLevel w /\
  (audioLevel (exec (handleMicrophoneClick props env) w) = audioLevel w \/
   audioLevel (exec (handleMicrophoneClick props env) w) = 0%Q).
Proof.
  intros Hseen. split.
  - unfold exec, handleMouseDown, bind, get.
    destruct (isPushToTalk w && negb (isRecording w) && voiceEnabled w
              && negb (disabled props)) eqn:Hgo; [| reflexivity].
    assert (seenVoiceState env <> st_recording) as Hnot.
    { rewrite Hseen. unfold isRecording in Hgo.
      destruct (voiceState w); try discriminate.
      rewrite andb_false_r in Hgo. discriminate. }
    pose proof (startRecording_level env w Hnot) as [Hl _].
    unfold exec in Hl. destruct (startRecording env w) as [[u|e] w1]; exact Hl.
  - unfold exec, handleMicrophoneClick, bind, get.
    destruct (disabled props || negb (voiceEnabled w)) eqn:Hoff.
    + left. destruct (voiceEnabled w) eqn:Hen; cbn; [reflexivity |].
      unfold toggleVoice, bind, get, modify. rewrite Hen. reflexivity.
    + destruct (isRecording w) eqn:Hrec.
      * destruct (mediaRecorderRef w) as [r|] eqn:Hr.
        -- right. pose proof (stopRecording_cleanup (now env) w r Hr) as (_ & Hl & _).
           unfold exec in Hl.
           destruct (stopRecording (now env) w) as [[v|e] w1]; exact Hl.
        -- left. unfold stopRecording, bind, get. rewrite Hr. reflexivity.
      * left.
        assert (seenVoiceState env <> st_recording) as Hnot.
        { rewrite Hseen. unfold isRecording in Hrec.
          destruct (voiceState w); discriminate. }
        pose proof (startRecording_level env w Hnot) as [Hl _].
        unfold exec in Hl. destruct (startRecording env w) as [[u|e] w1]; exact Hl.
Qed.

Lemma handlers_never_measure_level_witness :
  let props := {| disabled := false; onAudioRecorded := true |} in
  let w := set_voiceEnabled true mounted in
  seenVoiceState Scenario.granted = voiceState w /\
  voiceState (exec (handleMouseDown props Scenario.granted) w) = st_recording /\
  audioLevel (exec (handleMouseDown props Scenario.granted) w) = audioLevel w.
Proof.
  cbv zeta. split; [reflexivity |]. split; [reflexivity |].
  apply (handlers_never_measure_level
           {| disabled := false; onAudioRecorded := true |} Scenario.granted
           (set_voiceEnabled true mounted) eq_refl).
Defined.

Lemma playAudio_returns (audioData : AudioData) (playResolves : bool) (w : World) :
  result (playAudio audioData playResolves) w = Returned tt.
Proof.
  unfold result, playAudio, bind, get.
  destruct (negb (isClient w)); [reflexivity |].
  unfold tryCatch.
  match goal with
  | |- context [match ?body with _ => _ end] => destruct body as [[[]|e] w1]
  end; reflexivity.
Qed.

(** X15: a captured clip that is played to its end leaves no object URL
    behind: the URL that [playAudio] registered for it is the one [onended]
    revokes, and the hook is idle again. *)
Theorem blob_played_to_end_is_revoked (blob : Api.Blob) (w : World) :
  isClient w = true -> 0 <= volume (settings w) <= 100 ->
  nextUrl w ∉ objectUrls w ->
  let w1 := exec (playAudio (BlobData blob) true) w in
  let w2 := exec ended w1 in
  voiceState w1 = st_playing /\
  objectUrls w1 = {[nextUrl w]} ∪ objectUrls w /\
  objectUrls w2 = objectUrls w /\
  voiceState w2 = st_idle.
Proof.
  intros Hclient Hv Hfresh. cbv zeta.
  assert (Qle_bool 0 (inject_Z (volume (settings w)) / 100)
          && Qle_bool (inject_Z (volume (settings w)) / 100) 1 = true) as Hrange.
  { apply andb_true_intro. split; apply Qle_bool_iff;
      unfold Qle, Qdiv, Qmult, inject_Z, Qinv; simpl; lia. }
  unfold exec, ended, playAudio, bind, get. rewrite Hclient. cbn.
  destruct (audioElementRef w) as [a|] eqn:Ha;
    cbn; unfold tryCatch, bind, setVolume, get, modify; cbn;
    rewrite Hrange; unfold withAudio, createObjectURL, play, modify, bind, get;
    cbn; rewrite ?Ha; cbn;
    (split; [reflexivity |]); (split; [reflexivity |]);
    (split; [| reflexivity]);
    rewrite difference_union_distr_l_L, difference_diag_L, union_empty_l_L;
    apply difference_disjoint_L, disjoint_singleton_r, Hfresh.
Qed.

Lemma blob_played_to_end_is_revoked_witness :
  (isClient mounted = true /\ 0 <= volume (settings mounted) <= 100 /\
   nextUrl mounted ∉ objectUrls mounted) /\
  objectUrls (exec ended (exec (playAudio (BlobData Scenario.clip) true) mounted))
    = objectUrls mounted.
Proof.
  assert (nextUrl mounted ∉ objectUrls mounted) as Hfresh by set_solver.
  split; [split; [reflexivity | split; [cbn; lia | exact Hfresh]] |].
  destruct (blob_played_to_end_is_revoked Scenario.clip mounted eq_refl
              ltac:(cbn; lia) Hfresh) as (_ & _ & H & _).
  exact H.
Defined.

Lemma volume_out_of_range (v : Z) :
  ~ (0 <= v <= 100) ->
  Qle_bool 0 (inject_Z v / 100) && Qle_bool (inject_Z v / 100) 1 = false.
Proof.
  intros Hv. apply andb_false_iff.
  destruct (Z.lt_ge_cases v 0) as [Hneg | Hpos].
  - left. apply not_true_is_false. rewrite Qle_bool_iff.
    unfold Qle, Qdiv, Qmult, inject_Z, Qinv; simpl. lia.
  - right. apply not_true_is_false. rewrite Qle_bool_iff.
    unfold Qle, Qdiv, Qmult, inject_Z, Qinv; simpl. lia.
Qed.

(** X16: [playAudio] never throws; a base64 payload never registers an
    object URL; when [play()] is refused the hook ends in the error state
    with 'Audio playback failed'; and so it does when the volume setting
    is outside 0..100, where the assignment to [audio.volume] throws
    before [play()] is reached and the element stays paused. *)
Theorem playAudio_failure_modes
    (audioData : AudioData) (base64 : string) (playResolves : bool) (w : World) :
  result (playAudio audioData playResolves) w = Returned tt /\
  objectUrls (exec (playAudio (Base64 base64) playResolves) w) = objectUrls w /\
  (isClient w = true -> playResolves = false ->
   voiceState (exec (playAudio audioData playResolves) w) = st_error /\
   error (exec (playAudio audioData playResolves) w) = Some "Audio playback failed") /\
  (isClient w = true -> ~ (0 <= volume (settings w) <= 100) ->
   voiceState (exec (playAudio audioData playResolves) w) = st_error /\
   error (exec (playAudio audioData playResolves) w) = Some "Audio playback failed" /\
   (paused <$> audioElementRef (exec (playAudio audioData playResolves) w))
     = Some true) /\
  (isClient w = false -> exec (playAudio audioData playResolves) w = w).
Proof.
  split; [apply playAudio_returns |].
  split; [| split; [| split]].
  - unfold exec, playAudio, bind, get.
    destruct (isClient w); cbn; [| reflexivity].
    destruct (audioElementRef w) as [a|] eqn:Ha;
      cbn; unfold tryCatch, bind, setVolume, get, modify; cbn;
      destruct (Qle_bool 0 (inject_Z (volume (settings w)) / 100)
                && Qle_bool (inject_Z (volume (settings w)) / 100) 1);
      unfold withAudio, play, modify, bind, get; cbn;
      destruct playResolves; reflexivity.
  - intros Hclient ->. unfold exec, playAudio, bind, get. rewrite Hclient. cbn.
    destruct (audioElementRef w) as [a|] eqn:Ha, audioData as [b64|blob];
      cbn; unfold tryCatch, bind, setVolume, get, modify; cbn;
      destruct (Qle_bool 0 (inject_Z (volume (settings w)) / 100)
                && Qle_bool (inject_Z (volume (settings w)) / 100) 1);
      unfold withAudio, createObjectURL, play, modify, bind, get; cbn;
      split; reflexivity.
  - intros Hclient Hv. pose proof (volume_out_of_range _ Hv) as Hr.
    unfold exec, playAudio, bind, get. rewrite Hclient. cbn.
    destruct (audioElementRef w) as [a|] eqn:Ha, audioData as [b64|blob];
      cbn; unfold tryCatch, bind, setVolume, get, modify; cbn;
      rewrite Hr; unfold withAudio, createObjectURL, modify, bind, get; cbn;
      rewrite ?Ha; repeat split.
  - intros Hclient. unfold exec, playAudio, bind, get. rewrite Hclient. reflexivity.
Qed.

Lemma playAudio_failure_modes_witness :
  let loud := exec (updateSettings (Scenario.volumeTo 150)) mounted in
  isClient mounted = true /\
  voiceState (exec (playAudio (Base64 "SUQz") false) mounted) = st_error /\
  ~ (0 <= volume (settings loud) <= 100) /\
  error (exec (playAudio (Base64 "SUQz") true) loud) = Some "Audio playback failed".
Proof.
  cbv zeta. split; [reflexivity |].
  destruct (playAudio_failure_modes (Base64 "SUQz") "" false mounted)
    as (_ & _ & H & _).
  destruct (H eq_refl eq_refl) as [Hv _]. split; [exact Hv |].
  assert (~ (0 <= volume (settings (exec (updateSettings (Scenario.volumeTo 150))
                                      mounted)) <= 100)) as Hloud
    by (cbn; lia).
  split; [exact Hloud |].
  destruct (playAudio_failure_modes (Base64 "SUQz") "" true
              (exec (updateSettings (Scenario.volumeTo 150)) mounted))
    as (_ & _ & _ & H' & _).
  destruct (H' eq_refl Hloud) as (_ & He & _). exact He.
Defined.

(** X17: turning voice off while a recording is running stops the
    recording: the tracks of the recorded stream are stopped, the stream
    ref is cleared and the hook is idle with voice disabled. *)
Theorem toggleVoice_off_releases_microphone
    (endTime : Z) (w : World) (r : Recorder) (stream : nat) (tracks : list bool) :
  voiceEnabled w = true -> mediaRecorderRef w = Some r ->
  streamRef w = Some stream -> streams w !! stream = Some tracks ->
  let w' := exec (toggleVoice endTime) w in
  voiceEnabled w' = false /\
  streams w' !! stream = Some ((fun _ => false) <$> tracks) /\
  streamRef w' = None /\
  voiceState w' = st_idle.
Proof.
  intros Hen Hr Hsr Htracks. cbv zeta.
  pose proof (stopRecording_cleanup endTime (set_voiceEnabled false w) r Hr)
    as (Hv & _ & Hsr' & _ & Hs & Hen' & _).
  unfold exec in *.
  change (streamRef (set_voiceEnabled false w)) with (streamRef w) in Hs.
  change (streams (set_voiceEnabled false w)) with (streams w) in Hs.
  change (voiceEnabled (set_voiceEnabled false w)) with false in Hen'.
  rewrite Hsr in Hs.
  assert (toggleVoice endTime w
          = bind (stopRecording endTime) (fun _ => stopPlayback)
                 (set_voiceEnabled false w)) as ->.
  { unfold toggleVoice, bind at 1 2, get, modify. rewrite Hen. reflexivity. }
  unfold bind.
  destruct (stopRecording endTime (set_voiceEnabled false w)) as [[v|e] w1];
    cbn [snd] in Hv, Hsr', Hs, Hen'.
  - unfold stopPlayback, bind, get.
    destruct (audioElementRef w1) as [a|] eqn:Ha1; cbn;
      rewrite ?Hs, ?list_lookup_alter, ?Htracks, ?decide_True by reflexivity;
      repeat split; assumption.
  - cbn. rewrite Hs, list_lookup_alter, Htracks, decide_True by reflexivity.
    repeat split; assumption.
Qed.

Lemma toggleVoice_off_releases_microphone_witness :
  let w := set_voiceEnabled true Scenario.recordingWorld in
  (voiceEnabled w = true /\ streamRef w = Some 0%nat /\
   streams w !! 0%nat = Some [true]) /\
  microphoneBusy (exec (toggleVoice 1700000002000) w) = false.
Proof.
  cbv zeta. split; [repeat split |].
  destruct (toggleVoice_off_releases_microphone 1700000002000
              (set_voiceEnabled true Scenario.recordingWorld)
              {| recStream := 0; recRecording := true;
                 captured := Some {| Api.blobBytes := [1; 2; 3];
                                     Api.blobType := "audio/webm" |} |}
              0%nat [true] eq_refl eq_refl eq_refl eq_refl) as (_ & _ & _ & _).
  reflexivity.
Defined.

(** X18: with voice turned off, a click on the microphone only turns
    voice on (even on a disabled button): no recording starts and nothing
    else changes; in any mode other than push-to-talk, pressing and
    releasing the button do nothing. *)
Theorem click_with_voice_off_only_enables (props : Props) (env : StartEnv) (w : World) :
  (voiceEnabled w = false ->
   handleMicrophoneClick props env w = (Returned [], set_voiceEnabled true w)) /\
  (mode (settings w) <> push_to_talk ->
   handleMouseDown props env w = (Returned [], w) /\
   handleMouseUp props env w = (Returned [], w)).
Proof.
  split.
  - intros Hoff. unfold handleMicrophoneClick, toggleVoice, bind, get, modify.
    rewrite Hoff. rewrite orb_true_r. cbn [negb]. rewrite Hoff. reflexivity.
  - intros Hmode. unfold handleMouseDown, handleMouseUp, bind, get, isPushToTalk.
    destruct (mode (settings w)); try congruence; split; reflexivity.
Qed.

Lemma click_with_voice_off_only_enables_witness :
  voiceEnabled mounted = false /\
  handleMicrophoneClick {| disabled := true; onAudioRecorded := false |}
    Scenario.granted mounted = (Returned [], set_voiceEnabled true mounted).
Proof.
  split; [reflexivity |].
  destruct (click_with_voice_off_only_enables
              {| disabled := true; onAudioRecorded := false |}
              Scenario.granted mounted) as [H _].
  apply H. reflexivity.
Defined.

End UseVoiceMoreFacts.

Section PlaybackMoreFacts.
Import Js Async Playback PlaybackMore.
Local Open Scope prog_scope.

Lemma volume_in_range (v : Z) :
  0 <= v <= 100 ->
  Qle_bool 0 (inject_Z v / 100) && Qle_bool (inject_Z v / 100) 1 = true.
Proof.
  intros Hv. apply andb_true_intro. split; apply Qle_bool_iff;
    unfold Qle, Qdiv, Qmult, inject_Z, Qinv; simpl; lia.
Qed.

(** X19: the audio element always mirrors the controls of the player.
    Loading a payload creates the element with the volume, mute flag and
    rate of the component, and the volume slider (0..100), the mute button,
    the rate menu and the transport buttons keep them equal. *)
Theorem element_mirrors_controls
    (s : State) (props : Props) (audioData : option UseVoice.AudioData)
    (autoPlay playResolves : bool) (newVolume : Z) (rate : Q) :
  0 <= volume s <= 100 -> 0 <= newVolume <= 100 ->
  (noPayload audioData = false ->
   mirrors (snd (load audioData autoPlay playResolves s))) /\
  (mirrors s ->
   mirrors (snd (handleVolumeChange newVolume s)) /\
   mirrors (snd (toggleMute s)) /\
   mirrors (snd (handlePlaybackRateChange rate s)) /\
   mirrors (snd (handlePlay props playResolves s)) /\
   mirrors (snd (handlePause props s)) /\
   mirrors (snd (handleStop props s)) /\
   mirrors (snd (ended props s))).
Proof.
  intros Hv Hnew.
  pose proof (volume_in_range _ Hv) as Hr.
  pose proof (volume_in_range _ Hnew) as Hrn.
  split.
  - intros Hpayload. unfold load. rewrite Hpayload.
    unfold bind, get, modify, withElement, createObjectURL, play, bind, get, modify.
    destruct audioData as [[b64|blob]|]; cbn; rewrite Hr; cbn;
      destruct autoPlay, playResolves; cbn; repeat split.
  - unfold mirrors. intros Hm.
    unfold handleVolumeChange, toggleMute, handlePlaybackRateChange, handlePlay,
      handlePause, handleStop, ended, pause, play, withElement, bind, get, modify.
    destruct (audioRef s) as [a|] eqn:Ha; cbn; rewrite ?Ha; cbn;
      [| rewrite ?Ha; repeat split].
    destruct Hm as (Hvol & Hmut & Hrate).
    rewrite Hrn. destruct (el_paused a) eqn:Hp, playResolves;
      cbn; rewrite ?Ha, ?Hp; cbn; repeat split; assumption.
Qed.

Lemma element_mirrors_controls_witness :
  (0 <= volume Cases.loadedPlayback <= 100 /\ 0 <= 30 <= 100 /\
   mirrors Cases.loadedPlayback) /\
  mirrors (snd (handleVolumeChange 30 Cases.loadedPlayback)).
Proof.
  assert (mirrors Cases.loadedPlayback) as Hm by (repeat split).
  assert (0 <= volume Cases.loadedPlayback <= 100) as Hv
    by (change (volume Cases.loadedPlayback) with 80; lia).
  split; [split; [exact Hv | split; [lia | exact Hm]] |].
  destruct (element_mirrors_controls Cases.loadedPlayback Scenario.allProps
              None false false 30 1 Hv ltac:(lia)) as [_ H].
  destruct (H Hm) as [Hvol _]. exact Hvol.
Defined.

(** X20: the player revokes the object URLs it registers.  A blob
    payload that is loaded and then cleaned up (replaced or unmounted)
    leaves the set of object URLs as it was, and [audioRef] is cleared; a
    download registers a URL and revokes it at once.  Whether the element
    that the cleanup drops is still playing is not part of the
    statement. *)
Theorem player_revokes_its_urls
    (s : State) (blob : Api.Blob) (autoPlay playResolves : bool) :
  0 <= volume s <= 100 -> nextUrl s ∉ objectUrls s ->
  let loaded := snd (load (Some (UseVoice.BlobData blob)) autoPlay playResolves s) in
  objectUrls loaded = {[nextUrl s]} ∪ objectUrls s /\
  objectUrls (snd (cleanup loaded)) = objectUrls s /\
  audioRef (snd (cleanup loaded)) = None /\
  objectUrls (snd (handleDownload (UseVoice.BlobData blob) s)) = objectUrls s.
Proof.
  intros Hv Hfresh. cbv zeta.
  pose proof (volume_in_range _ Hv) as Hr.
  assert (({[nextUrl s]} ∪ objectUrls s) ∖ {[nextUrl s]} = objectUrls s) as Hback.
  { rewrite difference_union_distr_l_L, difference_diag_L, union_empty_l_L.
    apply difference_disjoint_L, disjoint_singleton_r, Hfresh. }
  unfold load, cleanup, handleDownload, noPayload,
    bind, get, modify, withElement, createObjectURL, play, bind, get, modify.
  cbn. rewrite Hr. cbn.
  destruct autoPlay, playResolves; cbn; rewrite ?Hback; repeat split.
Qed.

Lemma player_revokes_its_urls_witness :
  (0 <= volume Scenario.pausedPlayback <= 100 /\
   nextUrl Scenario.pausedPlayback ∉ objectUrls Scenario.pausedPlayback) /\
  objectUrls (snd (cleanup (snd (load (Some (UseVoice.BlobData Scenario.clip))
                                      false false Scenario.pausedPlayback))))
    = objectUrls Scenario.pausedPlayback.
Proof.
  assert (nextUrl Scenario.pausedPlayback ∉ objectUrls Scenario.pausedPlayback)
    as Hfresh by (cbn; apply not_elem_of_empty).
  split; [split; [cbn; lia | exact Hfresh] |].
  destruct (player_revokes_its_urls Scenario.pausedPlayback Scenario.clip
              false false ltac:(cbn; lia) Hfresh) as (_ & H & _).
  exact H.
Defined.



End PlaybackMoreFacts.

Section TimeFormatFacts.
Import TimeFormat.

Lemma Qfloor_unique (x : Q) (n : Z) :
  (inject_Z n <= x)%Q -> (x < inject_Z (n + 1))%Q -> Qfloor x = n.
Proof.
  intros Hlo Hhi.
  assert (n <= Qfloor x) as H1.
  { rewrite <- (Qfloor_Z n). apply Qfloor_resp_le, Hlo. }
  assert (Qfloor x < n + 1) as H2.
  { pose proof (Qfloor_le x) as Hf.
    assert (inject_Z (Qfloor x) < inject_Z (n + 1))%Q as Hlt
      by (eapply Qle_lt_trans; eassumption).
    unfold Qlt, inject_Z in Hlt. simpl in Hlt. lia. }
  lia.
Qed.

Lemma two_digits (n : nat) :
  (n < 60)%nat -> String.length (padStart2 (pretty (Z.of_nat n))) = 2%nat.
Proof.
  intros Hn.
  do 60 (destruct n as [|n]; [vm_compute; reflexivity |]).
  lia.
Qed.

(** X22: for a time of zero or more seconds, [formatTime] (and
    [formatDuration], which shows '--:--' for a missing or zero duration)
    prints whole minutes, a colon and exactly two digits of seconds; the
    seconds are below 60 and minutes and seconds add up to the whole
    seconds of the time. *)
Theorem formatTime_minutes_and_seconds (time : Q) :
  (0 <= time)%Q ->
  0 <= minutesOf time /\
  0 <= secondsOf time <= 59 /\
  60 * minutesOf time + secondsOf time = Qfloor time /\
  String.length (padStart2 (pretty (secondsOf time))) = 2%nat /\
  formatDuration None = "--:--" /\
  formatDuration (Some 0%Q) = "--:--" /\
  (~ time == 0 -> formatDuration (Some time) = formatTime time)%Q.
Proof.
  intros Htime.
  set (m := minutesOf time). set (k := Qfloor time).
  assert (0 <= time / 60)%Q as Hq.
  { unfold Qdiv. apply Qmult_le_0_compat; [exact Htime | discriminate]. }
  assert (trunc (time / 60) = m) as Htrunc.
  { unfold trunc. apply Qle_bool_iff in Hq. rewrite Hq. reflexivity. }
  assert (0 <= m) as Hm0.
  { unfold m, minutesOf. rewrite <- (Qfloor_Z 0). apply Qfloor_resp_le, Hq. }
  pose proof (Qfloor_le (time / 60)) as Hm1.
  pose proof (Qlt_floor (time / 60)) as Hm2.
  pose proof (Qfloor_le time) as Hk1.
  pose proof (Qlt_floor time) as Hk2.
  fold (minutesOf time) in Hm1, Hm2. fold m in Hm1, Hm2. fold k in Hk1, Hk2.
  rewrite inject_Z_plus in Hm2, Hk2.
  change (inject_Z 1) with 1%Q in Hm2, Hk2.
  assert (rem time 60 == time - 60 * inject_Z m)%Q as Hrem
    by (unfold rem; rewrite Htrunc; reflexivity).
  assert (time == 60 * (time / 60))%Q as Htimes by field.
  remember (inject_Z m) as mq eqn:Emq. remember (inject_Z k) as kq eqn:Ekq.
  assert (60 * mq <= time /\ time < 60 * mq + 60)%Q as [Hlo Hhi].
  { revert Hm1 Hm2 Htimes. generalize (time / 60)%Q. intros q Hm1 Hm2 Htimes.
    split; lra. }
  assert (60 * m < k + 1) as Hmk.
  { rewrite Zlt_Qlt, inject_Z_mult, inject_Z_plus, <- Emq, <- Ekq.
    change (inject_Z 60) with 60%Q. change (inject_Z 1) with 1%Q. lra. }
  assert (k < 60 * m + 60) as Hkm.
  { rewrite Zlt_Qlt, inject_Z_plus, inject_Z_mult, <- Emq, <- Ekq.
    change (inject_Z 60) with 60%Q. lra. }
  assert (secondsOf time = k - 60 * m) as Hsec.
  { unfold secondsOf. rewrite Hrem. apply Qfloor_unique.
    - unfold Z.sub. rewrite inject_Z_plus, inject_Z_opp, inject_Z_mult, <- Emq, <- Ekq.
      change (inject_Z 60) with 60%Q. lra.
    - replace (k - 60 * m + 1) with (k + 1 + - (60 * m)) by lia.
      rewrite !inject_Z_plus, inject_Z_opp, inject_Z_mult, <- Emq, <- Ekq.
      change (inject_Z 60) with 60%Q. change (inject_Z 1) with 1%Q. lra. }
  split; [exact Hm0 |]. split; [lia |]. split; [lia |].
  split.
  - rewrite Hsec. replace (k - 60 * m) with (Z.of_nat (Z.to_nat (k - 60 * m))) by lia.
    apply two_digits. lia.
  - split; [reflexivity |]. split; [reflexivity |].
    intros Hnz. unfold formatDuration.
    destruct (Qeq_bool time 0) eqn:He; [| reflexivity].
    apply Qeq_bool_iff in He. contradiction.
Qed.

Lemma formatTime_minutes_and_seconds_witness :
  (0 <= 7505 # 100)%Q /\
  60 * minutesOf (7505 # 100) + secondsOf (7505 # 100) = Qfloor (7505 # 100) /\
  formatTime (7505 # 100) = "1:15".
Proof.
  split; [discriminate |].
  destruct (formatTime_minutes_and_seconds (7505 # 100)) as (_ & _ & H & _);
    [discriminate |].
  split; [exact H | reflexivity].
Defined.

End TimeFormatFacts.

Section RecordingsFacts.
Import Js Async Recordings.
Local Open Scope prog_scope.

Lemma page_is_take_drop {A} (l : list A) (p : nat) :
  paginatedRecordings l (Z.of_nat (S p)) = take 10 (drop (10 * p) l).
Proof.
  unfold paginatedRecordings, slice, recordingsPerPage.
  replace ((Z.of_nat (S p) - 1) * 10 <? 0) with false
    by (symmetry; apply Z.ltb_ge; lia).
  replace (Z.of_nat (S p) * 10 <? 0) with false
    by (symmetry; apply Z.ltb_ge; lia).
  destruct (Z.le_gt_cases (Z.of_nat (length l)) ((Z.of_nat (S p) - 1) * 10))
    as [Hout|Hin].
  - rewrite !Z.min_r by lia. rewrite !drop_ge by lia.
    rewrite !take_nil. reflexivity.
  - rewrite (Z.min_l ((Z.of_nat (S p) - 1) * 10)) by lia.
    replace (Z.to_nat ((Z.of_nat (S p) - 1) * 10)) with (10 * p)%nat by lia.
    destruct (Z.le_gt_cases (Z.of_nat (S p) * 10) (Z.of_nat (length l)))
      as [Hfull|Hpart].
    + rewrite Z.min_l by lia. f_equal. lia.
    + rewrite Z.min_r by lia.
      rewrite !take_ge; [reflexivity | |]; rewrite length_drop; lia.
Qed.

Lemma pages_concat {A} (n : nat) (l : list A) :
  (length l <= 10 * n)%nat ->
  concat ((fun p => take 10 (drop (10 * p) l)) <$> seq 0 n) = l.
Proof.
  revert l. induction n as [|n IH]; intros l Hlen.
  - destruct l; [reflexivity | simpl in Hlen; lia].
  - cbn [seq fmap list_fmap concat]. rewrite <- fmap_S_seq, <- list_fmap_compose.
    change (take 10 (drop (10 * 0) l)) with (take 10 l).
    transitivity (take 10 l ++ drop 10 l); [| apply take_drop]. f_equal.
    transitivity (concat ((fun p => take 10 (drop (10 * p) (drop 10 l)))
                            <$> seq 0 n));
      [| apply IH; rewrite length_drop; lia].
    f_equal. apply list_fmap_ext. intros i p _. cbn [compose].
    rewrite drop_drop. f_equal. f_equal. lia.
Qed.

Lemma pagesFor_div (n : Z) : pagesFor n = (n + 9) / 10.
Proof.
  unfold pagesFor, recordingsPerPage, Qceiling.
  assert (- (inject_Z n / inject_Z 10) == inject_Z (- n) / inject_Z 10)%Q as E
    by (rewrite inject_Z_opp; field).
  rewrite (Qfloor_comp _ _ E), <- Zdiv_Qdiv.
  apply Z.div_unique with (r := 9 - (- n) mod 10).
  - pose proof (Z.mod_pos_bound (- n) 10 ltac:(lia)). lia.
  - pose proof (Z.div_mod (- n) 10 ltac:(lia)). lia.
Qed.

(** X23: the pages of the recordings list.  Pages 1 to
    ceil(length / 10), one after the other, give back the list with nothing
    lost, repeated or reordered; no page holds more than 10 recordings; and
    the pages after the last one are empty. *)
Theorem pages_partition_the_list {A} (l : list A) (p : Z) :
  concat (paginatedRecordings l <$> seqZ 1 (pagesFor (Z.of_nat (length l)))) = l /\
  (1 <= p -> (length (paginatedRecordings l p) <= 10)%nat) /\
  (pagesFor (Z.of_nat (length l)) < p -> paginatedRecordings l p = []).
Proof.
  rewrite pagesFor_div.
  set (P := (Z.of_nat (length l) + 9) / 10).
  assert (0 <= P) as HP0 by (apply Z.div_pos; lia).
  assert (Z.of_nat (length l) <= 10 * P) as HP.
  { pose proof (Z.div_mod (Z.of_nat (length l) + 9) 10 ltac:(lia)) as Hdm.
    pose proof (Z.mod_pos_bound (Z.of_nat (length l) + 9) 10 ltac:(lia)).
    fold P in Hdm. lia. }
  split; [| split].
  - unfold seqZ. rewrite <- list_fmap_compose.
    rewrite <- (pages_concat (Z.to_nat P) l) at 2 by lia.
    f_equal. apply list_fmap_ext. intros i k _. cbn [compose].
    replace (Z.of_nat k + 1) with (Z.of_nat (S k)) by lia.
    apply page_is_take_drop.
  - intros Hp. replace p with (Z.of_nat (S (Z.to_nat (p - 1)))) by lia.
    rewrite page_is_take_drop, length_take. lia.
  - intros Hp. replace p with (Z.of_nat (S (Z.to_nat (p - 1)))) by lia.
    rewrite page_is_take_drop, drop_ge by lia. reflexivity.
Qed.

Lemma pages_partition_the_list_witness :
  concat (paginatedRecordings (seq 0 23) <$> seqZ 1 3) = seq 0 23 /\
  paginatedRecordings (seq 0 23) 3 = [20; 21; 22]%nat /\
  paginatedRecordings (seq 0 23) 4 = [].
Proof.
  destruct (pages_partition_the_list (seq 0 23) 4) as (H & _ & Hlast).
  split; [exact H |]. split; [reflexivity |].
  apply Hlast. reflexivity.
Defined.

(** X24: the outcomes of [loadRecordings].  With the panel closed nothing
    happens.  With it open the call never throws and sends exactly one
    request, and for each way that request can be answered or rejected it
    ends with the spinner off: a failed request (rejected fetch, non-2xx
    status) shows as an empty list with page count 0 and no error
    message; a JSON array from the server replaces the recordings and
    sets the page count; any other JSON value gives an empty list and
    leaves the page count; a 2xx body that is not JSON gives 'Failed to
    load recordings' and leaves the list and the page count.  An error
    message comes from that last case alone.  A request that is never
    answered is not a run of this embedding. *)
Theorem loadRecordings_outcomes
    (conversationId userId : option string) (w : World) :
  let req :=
    {| Api.method := "GET"; Api.path := "/recordings";
       Api.params := Some (Api.paramStr "conversation_id" conversationId
                           ++ Api.paramStr "user_id" userId
                           ++ Api.paramNum "limit" (Some 100%Q));
       Api.body := Api.NoBody |} in
  let w' := snd (loadRecordings true conversationId userId w) in
  loadRecordings false conversationId userId w = (Returned tt, w) /\
  fst (loadRecordings true conversationId userId w) = Returned tt /\
  Api.sent (net w') = Api.sent (net w) ++ [req] /\
  (Api.refuses (net w) req ->
   loading w' = false /\ recordings w' = [] /\ totalPages w' = 0 /\
   error w' = None) /\
  (forall res items,
     Api.respond (net w) (Api.sent (net w)) req = Api.FetchResolves res ->
     Api.ok res = true -> Api.payload res = Some (JArr items) ->
     loading w' = false /\ recordings w' = items /\
     totalPages w' = pagesFor (Z.of_nat (length items)) /\
     error w' = None) /\
  (forall res j,
     Api.respond (net w) (Api.sent (net w)) req = Api.FetchResolves res ->
     Api.ok res = true -> Api.payload res = Some j ->
     (forall items, j <> JArr items) ->
     loading w' = false /\ recordings w' = [] /\
     totalPages w' = totalPages w /\ error w' = None) /\
  (forall res,
     Api.respond (net w) (Api.sent (net w)) req = Api.FetchResolves res ->
     Api.ok res = true -> Api.payload res = None ->
     loading w' = false /\ recordings w' = recordings w /\
     totalPages w' = totalPages w /\
     error w' = Some "Failed to load recordings") /\
  (error w' <> None ->
   exists res,
     Api.respond (net w) (Api.sent (net w)) req = Api.FetchResolves res /\
     Api.ok res = true /\ Api.payload res = None).
Proof.
  cbv zeta. split; [reflexivity |].
  unfold loadRecordings, bind, modify, tryCatch, onNet, zoom.
  cbn [negb net set_net setLoading setError fst snd].
  unfold Api.listRecordings. rewrite wrapper_run. cbv zeta.
  unfold Api.refuses.
  cbn [net set_net setLoading setError Api.sent Api.respond].
  match goal with
  | |- context [Api.respond (net w) (Api.sent (net w)) ?r] =>
      destruct (Api.respond (net w) (Api.sent (net w)) r) as [|res] eqn:Hres
  end.
  - cbn. repeat split; intros; simplify_eq; repeat split; congruence.
  - destruct (Api.ok res) eqn:Hok.
    + destruct (Api.payload res) as [j|] eqn:Hpay.
      * destruct j; cbn; repeat split; intros; simplify_eq; repeat split;
          try congruence;
          match goal with
          | H : forall items, JArr ?l <> JArr items |- _ => destruct (H l eq_refl)
          end.
      * cbn. repeat split; intros; simplify_eq; repeat split; try congruence.
        eexists; repeat split; eauto.
    + cbn. repeat split; intros; simplify_eq; repeat split; congruence.
Qed.

Lemma loadRecordings_outcomes_witness :
  let w := {| Recordings.recordings := [JNull]; Recordings.loading := false;
              Recordings.error := Some "Failed to load recordings";
              Recordings.currentPage := 1; Recordings.totalPages := 1;
              Recordings.net := Cases.offline |} in
  let w' := snd (Recordings.loadRecordings true None None w) in
  Recordings.loading w' = false /\
  Recordings.recordings w' = [] /\ Recordings.totalPages w' = 0 /\
  Recordings.error w' = None.
Proof.
  cbv zeta.
  exact (proj1 (proj2 (proj2 (proj2
     (loadRecordings_outcomes None None
        {| Recordings.recordings := [JNull]; Recordings.loading := false;
           Recordings.error := Some "Failed to load recordings";
           Recordings.currentPage := 1; Recordings.totalPages := 1;
           Recordings.net := Cases.offline |})))) I).
Defined.

End RecordingsFacts.

Section HybridMoreFacts.
Import Js Async.
Local Open Scope prog_scope.

Ltac destruct_innermost x :=
  lazymatch x with
  | context [match ?y with _ => _ end] => destruct_innermost y
  | _ => destruct x eqn:?
  end.

Ltac split_cases :=
  repeat (cbn;
          match goal with
          | |- context [match ?x with _ => _ end] => destruct_innermost x
          end).

(** What [processVoiceMessage] leaves of the flags, for every way the
    requests it awaits can be answered or rejected. *)
Lemma processVoiceMessage_flags
    (seenConversationId seenAgent : value) (audioBlob : Api.Blob)
    (playResolves : bool) (w : Hybrid.World) :
  let w' := snd (Hybrid.processVoiceMessage seenConversationId seenAgent
                   audioBlob playResolves w) in
  fst (Hybrid.processVoiceMessage seenConversationId seenAgent
         audioBlob playResolves w) = Returned tt /\
  Hybrid.isProcessing (Hybrid.state w') = false /\
  Hybrid.isRecording (Hybrid.state w') = Hybrid.isRecording (Hybrid.state w).
Proof.
  cbv zeta.
  unfold Hybrid.processVoiceMessage, Hybrid.playAudioResponse,
    Hybrid.onNet, Hybrid.setState, Hybrid.setAudio, Hybrid.emit, Hybrid.prop,
    Api.fetch, Api.json_, Js.getProp, when, await, zoom, tryCatch, bind, get,
    modify, ret, throw.
  split_cases; cbn; repeat split.
Qed.

(** X25: a processed turn never throws.  [processVoiceMessage] catches
    whatever its body throws.  For each way the two requests it awaits
    can be answered or rejected, and whether or not the reply can be
    played, for the closure of any render, the call returns normally with
    the processing flag cleared (on the success path and in the [catch]
    alike) and the recording flag untouched; the transcription request is
    the first one sent and at most one request follows it.  A request
    that is never answered is not a run of this embedding. *)
Theorem processed_turn_never_throws
    (seenConversationId seenAgent : value) (audioBlob : Api.Blob)
    (playResolves : bool) (w : Hybrid.World) :
  let w' := snd (Hybrid.processVoiceMessage seenConversationId seenAgent
                   audioBlob playResolves w) in
  fst (Hybrid.processVoiceMessage seenConversationId seenAgent
         audioBlob playResolves w) = Returned tt /\
  Hybrid.isProcessing (Hybrid.state w') = false /\
  Hybrid.isRecording (Hybrid.state w') = Hybrid.isRecording (Hybrid.state w) /\
  (length (Api.sent (Hybrid.net w')) <= length (Api.sent (Hybrid.net w)) + 2)%nat /\
  exists rest,
    Api.sent (Hybrid.net w')
      = Api.sent (Hybrid.net w) ++ Hybrid.transcriptionRequest audioBlob :: rest.
Proof.
  cbv zeta.
  unfold Hybrid.processVoiceMessage, Hybrid.playAudioResponse,
    Hybrid.onNet, Hybrid.setState, Hybrid.setAudio, Hybrid.emit, Hybrid.prop,
    Api.fetch, Api.json_, Js.getProp, when, await, zoom, tryCatch, bind, get,
    modify, ret, throw.
  split_cases; cbn;
    (split; [reflexivity |]); (split; [reflexivity |]); (split; [reflexivity |]);
    (split; [rewrite ?length_app; cbn [length]; lia |]);
    eexists; rewrite <- ?app_assoc; reflexivity.
Qed.

(** X26: when the transcription request fails (rejected fetch or non-2xx
    status) the agent endpoint is not called: one request is sent, the
    error 'Failed to process voice message' is set and [onError] is
    called. *)
Theorem transcription_failure_stops_the_turn
    (seenConversationId seenAgent : value)
    (audioBlob : Api.Blob) (playResolves : bool) (w : Hybrid.World) :
  Api.refuses (Hybrid.net w) (Hybrid.transcriptionRequest audioBlob) ->
  let w' := snd (Hybrid.processVoiceMessage seenConversationId seenAgent
                   audioBlob playResolves w) in
  Api.sent (Hybrid.net w')
    = Api.sent (Hybrid.net w) ++ [Hybrid.transcriptionRequest audioBlob] /\
  Hybrid.agentCalls w' = Hybrid.agentCalls w /\
  Hybrid.error (Hybrid.state w') = Some "Failed to process voice message" /\
  Hybrid.isProcessing (Hybrid.state w') = false /\
  Hybrid.audioElementRef w' = Hybrid.audioElementRef w /\
  exists e, Hybrid.notices w' = Hybrid.notices w ++ [Hybrid.onError e].
Proof.
  unfold Api.refuses. intros Hrefuse. cbv zeta.
  unfold Hybrid.processVoiceMessage, bind, get, tryCatch, Hybrid.onNet, zoom,
    Api.fetch.
  destruct (Api.respond (Hybrid.net w) (Api.sent (Hybrid.net w))
              (Hybrid.transcriptionRequest audioBlob)) as [|res].
  - cbn. repeat split; eauto.
    unfold Hybrid.agentCalls. cbn. rewrite filter_app. cbn.
    rewrite decide_False by discriminate. apply app_nil_r.
  - cbn. rewrite Hrefuse. cbn. repeat split; eauto.
    unfold Hybrid.agentCalls. cbn. rewrite filter_app. cbn.
    rewrite decide_False by discriminate. apply app_nil_r.
Qed.

Lemma transcription_failure_stops_the_turn_witness :
  let w := HybridCapture.voice (HybridCapture.mounted Cases.offline) in
  Api.refuses (Hybrid.net w) (Hybrid.transcriptionRequest Scenario.clip) /\
  Hybrid.agentCalls
    (snd (Hybrid.processVoiceMessage (Some JNull) (Some (JStr "Triage Agent"))
            Scenario.clip true w)) = [].
Proof.
  cbv zeta. split; [exact I |].
  destruct (transcription_failure_stops_the_turn (Some JNull)
              (Some (JStr "Triage Agent")) Scenario.clip true
              (HybridCapture.voice (HybridCapture.mounted Cases.offline)) I)
    as (_ & H & _).
  exact H.
Defined.

(** X27: a turn that succeeds without audio, for the closure the
    component runs.  With a non-empty transcript and an agent reply whose
    [success] is truthy (its HTTP status is not looked at), the component
    takes the agent and the conversation id from the reply, leaves the
    processing state, keeps its error and playing flag as they were and
    calls [onMessage] with the reply.  The agent request carries the
    transcript and the conversation id of the render the closure was
    created in, not the one the state holds now, and [onAgentChange] is
    called exactly when the agent of the reply differs from the agent of
    that render. *)
Theorem successful_turn_without_audio
    (seenConversationId seenAgent : value)
    (audioBlob : Api.Blob) (playResolves : bool) (w : Hybrid.World)
    (res1 res2 : Api.Response) (fields1 fields2 : list (string * json))
    (transcript : json) :
  let req1 := Hybrid.transcriptionRequest audioBlob in
  let req2 := Hybrid.agentRequest transcript seenConversationId in
  Api.respond (Hybrid.net w) (Api.sent (Hybrid.net w)) req1
    = Api.FetchResolves res1 ->
  Api.ok res1 = true -> Api.payload res1 = Some (JObj fields1) ->
  assoc "transcript" fields1 = Some transcript -> truthy transcript = true ->
  Api.respond (Hybrid.net w) (Api.sent (Hybrid.net w) ++ [req1]) req2
    = Api.FetchResolves res2 ->
  Api.payload res2 = Some (JObj fields2) ->
  truthyValue (assoc "success" fields2) = true ->
  assoc "audio_base64" fields2 = None ->
  let w' := snd (Hybrid.processVoiceMessage seenConversationId seenAgent
                   audioBlob playResolves w) in
  Api.sent (Hybrid.net w') = Api.sent (Hybrid.net w) ++ [req1; req2] /\
  Hybrid.currentAgent (Hybrid.state w') = assoc "current_agent" fields2 /\
  Hybrid.conversationId (Hybrid.state w') = assoc "conversation_id" fields2 /\
  Hybrid.isProcessing (Hybrid.state w') = false /\
  Hybrid.isPlaying (Hybrid.state w') = Hybrid.isPlaying (Hybrid.state w) /\
  Hybrid.error (Hybrid.state w') = Hybrid.error (Hybrid.state w) /\
  Hybrid.notices w' =
    Hybrid.notices w ++ [Hybrid.onMessage (JObj fields2)]
      ++ (if Hybrid.strictNe (assoc "current_agent" fields2) seenAgent
          then [Hybrid.onAgentChange (assoc "current_agent" fields2)]
          else []).
Proof.
  cbv zeta. intros H1 Hok1 Hpay1 Ht Htruthy H2 Hpay2 Hsuccess Haudio.
  unfold Hybrid.processVoiceMessage, bind, get, tryCatch, Hybrid.onNet, zoom,
    Api.fetch.
  rewrite H1. cbn. rewrite Hok1. cbn.
  unfold Api.json_. rewrite Hpay1. cbn. rewrite Ht. cbn. rewrite Htruthy.
  unfold bind, Hybrid.onNet, zoom, Api.fetch. cbn. rewrite H2. cbn.
  rewrite Hpay2. cbn. rewrite Hsuccess. cbn.
  rewrite Haudio.
  destruct (Hybrid.strictNe (assoc "current_agent" fields2) seenAgent); cbn;
    rewrite <- ?app_assoc; repeat split.
Qed.

Lemma successful_turn_without_audio_witness :
  let w := Cases.afterFirstTurn in
  let w' := snd (Hybrid.processVoiceMessage (Some JNull)
                   (Some (JStr "Triage Agent")) Scenario.clip true w) in
  Hybrid.conversationId (Hybrid.state w) = Some (JStr "c42") /\
  Hybrid.currentAgent (Hybrid.state w) = Some (JStr "Inspection Agent") /\
  last (Api.sent (Hybrid.net w'))
    = Some (Hybrid.agentRequest (JStr "I need to schedule an inspection")
              (Some JNull)) /\
  Hybrid.notices w' =
    Hybrid.notices w
      ++ [Hybrid.onMessage (JObj Cases.turnReply);
          Hybrid.onAgentChange (Some (JStr "Inspection Agent"))].
Proof.
  cbv zeta. split; [reflexivity |]. split; [reflexivity |].
  destruct (successful_turn_without_audio (Some JNull)
              (Some (JStr "Triage Agent")) Scenario.clip true
              Cases.afterFirstTurn
              {| Api.status := 200;
                 Api.payload := Some (JObj [("transcript",
                                  JStr "I need to schedule an inspection")]) |}
              {| Api.status := 500; Api.payload := Some (JObj Cases.turnReply) |}
              [("transcript", JStr "I need to schedule an inspection")]
              Cases.turnReply (JStr "I need to schedule an inspection")
              eq_refl eq_refl eq_refl eq_refl eq_refl eq_refl eq_refl eq_refl
              eq_refl) as (Hsent & _ & _ & _ & _ & _ & Hnotices).
  split; [rewrite Hsent; reflexivity | exact Hnotices].
Defined.

End HybridMoreFacts.

Section HybridCaptureFacts.
Import Js Async HybridCapture.
Local Open Scope prog_scope.

(** X28: the permission check keeps the microphone.  When
    [requestMicrophonePermission] is granted a stream, it records the
    permission and clears the error, and the stream, which nothing refers
    to afterwards, keeps its live tracks; when it is refused it reports
    'Microphone access required for voice conversation' and acquires
    nothing. *)
Theorem permission_probe_keeps_its_stream (answer : option nat) (w : World) :
  let '(r, w') := requestMicrophonePermission answer w in
  mediaRecorderRef w' = mediaRecorderRef w /\
  match answer with
  | Some tracks =>
      r = Returned true /\ hasPermissions w' = true /\
      Hybrid.error (Hybrid.state (voice w')) = None /\
      streams w' = streams w ++ [replicate tracks true] /\
      (tracks <> 0%nat -> microphoneBusy w' = true)
  | None =>
      r = Returned false /\ hasPermissions w' = false /\
      Hybrid.error (Hybrid.state (voice w'))
        = Some "Microphone access required for voice conversation" /\
      streams w' = streams w
  end.
Proof.
  unfold requestMicrophonePermission, getUserMedia, setState, zoom, Hybrid.setState,
    tryCatch, bind, get, modify, ret, throw.
  destruct answer as [tracks|]; cbn; repeat split.
  intros Htracks. unfold microphoneBusy. cbn. rewrite existsb_app.
  destruct tracks as [|k]; [congruence |]. cbn. apply orb_true_r.
Qed.

Lemma startRecording_shape (env : StartEnv) (w : World) (tracks : nat) :
  hasPermissions w = true -> userMedia env = Some tracks ->
  recorderConstructs env = true ->
  let w' := snd (startRecording env w) in
  fst (startRecording env w) = Returned tt /\
  Hybrid.isRecording (Hybrid.state (voice w')) = true /\
  Hybrid.error (Hybrid.state (voice w')) = None /\
  streams w' = streams w ++ [replicate tracks true] /\
  (exists mime, mediaRecorderRef w' =
     Some {| mr_stream := length (streams w); mimeType := mime; active := true |}) /\
  audioChunksRef w' = [] /\
  hasPermissions w' = true.
Proof.
  intros Hperm Hgranted Hrec. cbv zeta.
  unfold startRecording, getUserMedia, setState, zoom, Hybrid.setState,
    tryCatch, bind, get, modify, ret, throw.
  rewrite Hperm, Hgranted, Hrec. cbn. repeat split; eauto.
Qed.

Lemma replicate_stopped (tracks : nat) :
  (fun _ : bool => false) <$> replicate tracks true = replicate tracks false.
Proof. induction tracks as [|k IH]; [reflexivity | cbn; f_equal; exact IH]. Qed.

Lemma no_live_track (tracks : nat) : existsb id (replicate tracks false) = false.
Proof. induction tracks; [reflexivity | assumption]. Qed.

(** X29: a recording that is started with the permission held and then
    stopped releases its own stream once the turn has been processed:
    for each way the requests of the turn can be answered or rejected,
    whatever the recorder delivers and whichever closure processes the
    turn, [stopRecording] and the [onstop] it triggers do not throw, every
    track of the stream opened by [startRecording] is stopped, and the
    component is neither recording nor processing.  A request that is
    never answered is not a run of this embedding. *)
Theorem processed_recording_releases_its_stream
    (env : StartEnv) (stop : StopEnv) (w : World) (tracks : nat) :
  hasPermissions w = true -> userMedia env = Some tracks ->
  recorderConstructs env = true ->
  let w' := snd (stopRecording stop (snd (startRecording env w))) in
  fst (stopRecording stop (snd (startRecording env w))) = Returned tt /\
  streams w' = streams w ++ [replicate tracks false] /\
  microphoneBusy w' = microphoneBusy w /\
  Hybrid.isRecording (Hybrid.state (voice w')) = false /\
  Hybrid.isProcessing (Hybrid.state (voice w')) = false.
Proof.
  intros Hperm Hgranted Hrec.
  destruct (startRecording_shape env w tracks Hperm Hgranted Hrec)
    as (_ & Hisrec & _ & Hs & (mime & Hmr) & Hchunks & _).
  cbv zeta in *. set (w1 := snd (startRecording env w)) in *. clearbody w1.
  unfold stopRecording, onstop, ondataavailable, setState, zoom, Hybrid.setState,
    bind, get, modify, ret.
  rewrite Hmr, Hisrec. unfold microphoneBusy.
  assert (alter (fmap (fun _ : bool => false)) (length (streams w)) (streams w1)
          = streams w ++ [replicate tracks false]) as Hfinal.
  { rewrite Hs. replace (length (streams w)) with (length (streams w) + 0)%nat by lia.
    rewrite alter_app_r. cbn. rewrite replicate_stopped. reflexivity. }
  destruct (Api.blobBytes (recorded stop)) as [|b bs];
    cbn -[Hybrid.processVoiceMessage];
    match goal with
    | |- context [Hybrid.processVoiceMessage ?c ?a ?b ?p ?v] =>
        pose proof (processVoiceMessage_flags c a b p v) as Hsettle;
        cbv zeta in Hsettle;
        destruct (Hybrid.processVoiceMessage c a b p v) as [r v']
    end;
    cbn in Hsettle; destruct Hsettle as (-> & Hproc & Hrecflag);
    cbn; rewrite Hfinal; repeat split; try assumption;
    rewrite existsb_app; cbn;
    rewrite no_live_track, !orb_false_r; reflexivity.
Qed.

Lemma processed_recording_releases_its_stream_witness :
  let w' := snd (stopRecording Cases.spoken
                   (snd (startRecording Cases.micGranted
                           (Cases.permitted Cases.turnNet)))) in
  hasPermissions (Cases.permitted Cases.turnNet) = true /\
  streams w' = [[false]] /\
  Hybrid.isProcessing (Hybrid.state (voice w')) = false.
Proof.
  cbv zeta. split; [reflexivity |].
  destruct (processed_recording_releases_its_stream Cases.micGranted Cases.spoken
              (Cases.permitted Cases.turnNet) 1 eq_refl eq_refl eq_refl)
    as (_ & Hs & _ & _ & Hproc).
  split; [exact Hs | exact Hproc].
Defined.

(** X30: a start that fails after the permission is held.  When the
    second [getUserMedia] is refused, or the [MediaRecorder] cannot be
    constructed, [startRecording] does not throw, leaves the recording
    state with the error 'Failed to start recording' and installs no
    recorder; in the second case the stream it was granted is not stopped
    and stays live. *)
Theorem failed_start_after_permission (env : StartEnv) (w : World) :
  hasPermissions w = true ->
  userMedia env = None \/ recorderConstructs env = false ->
  let w' := snd (startRecording env w) in
  fst (startRecording env w) = Returned tt /\
  Hybrid.isRecording (Hybrid.state (voice w')) = false /\
  Hybrid.error (Hybrid.state (voice w')) = Some "Failed to start recording" /\
  mediaRecorderRef w' = mediaRecorderRef w /\
  audioChunksRef w' = audioChunksRef w /\
  streams w' = streams w ++ match userMedia env with
                            | Some tracks => [replicate tracks true]
                            | None => []
                            end.
Proof.
  intros Hperm Hfail. cbv zeta.
  unfold startRecording, getUserMedia, setState, zoom, Hybrid.setState,
    tryCatch, bind, get, modify, ret, throw.
  rewrite Hperm.
  destruct (userMedia env) as [tracks|] eqn:Hmedia; cbn.
  - destruct Hfail as [Hnone | Hrec]; [discriminate |].
    rewrite Hrec. cbn. repeat split.
  - rewrite app_nil_r. repeat split.
Qed.

Lemma failed_start_after_permission_witness :
  let env := {| probe := None; userMedia := Some 1%nat; supportsWebm := true;
                supportsMp4 := false; recorderConstructs := false;
                defaultMime := "" |} in
  let w := Cases.permitted Cases.turnNet in
  microphoneBusy w = false /\
  microphoneBusy (snd (startRecording env w)) = true /\
  Hybrid.isRecording (Hybrid.state (voice (snd (startRecording env w)))) = false.
Proof.
  cbv zeta.
  pose proof (failed_start_after_permission
    {| probe := None; userMedia := Some 1%nat; supportsWebm := true;
       supportsMp4 := false; recorderConstructs := false; defaultMime := "" |}
    (Cases.permitted Cases.turnNet) eq_refl (or_intror eq_refl)) as H.
  cbv zeta in H. destruct H as (_ & Hrec & _ & _ & _ & Hs).
  split; [reflexivity |]. split; [| exact Hrec].
  unfold microphoneBusy. rewrite Hs. reflexivity.
Defined.

End HybridCaptureFacts.
